(** * Transitive dependency enrichment through deps.dev

    A shallow embedding of the package [depsdev]: the deps.dev REST
    clients ([GetDependencies]) and the two enrichers (PyPI and Maven) with
    their [Enrich] and [resolveGroup] methods, followed by the properties of
    the resolution engine.

    Conventions of the embedding.
    - Go strings are [string]; [map[string]T] is [gmap string T].
    - A [for k, v := range m] loop over a Go map visits the entries in an
      unspecified order.  Every such loop takes the visiting order as an
      explicit list of keys.  The theorems hold for every such list, and so
      for every order that enumerates the map ([range_order],
      [range_schedule]); the sample runs use orders that do.
    - [inv.Packages] is a [list Package]: the slice holds pointers to
      pairwise distinct package objects, so that an update through
      [inv.Packages[i]] changes position [i] only.
    - An index expression out of range panics in Go: [Enrich] returns
      [option], with [None] for a run-time panic.
    - The HTTP transport, [url.PathEscape], [strings.ToLower] and the JSON
      decoder are outside the package; they are the fields of a
      [Transport], and the theorems hold for every [Transport].  What a
      theorem needs to know of one of them is a hypothesis of that
      theorem. *)

From Stdlib Require Import Ascii String ZArith.
From stdpp Require Import gmap strings list fin_maps.

Local Open Scope string_scope.
Local Open Scope Z_scope.
Local Open Scope nat_scope.
Local Open Scope list_scope.
Local Open Scope stdpp_scope.

(** ** Strings *)

(** A Go string is a sequence of bytes.  [isASCII s]: every byte of [s] is
    below [utf8.RuneSelf] (0x80). *)
Fixpoint isASCII (s : string) : bool :=
  match s with
  | EmptyString => true
  | String c s' => (nat_of_ascii c <? 128) && isASCII s'
  end.

Definition is_upper (c : ascii) : bool :=
  (65 <=? nat_of_ascii c) && (nat_of_ascii c <=? 90).

Definition lower_ascii (c : ascii) : ascii :=
  if is_upper c then ascii_of_nat (nat_of_ascii c + 32) else c.

(** Byte-wise lower-casing: the letters 'A'..'Z' are mapped to 'a'..'z',
    every other byte is kept.  This is what [strings.ToLower] returns for
    a string that [isASCII]; on other strings Go lower-cases by Unicode
    rune, which is not defined here (see [ToLower] in [Transport]). *)
Fixpoint ToLowerASCII (s : string) : string :=
  match s with
  | EmptyString => EmptyString
  | String c s' => String (lower_ascii c) (ToLowerASCII s')
  end.

(** Some byte of [s] is an upper-case ASCII letter. *)
Fixpoint has_upper (s : string) : bool :=
  match s with
  | EmptyString => false
  | String c s' => is_upper c || has_upper s'
  end.

(** [strings.Cut(s, sep)]: the text before and after the first occurrence
    of [sep], and whether [sep] occurs; [(s, "", false)] when it does not. *)
Fixpoint Cut (s sep : string) : string * string * bool :=
  if String.prefix sep s
  then (EmptyString, String.substring (String.length sep)
                       (String.length s - String.length sep) s, true)
  else match s with
       | EmptyString => (s, EmptyString, false)
       | String c s' =>
           let '(before, after, found) := Cut s' sep in
           if found then (String c before, after, true)
           else (s, EmptyString, false)
       end.

(** The byte [c] occurs in [s]. *)
Fixpoint occurs (c : ascii) (s : string) : bool :=
  match s with
  | EmptyString => false
  | String d s' => bool_decide (d = c) || occurs c s'
  end.

(** [slices.Contains] on a slice of strings. *)
Fixpoint slices_Contains (l : list string) (x : string) : bool :=
  match l with
  | [] => false
  | y :: l' => bool_decide (y = x) || slices_Contains l' x
  end.

(** ** Data model *)

(** [javalockfile.Metadata] *)
Record Metadata := mkMetadata {
  ArtifactID : string;
  GroupID : string;
  IsTransitive : bool
}.

(** [extractor.Package], with the fields this package reads or writes. *)
Record Package := mkPackage {
  Name : string;
  Version : string;
  PURLType : string;
  Locations : list string;
  Plugins : list string;
  PkgMetadata : option Metadata
}.

Definition setVersion (p : Package) (v : string) : Package :=
  mkPackage (Name p) v (PURLType p) (Locations p) (Plugins p) (PkgMetadata p).

Definition setPlugins (p : Package) (ps : list string) : Package :=
  mkPackage (Name p) (Version p) (PURLType p) (Locations p) ps (PkgMetadata p).

Record DepsDevVersionKey := mkVersionKey {
  vkSystem : string;
  vkName : string;
  vkVersion : string
}.

Record DepsDevNode := mkNode {
  VersionKey : DepsDevVersionKey;
  Bundled : bool;
  Relation : string;
  Errors : list string
}.

Record DepsDevEdge := mkEdge {
  FromNode : Z;
  ToNode : Z;
  Requirement : string
}.

Record DepsDevDependencyGraph := mkGraph {
  Nodes : list DepsDevNode;
  Edges : list DepsDevEdge
}.

(** [packageWithIndex]: a package and its index in the inventory slice.
    In the source [pkg] is a pointer to the inventory entry; here it is the
    entry as it is when the groups are built.  Between that moment and the
    resolution of its group no merge writes to the entry
    ([mergeLoop_keeps_other_groups]). *)
Record packageWithIndex := mkPWI {
  pkg : Package;
  index : nat
}.

(** Constants of the imported packages [purl] and [requirements]. *)
Definition purl_TypePyPi : string := "pypi".
Definition purl_TypeMaven : string := "maven".
Definition requirements_Name : string := "python/requirements".

Definition PyPIDepsDevEnricherName : string :=
  "transitivedependency/requirements/depsdev".
Definition MavenDepsDevEnricherName : string :=
  "transitivedependency/maven/depsdev".
Definition pomxmlExtractorName : string := "java/pomxml".
Definition pomxmlEnhanceableName : string := "java/pomxmlenhanceable".
Definition pomxmlNetName : string := "java/pomxmlnet".

(** The errors built with [fmt.Errorf], by the place that builds them. *)
Inductive Error :=
| ErrCreateRequest
| ErrRequestFailed (name version : string)
| ErrStatus (code : Z) (name version body : string)
| ErrDecode (name version : string)
| ErrNoDependencies
| ErrNoMavenDependencies.

(** What one HTTP exchange comes to: [http.NewRequestWithContext] fails,
    [http.DefaultClient.Do] fails (connection, timeout, cancelled context),
    or a response arrives with a status code and a body. *)
Inductive Exchange :=
| RequestError
| TransportError
| Response (StatusCode : Z) (body : string).

Definition http_StatusOK : Z := 200%Z.

(** ** The outside world

    What the package takes from [net/http], [net/url], [strings] and
    [encoding/json]: the state of the network and of the remote service
    ([World]), the escaping of a path segment, the Unicode lower-casing
    [strings.ToLower], one HTTP GET of a URL with the header
    [Accept: application/json] (which may change the world), and the JSON
    decoder for the dependency graph schema.  None of them is defined
    here: a theorem about the package holds for whatever these functions
    are. *)
Record Transport := mkTransport {
  World : Type;
  PathEscape : string → string;
  ToLower : string → string;
  exchange : string → World → Exchange * World;
  Decode : string → option DepsDevDependencyGraph
}.

(** Two facts of [strings.ToLower] that some theorems take as hypotheses:
    on a string that [isASCII] it is the byte-wise lower-casing, and its
    result holds no upper-case ASCII letter. *)
Definition lowers_ASCII (T : Transport) : Prop :=
  ∀ s, isASCII s = true → ToLower T s = ToLowerASCII s.

Definition leaves_no_upper (T : Transport) : Prop :=
  ∀ s, has_upper (ToLower T s) = false.

(** The result of a call that returns a graph pointer and an [error]. *)
Abbreviation GraphResult := (Error + DepsDevDependencyGraph)%type.

(** ** The Graph Client of [depsdev_pypi_client.go] *)
Module PyPIClient.

Record PyPIDepsDevClient := mkClient {
  baseURL : string;
  cache : gmap string DepsDevDependencyGraph
}.

Definition NewPyPIDepsDevClient (baseURL : string) : PyPIDepsDevClient :=
  mkClient baseURL ∅.

Section Network.
Context (T : Transport).

Definition GetDependencies (name version : string)
    (st : PyPIDepsDevClient * World T)
    : GraphResult * (PyPIDepsDevClient * World T) :=
  let '(c, w) := st in
  let cacheKey := name +:+ "@" +:+ version in
  match cache c !! cacheKey with
  | Some cached => (inr cached, (c, w))
  | None =>
      let reqURL :=
        baseURL c +:+ "/v3/systems/pypi/packages/" +:+ PathEscape T name
          +:+ "/versions/" +:+ PathEscape T version +:+ ":dependencies" in
      match exchange T reqURL w with
      | (RequestError, w') => (inl ErrCreateRequest, (c, w'))
      | (TransportError, w') =>
          (inl (ErrRequestFailed name version), (c, w'))
      | (Response StatusCode body, w') =>
          if bool_decide (StatusCode ≠ http_StatusOK)
          then (inl (ErrStatus StatusCode name version body), (c, w'))
          else match Decode T body with
               | None => (inl (ErrDecode name version), (c, w'))
               | Some graph =>
                   (inr graph,
                    (mkClient (baseURL c) (<[cacheKey := graph]> (cache c)),
                     w'))
               end
      end
  end.
End Network.
End PyPIClient.

(** ** The Graph Client of the unnamed source file ([DepsDevRESTClient]) *)
Module RESTClient.

Record DepsDevRESTClient := mkClient {
  baseURL : string;
  system : string;
  cache : gmap string DepsDevDependencyGraph
}.

Definition NewPyPIDepsDevClient (baseURL : string) : DepsDevRESTClient :=
  mkClient baseURL "pypi" ∅.

Definition NewMavenDepsDevClient (baseURL : string) : DepsDevRESTClient :=
  mkClient baseURL "maven" ∅.

Section Network.
Context (T : Transport).

Definition GetDependencies (name version : string)
    (st : DepsDevRESTClient * World T)
    : GraphResult * (DepsDevRESTClient * World T) :=
  let '(c, w) := st in
  let cacheKey := system c +:+ "/" +:+ name +:+ "@" +:+ version in
  match cache c !! cacheKey with
  | Some cached => (inr cached, (c, w))
  | None =>
      let reqURL :=
        baseURL c +:+ "/v3/systems/" +:+ system c +:+ "/packages/"
          +:+ PathEscape T name
          +:+ "/versions/" +:+ PathEscape T version +:+ ":dependencies" in
      match exchange T reqURL w with
      | (RequestError, w') => (inl ErrCreateRequest, (c, w'))
      | (TransportError, w') =>
          (inl (ErrRequestFailed name version), (c, w'))
      | (Response StatusCode body, w') =>
          if bool_decide (StatusCode ≠ http_StatusOK)
          then (inl (ErrStatus StatusCode name version body), (c, w'))
          else match Decode T body with
               | None => (inl (ErrDecode name version), (c, w'))
               | Some graph =>
                   (inr graph,
                    (mkClient (baseURL c) (system c)
                              (<[cacheKey := graph]> (cache c)),
                     w'))
               end
      end
  end.
End Network.
End RESTClient.

(** A visiting order of the groups of an inventory: the manifest paths in
    the order in which the outer [range] loop of [Enrich] meets them, each
    with the order in which the [range] loop of [resolveGroup] meets the
    names of that group. *)
Abbreviation Schedule := (list (string * list string)).

(** The orders a Go [range] loop can take over a map: the enumerations of
    its keys, each key once. *)
Definition range_order {V : Type} (m : gmap string V) (order : list string)
    : Prop :=
  order ≡ₚ (map_to_list m).*1.

Definition range_schedule
    (pkgGroups : gmap string (gmap string packageWithIndex))
    (sched : Schedule) : Prop :=
  range_order pkgGroups sched.*1 ∧
  Forall (λ po, ∃ pkgMap, pkgGroups !! po.1 = Some pkgMap
                          ∧ range_order pkgMap po.2) sched.

(** ** The PyPI enricher ([depsdev_pypi_enricher.go]) *)
Module PyPI.

(** The enricher's client, with the world its calls act on. *)
Abbreviation ClientState T := (PyPIClient.PyPIDepsDevClient * World T)%type.

Section Network.
Context (T : Transport).

Abbreviation Client := (ClientState T).

(** The body of the loop over [graph.Nodes] in [resolveGroup]. *)
Definition visitNode (path : string)
    (acc : gmap string bool * list Package) (node : DepsDevNode)
    : gmap string bool * list Package :=
  let '(seen, result) := acc in
  if bool_decide (Relation node = "SELF") then (seen, result)
  else
    let name := ToLower T (vkName (VersionKey node)) in
    let key := name +:+ "@" +:+ vkVersion (VersionKey node) in
    if default false (seen !! key) then (seen, result)
    else (<[key := true]> seen,
          result ++ [mkPackage name (vkVersion (VersionKey node))
                       purl_TypePyPi [path] [PyPIDepsDevEnricherName] None]).

(** The body of the loop over [pkgMap] in [resolveGroup]; [name] is the
    key the loop is at, and [indexPkg] the value stored under it. *)
Definition resolveEntry (path : string)
    (pkgMap : gmap string packageWithIndex)
    (st : gmap string bool * list Package * Client) (name : string)
    : gmap string bool * list Package * Client :=
  let '(seen, result, c) := st in
  match pkgMap !! name with
  | None => (seen, result, c)
  | Some indexPkg =>
      if bool_decide (Version (pkg indexPkg) = "") then (seen, result, c)
      else
        match PyPIClient.GetDependencies T (Name (pkg indexPkg))
                (Version (pkg indexPkg)) c with
        | (inl err, c') => (seen, result, c')
        | (inr graph, c') =>
            (foldl (visitNode path) (seen, result) (Nodes graph), c')
        end
  end.

Definition resolveGroup (path : string)
    (pkgMap : gmap string packageWithIndex) (order : list string) (c : Client)
    : (Error + list Package) * Client :=
  let '(_, result, c') := foldl (resolveEntry path pkgMap) (∅, [], c) order in
  if bool_decide (length result = 0) && bool_decide (0 < size pkgMap)
  then (inl ErrNoDependencies, c')
  else (inr result, c').

(** The body of the grouping loop of [Enrich]. *)
Definition groupStep (pkgGroups : gmap string (gmap string packageWithIndex))
    (i : nat) (p : Package) : gmap string (gmap string packageWithIndex) :=
  if negb (slices_Contains (Plugins p) requirements_Name) then pkgGroups
  else
    match Locations p with
    | [] => pkgGroups
    | path :: _ =>
        <[path := <[Name p := mkPWI p i]> (default ∅ (pkgGroups !! path))]>
          pkgGroups
    end.

Fixpoint groupLoop (i : nat) (pkgs : list Package)
    (pkgGroups : gmap string (gmap string packageWithIndex))
    : gmap string (gmap string packageWithIndex) :=
  match pkgs with
  | [] => pkgGroups
  | p :: rest => groupLoop (S i) rest (groupStep pkgGroups i p)
  end.

(** The body of the loop over the resolved packages in [Enrich]. *)
Definition mergeStep (pkgMap : gmap string packageWithIndex)
    (inv : list Package) (p : Package) : option (list Package) :=
  match pkgMap !! Name p with
  | Some indexPkg =>
      match inv !! index indexPkg with
      | None => None
      | Some entry =>
          Some (<[index indexPkg :=
                  setPlugins (setVersion entry (Version p))
                    (Plugins entry ++ [PyPIDepsDevEnricherName])]> inv)
      end
  | None => Some (inv ++ [p])
  end.

Fixpoint mergeLoop (pkgMap : gmap string packageWithIndex)
    (inv : list Package) (pkgs : list Package) : option (list Package) :=
  match pkgs with
  | [] => Some inv
  | p :: rest =>
      match mergeStep pkgMap inv p with
      | None => None
      | Some inv' => mergeLoop pkgMap inv' rest
      end
  end.

Fixpoint enrichLoop (pkgGroups : gmap string (gmap string packageWithIndex))
    (sched : Schedule) (inv : list Package) (c : Client)
    : option (list Package * Client) :=
  match sched with
  | [] => Some (inv, c)
  | (path, order) :: rest =>
      let pkgMap := default ∅ (pkgGroups !! path) in
      match resolveGroup path pkgMap order c with
      | (inl err, c') => enrichLoop pkgGroups rest inv c'
      | (inr pkgs, c') =>
          match mergeLoop pkgMap inv pkgs with
          | None => None
          | Some inv' => enrichLoop pkgGroups rest inv' c'
          end
      end
  end.

(** [Enrich]: the inventory and the client after the pass, and the error
    returned; [None] when the pass panics. *)
Definition Enrich (sched : Schedule) (inv : list Package) (c : Client)
    : option (list Package * Client * option Error) :=
  let pkgGroups := groupLoop 0 inv ∅ in
  match enrichLoop pkgGroups sched inv c with
  | None => None
  | Some (inv', c') => Some (inv', c', None)
  end.

End Network.

(** [NewPyPIDepsDevEnricher]: the enricher is its client, which starts with
    an empty cache; the error returned is always nil. *)
Definition NewPyPIDepsDevEnricher (depsDevBaseURL : string)
    : PyPIClient.PyPIDepsDevClient * option Error :=
  (PyPIClient.NewPyPIDepsDevClient depsDevBaseURL, None).

(** The methods [Name] and [RequiredPlugins]. *)
Definition Name : string := PyPIDepsDevEnricherName.
Definition RequiredPlugins : list string := [requirements_Name].

End PyPI.

(** ** The Maven enricher ([depsdev_maven_enricher.go]) *)
Module Maven.

(** The enricher's client, with the world its calls act on. *)
Abbreviation ClientState T := (RESTClient.DepsDevRESTClient * World T)%type.

Definition isMavenPlugin (name : string) : bool :=
  bool_decide (name = pomxmlExtractorName)
  || bool_decide (name = pomxmlEnhanceableName)
  || bool_decide (name = pomxmlNetName).

Section Network.
Context (T : Transport).

Abbreviation Client := (ClientState T).

(** The body of the loop over [graph.Nodes] in [resolveGroup]. *)
Definition visitNode (path : string)
    (acc : gmap string bool * list Package) (node : DepsDevNode)
    : gmap string bool * list Package :=
  let '(seen, result) := acc in
  if bool_decide (Relation node = "SELF") then (seen, result)
  else
    let name := vkName (VersionKey node) in
    let key := name +:+ "@" +:+ vkVersion (VersionKey node) in
    if default false (seen !! key) then (seen, result)
    else
      let '(groupID, artifactID, _) := Cut name ":" in
      (<[key := true]> seen,
       result ++ [mkPackage name (vkVersion (VersionKey node))
                    purl_TypeMaven [path] [MavenDepsDevEnricherName]
                    (Some (mkMetadata artifactID groupID
                             (bool_decide (Relation node = "INDIRECT"))))]).

(** The body of the loop over [pkgMap] in [resolveGroup]; [name] is the
    key the loop is at, and [indexPkg] the value stored under it. *)
Definition resolveEntry (path : string)
    (pkgMap : gmap string packageWithIndex)
    (st : gmap string bool * list Package * Client) (name : string)
    : gmap string bool * list Package * Client :=
  let '(seen, result, c) := st in
  match pkgMap !! name with
  | None => (seen, result, c)
  | Some indexPkg =>
      if bool_decide (Version (pkg indexPkg) = "") then (seen, result, c)
      else
        match RESTClient.GetDependencies T (Name (pkg indexPkg))
                (Version (pkg indexPkg)) c with
        | (inl err, c') => (seen, result, c')
        | (inr graph, c') =>
            (foldl (visitNode path) (seen, result) (Nodes graph), c')
        end
  end.

Definition resolveGroup (path : string)
    (pkgMap : gmap string packageWithIndex) (order : list string) (c : Client)
    : (Error + list Package) * Client :=
  let '(_, result, c') := foldl (resolveEntry path pkgMap) (∅, [], c) order in
  if bool_decide (length result = 0) && bool_decide (0 < size pkgMap)
  then (inl ErrNoMavenDependencies, c')
  else (inr result, c').

(** The body of the grouping loop of [Enrich]. *)
Definition groupStep (pkgGroups : gmap string (gmap string packageWithIndex))
    (i : nat) (p : Package) : gmap string (gmap string packageWithIndex) :=
  if negb (existsb isMavenPlugin (Plugins p)) then pkgGroups
  else
    match Locations p with
    | [] => pkgGroups
    | path :: _ =>
        <[path := <[Name p := mkPWI p i]> (default ∅ (pkgGroups !! path))]>
          pkgGroups
    end.

Fixpoint groupLoop (i : nat) (pkgs : list Package)
    (pkgGroups : gmap string (gmap string packageWithIndex))
    : gmap string (gmap string packageWithIndex) :=
  match pkgs with
  | [] => pkgGroups
  | p :: rest => groupLoop (S i) rest (groupStep pkgGroups i p)
  end.

(** The body of the loop over the resolved packages in [Enrich]. *)
Definition mergeStep (pkgMap : gmap string packageWithIndex)
    (inv : list Package) (p : Package) : option (list Package) :=
  match pkgMap !! Name p with
  | Some indexPkg =>
      match inv !! index indexPkg with
      | None => None
      | Some entry =>
          Some (<[index indexPkg :=
                  setPlugins (setVersion entry (Version p))
                    (if slices_Contains (Plugins entry)
                          MavenDepsDevEnricherName
                     then Plugins entry
                     else Plugins entry ++ [MavenDepsDevEnricherName])]> inv)
      end
  | None => Some (inv ++ [p])
  end.

Fixpoint mergeLoop (pkgMap : gmap string packageWithIndex)
    (inv : list Package) (pkgs : list Package) : option (list Package) :=
  match pkgs with
  | [] => Some inv
  | p :: rest =>
      match mergeStep pkgMap inv p with
      | None => None
      | Some inv' => mergeLoop pkgMap inv' rest
      end
  end.

Fixpoint enrichLoop (pkgGroups : gmap string (gmap string packageWithIndex))
    (sched : Schedule) (inv : list Package) (c : Client)
    : option (list Package * Client) :=
  match sched with
  | [] => Some (inv, c)
  | (path, order) :: rest =>
      let pkgMap := default ∅ (pkgGroups !! path) in
      match resolveGroup path pkgMap order c with
      | (inl err, c') => enrichLoop pkgGroups rest inv c'
      | (inr pkgs, c') =>
          match mergeLoop pkgMap inv pkgs with
          | None => None
          | Some inv' => enrichLoop pkgGroups rest inv' c'
          end
      end
  end.

(** [Enrich]: the inventory and the client after the pass, and the error
    returned; [None] when the pass panics. *)
Definition Enrich (sched : Schedule) (inv : list Package) (c : Client)
    : option (list Package * Client * option Error) :=
  let pkgGroups := groupLoop 0 inv ∅ in
  match enrichLoop pkgGroups sched inv c with
  | None => None
  | Some (inv', c') => Some (inv', c', None)
  end.

End Network.

(** [NewMavenDepsDevEnricher]: the enricher is its client, which starts
    with an empty cache; the error returned is always nil. *)
Definition NewMavenDepsDevEnricher (depsDevBaseURL : string)
    : RESTClient.DepsDevRESTClient * option Error :=
  (RESTClient.NewMavenDepsDevClient depsDevBaseURL, None).

(** The methods [Name] and [RequiredPlugins]. *)
Definition Name : string := MavenDepsDevEnricherName.
Definition RequiredPlugins : list string := [pomxmlEnhanceableName].

End Maven.

(** ** The shape the two enrichers share

    The two enrichers differ in the client they call, the normalisation of
    a node name, the package built for a node, the plugins that make an
    inventory entry eligible, the update of the plugin list of an entry and
    the error of an empty resolution.  [Engine] is the pass with these as
    parameters; each enricher above is an instance of it
    ([PyPI_Enrich_engine], [Maven_Enrich_engine]), and the properties
    common to both are proved once. *)
Module Engine.
Section Engine.
Context {St : Type}.
Variable get : string → string → St → GraphResult * St.
Variable normName : string → string.
Variable build : string → string → DepsDevNode → Package.
Variable noDeps : Error.
Variable eligible : Package → bool.
Variable tagPlugins : list string → list string.

Definition visitNode (path : string)
    (acc : gmap string bool * list Package) (node : DepsDevNode)
    : gmap string bool * list Package :=
  let '(seen, result) := acc in
  if bool_decide (Relation node = "SELF") then (seen, result)
  else
    let name := normName (vkName (VersionKey node)) in
    let key := name +:+ "@" +:+ vkVersion (VersionKey node) in
    if default false (seen !! key) then (seen, result)
    else (<[key := true]> seen, result ++ [build path name node]).

Definition resolveEntry (path : string)
    (pkgMap : gmap string packageWithIndex)
    (st : gmap string bool * list Package * St) (name : string)
    : gmap string bool * list Package * St :=
  let '(seen, result, c) := st in
  match pkgMap !! name with
  | None => (seen, result, c)
  | Some indexPkg =>
      if bool_decide (Version (pkg indexPkg) = "") then (seen, result, c)
      else
        match get (Name (pkg indexPkg)) (Version (pkg indexPkg)) c with
        | (inl err, c') => (seen, result, c')
        | (inr graph, c') =>
            (foldl (visitNode path) (seen, result) (Nodes graph), c')
        end
  end.

Definition resolveGroup (path : string)
    (pkgMap : gmap string packageWithIndex) (order : list string) (c : St)
    : (Error + list Package) * St :=
  let '(_, result, c') := foldl (resolveEntry path pkgMap) (∅, [], c) order in
  if bool_decide (length result = 0) && bool_decide (0 < size pkgMap)
  then (inl noDeps, c')
  else (inr result, c').

Definition groupStep (pkgGroups : gmap string (gmap string packageWithIndex))
    (i : nat) (p : Package) : gmap string (gmap string packageWithIndex) :=
  if negb (eligible p) then pkgGroups
  else
    match Locations p with
    | [] => pkgGroups
    | path :: _ =>
        <[path := <[Name p := mkPWI p i]> (default ∅ (pkgGroups !! path))]>
          pkgGroups
    end.

Fixpoint groupLoop (i : nat) (pkgs : list Package)
    (pkgGroups : gmap string (gmap string packageWithIndex))
    : gmap string (gmap string packageWithIndex) :=
  match pkgs with
  | [] => pkgGroups
  | p :: rest => groupLoop (S i) rest (groupStep pkgGroups i p)
  end.

Definition mergeStep (pkgMap : gmap string packageWithIndex)
    (inv : list Package) (p : Package) : option (list Package) :=
  match pkgMap !! Name p with
  | Some indexPkg =>
      match inv !! index indexPkg with
      | None => None
      | Some entry =>
          Some (<[index indexPkg :=
                  setPlugins (setVersion entry (Version p))
                    (tagPlugins (Plugins entry))]> inv)
      end
  | None => Some (inv ++ [p])
  end.

Fixpoint mergeLoop (pkgMap : gmap string packageWithIndex)
    (inv : list Package) (pkgs : list Package) : option (list Package) :=
  match pkgs with
  | [] => Some inv
  | p :: rest =>
      match mergeStep pkgMap inv p with
      | None => None
      | Some inv' => mergeLoop pkgMap inv' rest
      end
  end.

Fixpoint enrichLoop (pkgGroups : gmap string (gmap string packageWithIndex))
    (sched : Schedule) (inv : list Package) (c : St)
    : option (list Package * St) :=
  match sched with
  | [] => Some (inv, c)
  | (path, order) :: rest =>
      let pkgMap := default ∅ (pkgGroups !! path) in
      match resolveGroup path pkgMap order c with
      | (inl err, c') => enrichLoop pkgGroups rest inv c'
      | (inr pkgs, c') =>
          match mergeLoop pkgMap inv pkgs with
          | None => None
          | Some inv' => enrichLoop pkgGroups rest inv' c'
          end
      end
  end.

Definition Enrich (sched : Schedule) (inv : list Package) (c : St)
    : option (list Package * St * option Error) :=
  let pkgGroups := groupLoop 0 inv ∅ in
  match enrichLoop pkgGroups sched inv c with
  | None => None
  | Some (inv', c') => Some (inv', c', None)
  end.

(** The nodes of the graphs that the lookups of one [resolveGroup] call
    return, in the order in which the call visits them. *)
Fixpoint fetchedNodes (pkgMap : gmap string packageWithIndex)
    (order : list string) (c : St) : list DepsDevNode :=
  match order with
  | [] => []
  | name :: rest =>
      match pkgMap !! name with
      | None => fetchedNodes pkgMap rest c
      | Some indexPkg =>
          if bool_decide (Version (pkg indexPkg) = "")
          then fetchedNodes pkgMap rest c
          else
            match get (Name (pkg indexPkg)) (Version (pkg indexPkg)) c with
            | (inl err, c') => fetchedNodes pkgMap rest c'
            | (inr graph, c') => Nodes graph ++ fetchedNodes pkgMap rest c'
            end
      end
  end.

(** The dedup key that [visitNode] computes for a node. *)
Definition nodeKey (node : DepsDevNode) : string :=
  normName (vkName (VersionKey node)) +:+ "@" +:+ vkVersion (VersionKey node).

(** The groups that [enrichLoop] resolves without error along a schedule,
    each with the packages [resolveGroup] returned for it. *)
Fixpoint resolutions (pkgGroups : gmap string (gmap string packageWithIndex))
    (sched : Schedule) (c : St) : list (string * list Package) :=
  match sched with
  | [] => []
  | (path, order) :: rest =>
      match resolveGroup path (default ∅ (pkgGroups !! path)) order c with
      | (inl err, c') => resolutions pkgGroups rest c'
      | (inr pkgs, c') => (path, pkgs) :: resolutions pkgGroups rest c'
      end
  end.

(** The packages that the merge loops append along a schedule: of every
    resolved group, the packages whose name is not a key of the group. *)
Definition appended (pkgGroups : gmap string (gmap string packageWithIndex))
    (resolved : list (string * list Package)) : list Package :=
  mjoin ((λ r, filter (λ p, default ∅ (pkgGroups !! r.1) !! Name p = None)
                  r.2) <$> resolved).

(** What the merge loops can make of an inventory entry: they leave it, or
    they overwrite its version and pass its plugin list through
    [tagPlugins], once for each resolved package that has the entry's name;
    such a name is a normalised node name. *)
Inductive updated : Package → Package → Prop :=
| updated_same p : updated p p
| updated_merge p0 p version :
    updated p0 p →
    (∃ nodeName, Name p0 = normName nodeName) →
    updated p0 (setPlugins (setVersion p version) (tagPlugins (Plugins p))).

End Engine.

(** The keys and indices of the groups, without the package snapshots. *)
Definition groupIndex (pkgGroups : gmap string (gmap string packageWithIndex))
    : gmap string (gmap string nat) :=
  (λ pkgMap : gmap string packageWithIndex, index <$> pkgMap) <$> pkgGroups.

End Engine.

(** The parameters of [Engine] for each enricher. *)
Definition pypiPackage (path name : string) (node : DepsDevNode) : Package :=
  mkPackage name (vkVersion (VersionKey node)) purl_TypePyPi [path]
    [PyPIDepsDevEnricherName] None.

Definition pypiEligible (p : Package) : bool :=
  slices_Contains (Plugins p) requirements_Name.

Definition pypiTag (plugins : list string) : list string :=
  plugins ++ [PyPIDepsDevEnricherName].

Definition mavenPackage (path name : string) (node : DepsDevNode) : Package :=
  let '(groupID, artifactID, _) := Cut name ":" in
  mkPackage name (vkVersion (VersionKey node)) purl_TypeMaven [path]
    [MavenDepsDevEnricherName]
    (Some (mkMetadata artifactID groupID
             (bool_decide (Relation node = "INDIRECT")))).

Definition mavenEligible (p : Package) : bool :=
  existsb Maven.isMavenPlugin (Plugins p).

Definition mavenTag (plugins : list string) : list string :=
  if slices_Contains plugins MavenDepsDevEnricherName then plugins
  else plugins ++ [MavenDepsDevEnricherName].

(** The dedup key of a package: its name, "@", its version. *)
Definition dedupKey (p : Package) : string := Name p +:+ "@" +:+ Version p.


(** ** Invariants of the loops *)

(** The node loop of [resolveGroup]: [seen] holds exactly the dedup keys of
    the packages emitted so far, and no key was emitted twice. *)
Definition seen_inv (acc : gmap string bool * list Package) : Prop :=
  (∀ k, default false (acc.1 !! k) = true ↔ k ∈ dedupKey <$> acc.2)
  ∧ NoDup (dedupKey <$> acc.2).

(** The groups of an inventory: every entry of a group is the inventory
    entry at the recorded index, is keyed by its name, is eligible, and has
    the group's path as its first location. *)
Definition group_ok (eligible : Package → bool) (inv : list Package)
    (pkgGroups : gmap string (gmap string packageWithIndex)) : Prop :=
  ∀ path pkgMap name indexPkg,
    pkgGroups !! path = Some pkgMap → pkgMap !! name = Some indexPkg →
    inv !! index indexPkg = Some (pkg indexPkg)
    ∧ Name (pkg indexPkg) = name
    ∧ eligible (pkg indexPkg) = true
    ∧ head (Locations (pkg indexPkg)) = Some path.

(** The graph that an exchange delivers to [GetDependencies]: the decoded
    body of a 200 response, and nothing otherwise. *)
Definition graph_of (T : Transport) (x : Exchange)
    : option DepsDevDependencyGraph :=
  match x with
  | Response StatusCode body =>
      if bool_decide (StatusCode = http_StatusOK) then Decode T body else None
  | _ => None
  end.

(** The packages of a group that [resolveGroup] looks up: those recorded
    with a version that is not empty. *)
Definition pinned (pkgMap : gmap string packageWithIndex) (name : string)
    : bool :=
  match pkgMap !! name with
  | Some indexPkg => negb (bool_decide (Version (pkg indexPkg) = ""))
  | None => false
  end.

(** The slot of the groups that an inventory entry is written to: the
    group of its first location, under its name, when it is eligible. *)
Definition in_slot (eligible : Package → bool) (path name : string)
    (p : Package) : Prop :=
  eligible p = true ∧ head (Locations p) = Some path ∧ Name p = name.

(** The entry that the grouping loop leaves in a slot: the last entry of
    the inventory that is written to the slot. *)
Definition last_in_slot (eligible : Package → bool) (inv : list Package)
    (path name : string) (indexPkg : packageWithIndex) : Prop :=
  inv !! index indexPkg = Some (pkg indexPkg)
  ∧ in_slot eligible path name (pkg indexPkg)
  ∧ ∀ j q, index indexPkg < j → inv !! j = Some q →
           ¬ in_slot eligible path name q.

(** ** Sample inputs

    A deps.dev service with a fixed table of answers, and the inventories
    and groups on which the properties below are evaluated.  The service is
    stateless ([World] is [unit]); [PathEscape] is the identity, which is
    what [url.PathEscape] does on the names and versions used here (letters,
    digits, '.', '-' and ':'); [ToLower] is the byte-wise lower-casing,
    which is what [strings.ToLower] does on the names used here, all of
    them ASCII; the decoder is given by its value on the bodies the service
    sends. *)
Module Sample.

Definition node (name version relation : string) : DepsDevNode :=
  mkNode (mkVersionKey "" name version) false relation [].

Definition tableLookup {V : Type} (table : list (string * V)) (k : string)
    : option V :=
  snd <$> find (λ kv, bool_decide (kv.1 = k)) table.

Definition tableTransport (routes : list (string * string))
    (bodies : list (string * DepsDevDependencyGraph)) : Transport :=
  mkTransport unit (λ s, s) ToLowerASCII
    (λ url w,
       match tableLookup routes url with
       | Some body => (Response 200 body, w)
       | None => (Response 404 "not found", w)
       end)
    (tableLookup bodies).

Definition base : string := "https://api.deps.dev".

Definition requestsGraph : DepsDevDependencyGraph :=
  mkGraph [node "requests" "2.31.0" "SELF";
           node "urllib3" "2.0.0" "DIRECT";
           node "certifi" "2023.7.22" "INDIRECT"] [].

Definition leftGraph : DepsDevDependencyGraph :=
  mkGraph [node "left" "1.0" "SELF"; node "shared" "3.1" "DIRECT"] [].

Definition rightGraph : DepsDevDependencyGraph :=
  mkGraph [node "right" "1.0" "SELF"; node "mid" "0.2" "DIRECT";
           node "shared" "3.1" "INDIRECT"] [].

Definition fooGraph : DepsDevDependencyGraph :=
  mkGraph [node "foo" "1.0" "SELF"; node "flask" "2.0" "DIRECT"] [].

Definition commonsGraph : DepsDevDependencyGraph :=
  mkGraph [node "org.apache:commons" "1.0" "SELF";
           node "org.apache:commons-io" "2.5" "INDIRECT"] [].

Definition net : Transport :=
  tableTransport
    [(base +:+ "/v3/systems/pypi/packages/requests/versions/2.31.0:dependencies",
      "requests-2.31.0");
     (base +:+ "/v3/systems/pypi/packages/left/versions/1.0:dependencies",
      "left-1.0");
     (base +:+ "/v3/systems/pypi/packages/right/versions/1.0:dependencies",
      "right-1.0");
     (base +:+ "/v3/systems/pypi/packages/foo/versions/1.0:dependencies",
      "foo-1.0");
     (base +:+ "/v3/systems/pypi/packages/broken/versions/1.0:dependencies",
      "not json");
     (base +:+ "/v3/systems/maven/packages/org.apache:commons/versions/1.0:dependencies",
      "commons-1.0");
     (base +:+ "/v3/systems/maven/packages/left/versions/1.0:dependencies",
      "left-1.0");
     (base +:+ "/v3/systems/maven/packages/right/versions/1.0:dependencies",
      "right-1.0")]
    [("requests-2.31.0", requestsGraph); ("left-1.0", leftGraph);
     ("right-1.0", rightGraph); ("foo-1.0", fooGraph);
     ("commons-1.0", commonsGraph)].

Definition pypiClient : PyPI.ClientState net :=
  (PyPIClient.NewPyPIDepsDevClient base, tt).

Definition mavenClient : Maven.ClientState net :=
  (RESTClient.NewMavenDepsDevClient base, tt).

Definition requirement (name version : string) : Package :=
  mkPackage name version purl_TypePyPi ["requirements.txt"]
    [requirements_Name] None.

Definition pomDependency (name version : string) : Package :=
  mkPackage name version purl_TypeMaven ["pom.xml"] [pomxmlExtractorName] None.

(** A group of two pinned direct packages, [left] and [right], which both
    depend on [shared] 3.1. *)
Definition twoDirect : gmap string packageWithIndex :=
  <["right" := mkPWI (requirement "right" "1.0") 1]>
    (<["left" := mkPWI (requirement "left" "1.0") 0]> ∅).

Definition twoDirectMaven : gmap string packageWithIndex :=
  <["right" := mkPWI (pomDependency "right" "1.0") 1]>
    (<["left" := mkPWI (pomDependency "left" "1.0") 0]> ∅).

(** A group whose only package is unpinned. *)
Definition unpinned : gmap string packageWithIndex :=
  <["requests" := mkPWI (requirement "requests" "") 0]> ∅.

Definition commonsGroup : gmap string packageWithIndex :=
  <["org.apache:commons" := mkPWI (pomDependency "org.apache:commons" "1.0") 0]>
    ∅.

(** Inventories, as the extractors leave them. *)
Definition requestsOnly : list Package := [requirement "requests" "2.31.0"].

Definition withUrllib3 : list Package :=
  [requirement "requests" "2.31.0"; requirement "urllib3" "1.26.0"].

Definition mixedCase : list Package :=
  [requirement "Flask" "1.0"; requirement "flask" "1.0";
   requirement "foo" "1.0"].

Definition pom : list Package := [pomDependency "org.apache:commons" "1.0"].

(** Two manifests: the service answers for the package of the first with
    a body that is not a dependency graph, and for the package of the
    second with the graph of requests. *)
Definition brokenThenRequests : list Package :=
  [mkPackage "broken" "1.0" purl_TypePyPi ["broken/requirements.txt"]
     [requirements_Name] None;
   requirement "requests" "2.31.0"].

(** A network on which every request fails in transport. *)
Definition offline : Transport :=
  mkTransport unit (λ s, s) ToLowerASCII (λ url w, (TransportError, w))
    (λ body, None).

(** An inventory none of whose entries comes from a requirements or pom
    extractor, and one whose second entry has no location. *)
Definition otherEcosystem : list Package :=
  [mkPackage "left-pad" "1.3.0" "npm" ["package-lock.json"]
     ["javascript/packagelockjson"] None].

Definition noLocation : list Package :=
  [requirement "requests" "2.31.0";
   mkPackage "urllib3" "1.26.0" purl_TypePyPi [] [requirements_Name] None].

End Sample.
(** * Properties *)

Example Cut_maven :
  Cut "org.apache:commons-io" ":" = ("org.apache", "commons-io", true).
Proof. reflexivity. Qed.

Example Cut_absent : Cut "commons" ":" = ("commons", "", false).
Proof. reflexivity. Qed.

Example ToLowerASCII_Flask : ToLowerASCII "Flask" = "flask".
Proof. reflexivity. Qed.


(** ** Each enricher is an instance of [Engine] *)

Lemma PyPI_visitNode_engine T path acc node :
  PyPI.visitNode T path acc node
  = Engine.visitNode (ToLower T) pypiPackage path acc node.
Proof. reflexivity. Qed.

Lemma Maven_visitNode_engine path acc node :
  Maven.visitNode path acc node
  = Engine.visitNode (λ name, name) mavenPackage path acc node.
Proof.
  unfold Maven.visitNode, Engine.visitNode, mavenPackage.
  destruct acc as [seen result].
  repeat case_match; simplify_eq; reflexivity.
Qed.

Lemma foldl_ext_eq {A B} (f g : A → B → A) (l : list B) (a : A) :
  (∀ x y, f x y = g x y) → foldl f a l = foldl g a l.
Proof.
  intros Hfg. revert a. induction l as [|y l IH]; intros a; simpl; [done|].
  rewrite Hfg. apply IH.
Qed.

Lemma PyPI_resolveGroup_engine T path pkgMap order c :
  PyPI.resolveGroup T path pkgMap order c
  = Engine.resolveGroup (PyPIClient.GetDependencies T) (ToLower T) pypiPackage
      ErrNoDependencies path pkgMap order c.
Proof. reflexivity. Qed.

Lemma Maven_resolveEntry_engine T path pkgMap st name :
  Maven.resolveEntry T path pkgMap st name
  = Engine.resolveEntry (RESTClient.GetDependencies T) (λ name, name)
      mavenPackage path pkgMap st name.
Proof.
  unfold Maven.resolveEntry, Engine.resolveEntry.
  destruct st as [[seen result] c].
  repeat case_match; simplify_eq; try reflexivity.
  f_equal. apply foldl_ext_eq. intros. apply Maven_visitNode_engine.
Qed.

Lemma Maven_resolveGroup_engine T path pkgMap order c :
  Maven.resolveGroup T path pkgMap order c
  = Engine.resolveGroup (RESTClient.GetDependencies T) (λ name, name)
      mavenPackage ErrNoMavenDependencies path pkgMap order c.
Proof.
  unfold Maven.resolveGroup, Engine.resolveGroup.
  rewrite (foldl_ext_eq _ _ _ _ (Maven_resolveEntry_engine T path pkgMap)).
  reflexivity.
Qed.

Lemma PyPI_groupLoop_engine pkgs i pkgGroups :
  PyPI.groupLoop i pkgs pkgGroups
  = Engine.groupLoop pypiEligible i pkgs pkgGroups.
Proof. reflexivity. Qed.

Lemma Maven_groupLoop_engine pkgs i pkgGroups :
  Maven.groupLoop i pkgs pkgGroups
  = Engine.groupLoop mavenEligible i pkgs pkgGroups.
Proof. reflexivity. Qed.

Lemma PyPI_mergeLoop_engine pkgMap inv pkgs :
  PyPI.mergeLoop pkgMap inv pkgs = Engine.mergeLoop pypiTag pkgMap inv pkgs.
Proof. reflexivity. Qed.

Lemma Maven_mergeLoop_engine pkgMap inv pkgs :
  Maven.mergeLoop pkgMap inv pkgs = Engine.mergeLoop mavenTag pkgMap inv pkgs.
Proof. reflexivity. Qed.

Lemma PyPI_Enrich_engine T sched inv c :
  PyPI.Enrich T sched inv c
  = Engine.Enrich (PyPIClient.GetDependencies T) (ToLower T) pypiPackage
      ErrNoDependencies pypiEligible pypiTag sched inv c.
Proof. reflexivity. Qed.

Lemma Maven_enrichLoop_engine T pkgGroups sched inv c :
  Maven.enrichLoop T pkgGroups sched inv c
  = Engine.enrichLoop (RESTClient.GetDependencies T) (λ name, name)
      mavenPackage ErrNoMavenDependencies mavenTag pkgGroups sched inv c.
Proof.
  revert inv c. induction sched as [|[path order] rest IH]; intros inv c;
    simpl; [done|].
  rewrite Maven_resolveGroup_engine.
  destruct (Engine.resolveGroup _ _ _ _ _ _ _ _) as [[err|pkgs] c'];
    [apply IH|].
  rewrite Maven_mergeLoop_engine.
  destruct (Engine.mergeLoop _ _ _ _); [apply IH|done].
Qed.

Lemma Maven_Enrich_engine T sched inv c :
  Maven.Enrich T sched inv c
  = Engine.Enrich (RESTClient.GetDependencies T) (λ name, name) mavenPackage
      ErrNoMavenDependencies mavenEligible mavenTag sched inv c.
Proof.
  unfold Maven.Enrich, Engine.Enrich.
  rewrite Maven_enrichLoop_engine, Maven_groupLoop_engine. reflexivity.
Qed.

(** ** Strings *)

Lemma is_upper_lower_ascii c : is_upper (lower_ascii c) = false.
Proof.
  destruct c as [[] [] [] [] [] [] [] []]; vm_compute; reflexivity.
Qed.

Lemma has_upper_ToLowerASCII s : has_upper (ToLowerASCII s) = false.
Proof.
  induction s as [|c s IH]; simpl; [done|].
  by rewrite is_upper_lower_ascii, IH.
Qed.

Lemma substring_whole s : String.substring 0 (String.length s) s = s.
Proof. induction s as [|c s IH]; simpl; [done|]. by rewrite IH. Qed.

Lemma append_String c s t : String c s +:+ t = String c (s +:+ t).
Proof. reflexivity. Qed.

Lemma append_Empty t : EmptyString +:+ t = t.
Proof. reflexivity. Qed.

Lemma Cut_String c s sep :
  Cut (String c s) sep
  = if String.prefix sep (String c s)
    then (EmptyString,
          String.substring (String.length sep)
            (String.length (String c s) - String.length sep) (String c s),
          true)
    else let '(before, after, found) := Cut s sep in
         if found then (String c before, after, true)
         else (String c s, EmptyString, false).
Proof. reflexivity. Qed.

Lemma prefix_colon c s : c ≠ ":"%char → String.prefix ":" (String c s) = false.
Proof.
  intros Hc. cbn [String.prefix].
  destruct (Ascii.ascii_dec ":" c) as [Heq|_]; [by subst|done].
Qed.

(** [Cut] on ":" splits at the first colon. *)
Lemma Cut_first_colon g a :
  occurs ":" g = false → Cut (g +:+ ":" +:+ a) ":" = (g, a, true).
Proof.
  induction g as [|c g IH]; intros Hocc.
  - rewrite append_Empty, append_String, append_Empty. simpl.
    replace (String.prefix "" a) with true by (by destruct a).
    by rewrite Nat.sub_0_r, substring_whole.
  - simpl in Hocc. apply orb_false_iff in Hocc as [Hc Hocc].
    apply bool_decide_eq_false in Hc.
    rewrite append_String, Cut_String, prefix_colon by done.
    by rewrite IH.
Qed.

Lemma Cut_no_colon name :
  occurs ":" name = false → Cut name ":" = (name, "", false).
Proof.
  induction name as [|c name IH]; intros Hocc; [done|].
  simpl in Hocc. apply orb_false_iff in Hocc as [Hc Hocc].
  apply bool_decide_eq_false in Hc.
  rewrite Cut_String, prefix_colon by done.
  by rewrite IH.
Qed.

(** ** The node loop of [resolveGroup] *)
Section VisitFacts.
Context (normName : string → string).
Context (build : string → string → DepsDevNode → Package).
Hypothesis build_Name : ∀ path name node, Name (build path name node) = name.
Hypothesis build_Version : ∀ path name node,
  Version (build path name node) = vkVersion (VersionKey node).

Let visit := Engine.visitNode normName build.
Let key := Engine.nodeKey normName.

Lemma seen_inv_empty : seen_inv (∅, []).
Proof.
  split; simpl; [|constructor].
  intros k. rewrite lookup_empty. simpl. split; [done|].
  intros H. by apply elem_of_nil in H.
Qed.

Lemma dedupKey_build path node :
  dedupKey (build path (normName (vkName (VersionKey node))) node) = key node.
Proof.
  unfold dedupKey, key, Engine.nodeKey.
  by rewrite build_Name, build_Version.
Qed.

(** One step of the loop, by cases. *)
Lemma visit_cases path seen result node :
  (visit path (seen, result) node = (seen, result)
   ∧ (Relation node = "SELF" ∨ default false (seen !! key node) = true))
  ∨ (visit path (seen, result) node
     = (<[key node := true]> seen,
        result ++ [build path (normName (vkName (VersionKey node))) node])
     ∧ Relation node ≠ "SELF" ∧ default false (seen !! key node) = false).
Proof.
  unfold visit, Engine.visitNode, key, Engine.nodeKey.
  case_bool_decide as Hself; [left; split; [done|by left]|].
  destruct (default false (seen !! _)) eqn:Hseen;
    [left; split; [done|by right]|right; done].
Qed.

Lemma visit_inv path acc node : seen_inv acc → seen_inv (visit path acc node).
Proof.
  destruct acc as [seen result]. intros [Hseen Hnd].
  destruct (visit_cases path seen result node) as [[-> _]|(-> & _ & Hnew)];
    [by split|].
  simpl in *. split; simpl.
  - intros k. rewrite fmap_app, elem_of_app. simpl.
    rewrite dedupKey_build, list_elem_of_singleton.
    destruct (decide (k = key node)) as [->|Hne].
    + rewrite lookup_insert_eq. simpl. split; [by right|done].
    + rewrite lookup_insert_ne by done. rewrite Hseen.
      split; [by left|by intros [?|?]].
  - rewrite fmap_app. simpl. rewrite dedupKey_build.
    apply NoDup_app. split; [done|]. split; [|apply NoDup_singleton].
    intros k Hk. rewrite list_elem_of_singleton. intros ->.
    apply Hseen in Hk. simpl in Hk. congruence.
Qed.

Lemma visit_fold_inv path nodes acc :
  seen_inv acc → seen_inv (foldl (visit path) acc nodes).
Proof.
  revert acc. induction nodes as [|node nodes IH]; intros acc Hacc; [done|].
  simpl. apply IH. by apply visit_inv.
Qed.

(** The loop only appends. *)
Lemma visit_fold_prefix path nodes acc :
  acc.2 `prefix_of` (foldl (visit path) acc nodes).2.
Proof.
  revert acc. induction nodes as [|node nodes IH]; intros acc; [done|].
  simpl. etrans; [|apply IH]. destruct acc as [seen result].
  destruct (visit_cases path seen result node) as [[-> _]|(-> & _)]; simpl;
    [done|by apply prefix_app_r].
Qed.

(** Every package the loop emits is built from a node that is not SELF. *)
Lemma visit_fold_origin path nodes acc p :
  p ∈ (foldl (visit path) acc nodes).2 →
  p ∈ acc.2
  ∨ ∃ node, node ∈ nodes ∧ Relation node ≠ "SELF"
            ∧ p = build path (normName (vkName (VersionKey node))) node.
Proof.
  revert acc. induction nodes as [|node nodes IH]; intros acc Hp; [by left|].
  simpl in Hp. apply IH in Hp as [Hp|(n & Hn & Hrel & ->)].
  - destruct acc as [seen result].
    destruct (visit_cases path seen result node)
      as [[Heq _]|(Heq & Hrel & _)]; rewrite Heq in Hp; simpl in Hp;
      [by left|].
    apply elem_of_app in Hp as [Hp|Hp]; [by left|].
    apply list_elem_of_singleton in Hp as ->.
    right. exists node. split; [left|done].
  - right. exists n. split; [by right|done].
Qed.

(** Every node that is not SELF has its key among the emitted packages. *)
Lemma visit_fold_covers path nodes acc node :
  seen_inv acc → node ∈ nodes → Relation node ≠ "SELF" →
  key node ∈ dedupKey <$> (foldl (visit path) acc nodes).2.
Proof.
  revert acc. induction nodes as [|n nodes IH]; intros acc Hacc Hin Hrel.
  { by apply elem_of_nil in Hin. }
  simpl. apply elem_of_cons in Hin as [->|Hin].
  - destruct (visit_fold_prefix path nodes (visit path acc n)) as [k Hk].
    rewrite Hk, fmap_app, elem_of_app. left.
    destruct acc as [seen result].
    destruct (visit_cases path seen result n)
      as [[Heq [Hself|Hs]]|(Heq & _ & _)]; [done| |].
    + rewrite Heq. simpl. by apply Hacc.
    + rewrite Heq. simpl. rewrite fmap_app, elem_of_app. right.
      simpl. rewrite dedupKey_build. left.
  - apply IH; [by apply visit_inv|done|done].
Qed.

End VisitFacts.

(** ** [resolveGroup] *)

Lemma filter_key_absent {A} (f : A → string) (l : list A) (k : string) :
  k ∉ f <$> l → filter (λ x, f x = k) l = [].
Proof.
  induction l as [|x l IH]; simpl; intros Hk; [done|].
  apply not_elem_of_cons in Hk as [Hne Hk].
  rewrite filter_cons. destruct (decide (f x = k)); [congruence|by apply IH].
Qed.

Lemma filter_key_once {A} (f : A → string) (l : list A) (k : string) :
  NoDup (f <$> l) → k ∈ f <$> l →
  length (filter (λ x, f x = k) l) = 1.
Proof.
  induction l as [|x l IH]; simpl; intros Hnd Hin.
  { by apply elem_of_nil in Hin. }
  apply NoDup_cons in Hnd as [Hx Hnd].
  rewrite filter_cons. destruct (decide (f x = k)) as [<-|Hne].
  - simpl. by rewrite filter_key_absent.
  - apply IH; [done|]. by apply elem_of_cons in Hin as [?|?].
Qed.

Section ResolveFacts.
Context {St : Type}.
Context (get : string → string → St → GraphResult * St).
Context (normName : string → string).
Context (build : string → string → DepsDevNode → Package).
Context (noDeps : Error).
Hypothesis build_Name : ∀ path name node, Name (build path name node) = name.
Hypothesis build_Version : ∀ path name node,
  Version (build path name node) = vkVersion (VersionKey node).

Let visit := Engine.visitNode normName build.
Let key := Engine.nodeKey normName.
Let entry := Engine.resolveEntry get normName build.
Let resolve := Engine.resolveGroup get normName build noDeps.
Let fetched := Engine.fetchedNodes get.

(** The loop over the group is the node loop over all fetched nodes. *)
Lemma resolve_fold_nodes path pkgMap order seen result c :
  (foldl (entry path pkgMap) (seen, result, c) order).1
  = foldl (visit path) (seen, result) (fetched pkgMap order c).
Proof.
  revert seen result c.
  induction order as [|name order IH]; intros seen result c; [done|].
  simpl. destruct (pkgMap !! name) as [indexPkg|]; [|apply IH].
  case_bool_decide; [apply IH|].
  destruct (get _ _ c) as [[err|graph] c']; [apply IH|].
  rewrite foldl_app.
  destruct (foldl _ (seen, result) (Nodes graph)) as [seen' result'].
  apply IH.
Qed.

Lemma resolveGroup_result path pkgMap order c pkgs c' :
  resolve path pkgMap order c = (inr pkgs, c') →
  pkgs = (foldl (visit path) (∅, []) (fetched pkgMap order c)).2.
Proof.
  unfold resolve, Engine.resolveGroup. intros Hres.
  pose proof (resolve_fold_nodes path pkgMap order ∅ [] c) as Hfold.
  destruct (foldl (entry path pkgMap) _ order) as [[seen result] c0]
    eqn:Hrun.
  fold entry in Hres. rewrite Hrun in Hres. simpl in Hfold.
  destruct (_ && _); simplify_eq. by rewrite <- Hfold.
Qed.

(** No two emitted packages share a dedup key. *)
Lemma resolveGroup_NoDup path pkgMap order c pkgs c' :
  resolve path pkgMap order c = (inr pkgs, c') → NoDup (dedupKey <$> pkgs).
Proof.
  intros ->%resolveGroup_result.
  apply (visit_fold_inv normName build build_Name build_Version).
  apply seen_inv_empty.
Qed.

(** Every emitted package is built from a fetched node that is not SELF. *)
Lemma resolveGroup_origin path pkgMap order c pkgs c' p :
  resolve path pkgMap order c = (inr pkgs, c') → p ∈ pkgs →
  ∃ node, node ∈ fetched pkgMap order c ∧ Relation node ≠ "SELF"
          ∧ p = build path (normName (vkName (VersionKey node))) node.
Proof.
  intros ->%resolveGroup_result Hp.
  apply visit_fold_origin in Hp as [Hp|Hp]; [|done].
  by apply elem_of_nil in Hp.
Qed.

(** Every fetched node that is not SELF has its key emitted exactly once. *)
Lemma resolveGroup_once path pkgMap order c pkgs c' node :
  resolve path pkgMap order c = (inr pkgs, c') →
  node ∈ fetched pkgMap order c → Relation node ≠ "SELF" →
  length (filter (λ p, dedupKey p = key node) pkgs) = 1.
Proof.
  intros Hres Hin Hrel. apply filter_key_once.
  { by eapply resolveGroup_NoDup. }
  apply resolveGroup_result in Hres as ->.
  apply (visit_fold_covers normName build build_Name build_Version);
    [apply seen_inv_empty|done|done].
Qed.

(** A fetched node that is not SELF is never lost to the error exit. *)
Lemma resolveGroup_error_no_nodes path pkgMap order c err c' node :
  resolve path pkgMap order c = (inl err, c') →
  node ∈ fetched pkgMap order c → Relation node = "SELF".
Proof.
  unfold resolve, Engine.resolveGroup. intros Hres Hin.
  pose proof (resolve_fold_nodes path pkgMap order ∅ [] c) as Hfold.
  destruct (foldl (Engine.resolveEntry _ _ _ path pkgMap) _ order)
    as [[seen result] c0] eqn:Hrun.
  fold entry in Hrun. rewrite Hrun in Hfold. simpl in Hfold.
  destruct (decide (Relation node = "SELF")) as [|Hrel]; [done|].
  pose proof (visit_fold_covers normName build build_Name build_Version
                path _ (∅, []) node seen_inv_empty Hin Hrel) as Hcov.
  fold fetched visit in Hcov. rewrite <- Hfold in Hcov. simpl in Hcov.
  case_bool_decide as Hlen; simpl in Hres; [|simplify_eq].
  apply length_zero_iff_nil in Hlen. subst result.
  by apply elem_of_nil in Hcov.
Qed.

(** A group without a pinned package: no lookup, nothing emitted. *)
Lemma resolve_fold_unpinned path pkgMap order st :
  (∀ name indexPkg,
     pkgMap !! name = Some indexPkg → Version (pkg indexPkg) = "") →
  foldl (entry path pkgMap) st order = st.
Proof.
  intros Hun. induction order as [|name order IH]; [done|].
  simpl. replace (entry path pkgMap st name) with st; [apply IH|].
  unfold entry, Engine.resolveEntry. destruct st as [[seen result] c].
  destruct (pkgMap !! name) as [indexPkg|] eqn:Hlook; [|done].
  by rewrite bool_decide_eq_true_2 by eauto.
Qed.

Lemma resolveGroup_unpinned path pkgMap order c :
  (∀ name indexPkg,
     pkgMap !! name = Some indexPkg → Version (pkg indexPkg) = "") →
  resolve path pkgMap order c
  = (if bool_decide (0 < size pkgMap) then inl noDeps else inr [], c).
Proof.
  intros Hun. unfold resolve, Engine.resolveGroup.
  fold entry. rewrite resolve_fold_unpinned by done.
  simpl. by case_bool_decide.
Qed.

End ResolveFacts.

(** ** Grouping and merging *)
Section EnrichFacts.
Context {St : Type}.
Context (get : string → string → St → GraphResult * St).
Context (normName : string → string).
Context (build : string → string → DepsDevNode → Package).
Context (noDeps : Error).
Context (eligible : Package → bool).
Context (tagPlugins : list string → list string).
Hypothesis build_Name : ∀ path name node, Name (build path name node) = name.
Hypothesis build_Version : ∀ path name node,
  Version (build path name node) = vkVersion (VersionKey node).

Let upd_rel := Engine.updated normName tagPlugins.

Lemma groupStep_ok inv pkgGroups i p :
  group_ok eligible inv pkgGroups → inv !! i = Some p →
  group_ok eligible inv (Engine.groupStep eligible pkgGroups i p).
Proof.
  intros Hok Hi. unfold Engine.groupStep.
  destruct (eligible p) eqn:Hel; simpl; [|done].
  destruct (Locations p) as [|path locs] eqn:Hloc; [done|].
  intros path' pkgMap name indexPkg Hg Hm.
  apply lookup_insert_Some in Hg as [[<- <-]|[Hne Hg]]; [|by eapply Hok].
  apply lookup_insert_Some in Hm as [[<- <-]|[Hne Hm]].
  - simpl. by rewrite Hloc.
  - destruct (pkgGroups !! path) as [old|] eqn:Hold; simpl in Hm.
    + by eapply Hok.
    + by rewrite lookup_empty in Hm.
Qed.

Lemma groupLoop_ok inv pkgs i pkgGroups :
  group_ok eligible inv pkgGroups →
  (∀ j p, pkgs !! j = Some p → inv !! (i + j) = Some p) →
  group_ok eligible inv (Engine.groupLoop eligible i pkgs pkgGroups).
Proof.
  revert i pkgGroups.
  induction pkgs as [|p pkgs IH]; intros i pkgGroups Hok Hat; [done|].
  simpl. apply IH.
  - apply groupStep_ok; [done|]. specialize (Hat 0 p eq_refl).
    by rewrite Nat.add_0_r in Hat.
  - intros j q Hj. specialize (Hat (S j) q Hj).
    by replace (S i + j) with (i + S j) by lia.
Qed.

Lemma groups_ok inv :
  group_ok eligible inv (Engine.groupLoop eligible 0 inv ∅).
Proof.
  apply groupLoop_ok; [|done].
  intros path pkgMap name indexPkg H. by rewrite lookup_empty in H.
Qed.

Lemma group_ok_default inv pkgGroups path name indexPkg :
  group_ok eligible inv pkgGroups →
  default ∅ (pkgGroups !! path) !! name = Some indexPkg →
  inv !! index indexPkg = Some (pkg indexPkg) ∧ Name (pkg indexPkg) = name
  ∧ head (Locations (pkg indexPkg)) = Some path.
Proof.
  intros Hok Hm. destruct (pkgGroups !! path) as [pkgMap|] eqn:Hg;
    simpl in Hm; [|by rewrite lookup_empty in Hm].
  by destruct (Hok _ _ _ _ Hg Hm) as (? & ? & _ & ?).
Qed.

(** One merge step on an inventory [upd ++ extra], where [upd] holds the
    entries of the grouped inventory [inv0] as updated so far. *)
Lemma mergeStep_effect inv0 pkgGroups path upd extra p :
  group_ok eligible inv0 pkgGroups →
  Forall2 upd_rel inv0 upd →
  (∃ nodeName, Name p = normName nodeName) →
  ∃ upd',
    Engine.mergeStep tagPlugins (default ∅ (pkgGroups !! path))
      (upd ++ extra) p
    = Some (upd' ++ extra
              ++ filter (λ p, default ∅ (pkgGroups !! path) !! Name p = None)
                   [p])
    ∧ Forall2 upd_rel inv0 upd'.
Proof.
  intros Hok Hupd Hname. unfold Engine.mergeStep.
  rewrite filter_cons, filter_nil.
  destruct (default ∅ (pkgGroups !! path) !! Name p) as [indexPkg|] eqn:Hm.
  - destruct (group_ok_default _ _ _ _ _ Hok Hm) as (Hat & Hkey & _).
    destruct (Forall2_lookup_l _ _ _ _ _ Hupd Hat) as (entry & Hentry & Hrel).
    rewrite (lookup_app_l_Some _ _ _ _ Hentry).
    eexists. split.
    + rewrite decide_False by done. rewrite app_nil_r.
      rewrite insert_app_l by (by eapply lookup_lt_Some). reflexivity.
    + rewrite <- (list_insert_id inv0 (index indexPkg) (pkg indexPkg))
        by done.
      apply Forall2_insert; [done|].
      apply Engine.updated_merge; [done|]. by rewrite Hkey.
  - exists upd. split; [|done].
    rewrite decide_True by done. by rewrite <- app_assoc.
Qed.

Lemma mergeLoop_effect inv0 pkgGroups path pkgs upd extra :
  group_ok eligible inv0 pkgGroups →
  Forall2 upd_rel inv0 upd →
  Forall (λ p, ∃ nodeName, Name p = normName nodeName) pkgs →
  ∃ upd',
    Engine.mergeLoop tagPlugins (default ∅ (pkgGroups !! path))
      (upd ++ extra) pkgs
    = Some (upd' ++ extra
              ++ filter (λ p, default ∅ (pkgGroups !! path) !! Name p = None)
                   pkgs)
    ∧ Forall2 upd_rel inv0 upd'.
Proof.
  intros Hok. revert upd extra.
  induction pkgs as [|p pkgs IH]; intros upd extra Hupd Hnames.
  { exists upd. by rewrite filter_nil, app_nil_r. }
  apply Forall_cons in Hnames as [Hp Hnames]. simpl.
  destruct (mergeStep_effect inv0 pkgGroups path upd extra p Hok Hupd Hp)
    as (upd1 & -> & Hupd1).
  destruct (IH upd1 (extra ++ filter
                (λ p, default ∅ (pkgGroups !! path) !! Name p = None) [p])
              Hupd1 Hnames) as (upd2 & -> & Hupd2).
  exists upd2. split; [|done].
  rewrite <- !app_assoc. do 3 f_equal.
  rewrite (filter_cons _ p pkgs), filter_cons, filter_nil.
  by destruct (decide _).
Qed.

(** The merge of one group writes to no entry of another group.  So when a
    group is resolved, the inventory entries of the group are still the
    packages recorded for them when the groups were built: reading a
    package through the pointer of a [packageWithIndex], as the source
    does, and reading the recorded value give the same name and version. *)
Lemma mergeLoop_keeps_other_groups inv0 pkgGroups path pkgs cur cur'
    path2 pkgMap2 name indexPkg2 :
  group_ok eligible inv0 pkgGroups → length inv0 ≤ length cur →
  Engine.mergeLoop tagPlugins (default ∅ (pkgGroups !! path)) cur pkgs
  = Some cur' →
  path2 ≠ path →
  pkgGroups !! path2 = Some pkgMap2 → pkgMap2 !! name = Some indexPkg2 →
  cur' !! index indexPkg2 = cur !! index indexPkg2.
Proof.
  intros Hok Hlen Hrun Hne Hg2 Hm2.
  destruct (Hok _ _ _ _ Hg2 Hm2) as (Hat2 & _ & _ & Hhead2).
  pose proof (lookup_lt_Some _ _ _ Hat2) as Hlt2.
  revert cur Hlen Hrun.
  induction pkgs as [|p pkgs IH]; intros cur Hlen Hrun; simpl in Hrun.
  { by simplify_eq. }
  unfold Engine.mergeStep in Hrun.
  destruct (default ∅ (pkgGroups !! path) !! Name p) as [indexPkg|] eqn:Hm.
  - destruct (group_ok_default _ _ _ _ _ Hok Hm) as (Hat & _ & Hhead).
    destruct (cur !! index indexPkg) as [entry|]; [|done].
    rewrite (IH (<[index indexPkg := _]> cur)
               ltac:(by rewrite length_insert) Hrun).
    apply list_lookup_insert_ne. intros Heq. rewrite Heq in Hat.
    assert (pkg indexPkg2 = pkg indexPkg) as Hpkg by congruence.
    rewrite Hpkg in Hhead2. congruence.
  - rewrite (IH (cur ++ [p]) ltac:(rewrite length_app; lia) Hrun).
    apply lookup_app_l. lia.
Qed.

(** The whole pass. *)
Lemma enrichLoop_effect inv0 pkgGroups sched upd extra c :
  group_ok eligible inv0 pkgGroups →
  Forall2 upd_rel inv0 upd →
  ∃ upd' c',
    Engine.enrichLoop get normName build noDeps tagPlugins pkgGroups sched
      (upd ++ extra) c
    = Some (upd' ++ extra
              ++ Engine.appended pkgGroups
                   (Engine.resolutions get normName build noDeps pkgGroups
                      sched c),
            c')
    ∧ Forall2 upd_rel inv0 upd'.
Proof.
  intros Hok. revert upd extra c.
  induction sched as [|[path order] sched IH]; intros upd extra c Hupd.
  { exists upd, c. by rewrite app_nil_r. }
  simpl.
  destruct (Engine.resolveGroup get normName build noDeps path
              (default ∅ (pkgGroups !! path)) order c)
    as [[err|pkgs] c1] eqn:Hres.
  { apply IH, Hupd. }
  assert (Forall (λ p, ∃ nodeName, Name p = normName nodeName) pkgs)
    as Hnames.
  { apply Forall_forall. intros p Hp.
    destruct (resolveGroup_origin get normName build noDeps
                path _ order c pkgs c1 p Hres Hp) as (node & _ & _ & ->).
    eexists. apply build_Name. }
  destruct (mergeLoop_effect inv0 pkgGroups path pkgs upd extra Hok Hupd
              Hnames) as (upd1 & -> & Hupd1).
  destruct (IH upd1 (extra ++ filter
                (λ p, default ∅ (pkgGroups !! path) !! Name p = None) pkgs)
              c1 Hupd1) as (upd2 & c2 & -> & Hupd2).
  exists upd2, c2. split; [|done].
  unfold Engine.appended. simpl. by rewrite <- !app_assoc.
Qed.

Lemma Forall2_updated_same inv : Forall2 upd_rel inv inv.
Proof.
  apply Forall2_same_length_lookup. split; [done|].
  intros i x y Hx Hy. simplify_eq. constructor.
Qed.

Lemma Enrich_effect sched inv c :
  ∃ upd c',
    Engine.Enrich get normName build noDeps eligible tagPlugins sched inv c
    = Some (upd ++ Engine.appended (Engine.groupLoop eligible 0 inv ∅)
                     (Engine.resolutions get normName build noDeps
                        (Engine.groupLoop eligible 0 inv ∅) sched c),
            c', None)
    ∧ Forall2 upd_rel inv upd.
Proof.
  unfold Engine.Enrich.
  destruct (enrichLoop_effect inv (Engine.groupLoop eligible 0 inv ∅) sched
              inv [] c (groups_ok inv) (Forall2_updated_same inv))
    as (upd & c' & Hrun & Hupd).
  rewrite app_nil_r in Hrun. simpl in *. rewrite Hrun.
  by exists upd, c'.
Qed.

End EnrichFacts.

(** ** What a pass keeps and what it appends *)
Section PassFacts.
Context {St : Type}.
Context (get : string → string → St → GraphResult * St).
Context (normName : string → string).
Context (build : string → string → DepsDevNode → Package).
Context (noDeps : Error).
Context (eligible : Package → bool).
Context (tagPlugins : list string → list string).
Hypothesis build_Name : ∀ path name node, Name (build path name node) = name.
Hypothesis build_Version : ∀ path name node,
  Version (build path name node) = vkVersion (VersionKey node).
Hypothesis eligible_tag : ∀ p version,
  eligible (setPlugins (setVersion p version) (tagPlugins (Plugins p)))
  = eligible p.

Lemma updated_keeps p0 p :
  Engine.updated normName tagPlugins p0 p →
  Name p = Name p0 ∧ Locations p = Locations p0 ∧ eligible p = eligible p0.
Proof.
  induction 1 as [p|p0 p version _ (HN & HL & HE) _]; [done|].
  simpl. by rewrite eligible_tag.
Qed.

(** Every resolved group comes from a [resolveGroup] call on that group. *)
Lemma resolutions_resolved pkgGroups sched c path pkgs :
  (path, pkgs) ∈ Engine.resolutions get normName build noDeps pkgGroups
                   sched c →
  ∃ order c0 c1,
    Engine.resolveGroup get normName build noDeps path
      (default ∅ (pkgGroups !! path)) order c0 = (inr pkgs, c1).
Proof.
  revert c. induction sched as [|[path' order] sched IH]; intros c Hin.
  { by apply elem_of_nil in Hin. }
  simpl in Hin.
  destruct (Engine.resolveGroup get normName build noDeps path'
              (default ∅ (pkgGroups !! path')) order c)
    as [[err|pkgs'] c1] eqn:Hres; [by eapply IH|].
  apply elem_of_cons in Hin as [Heq|Hin]; [|by eapply IH].
  simplify_eq. by exists order, c, c1.
Qed.

Lemma elem_of_appended pkgGroups resolved p :
  p ∈ Engine.appended pkgGroups resolved ↔
  ∃ path pkgs, (path, pkgs) ∈ resolved ∧ p ∈ pkgs
               ∧ default ∅ (pkgGroups !! path) !! Name p = None.
Proof.
  unfold Engine.appended. rewrite list_elem_of_join. split.
  - intros (l & Hp & Hl). apply list_elem_of_fmap in Hl as ([path pkgs] & -> & Hr).
    apply list_elem_of_filter in Hp as [Hnone Hp]. by exists path, pkgs.
  - intros (path & pkgs & Hr & Hp & Hnone).
    exists (filter (λ p, default ∅ (pkgGroups !! path) !! Name p = None)
              pkgs).
    split.
    + apply list_elem_of_filter. split; [exact Hnone|exact Hp].
    + apply list_elem_of_fmap. by exists (path, pkgs).
Qed.

(** Every appended package was built from a node that is not SELF. *)
Lemma appended_built pkgGroups sched c p :
  p ∈ Engine.appended pkgGroups
        (Engine.resolutions get normName build noDeps pkgGroups sched c) →
  ∃ path node,
    Relation node ≠ "SELF"
    ∧ p = build path (normName (vkName (VersionKey node))) node.
Proof.
  intros (path & pkgs & Hr & Hp & _)%elem_of_appended.
  apply resolutions_resolved in Hr as (order & c0 & c1 & Hres).
  destruct (resolveGroup_origin get normName build noDeps path _ order c0
              pkgs c1 p Hres Hp) as (node & _ & Hrel & ->).
  by exists path, node.
Qed.

(** The keys and indices of the groups depend on the name, the locations
    and the eligibility of the entries only. *)
Lemma groupIndex_default pkgGroups pkgGroups' path :
  Engine.groupIndex pkgGroups = Engine.groupIndex pkgGroups' →
  index <$> default ∅ (pkgGroups !! path)
  = index <$> default ∅ (pkgGroups' !! path).
Proof.
  intros Heq. apply (f_equal (λ m, m !! path)) in Heq.
  unfold Engine.groupIndex in Heq. rewrite !lookup_fmap in Heq.
  destruct (pkgGroups !! path), (pkgGroups' !! path); simpl in *;
    by simplify_eq.
Qed.

Lemma groupIndex_step pkgGroups pkgGroups' i p p' :
  Engine.groupIndex pkgGroups = Engine.groupIndex pkgGroups' →
  Name p' = Name p → Locations p' = Locations p → eligible p' = eligible p →
  Engine.groupIndex (Engine.groupStep eligible pkgGroups i p)
  = Engine.groupIndex (Engine.groupStep eligible pkgGroups' i p').
Proof.
  intros Heq HN HL HE. unfold Engine.groupStep. rewrite HE, HL, HN.
  destruct (eligible p); simpl; [|done].
  destruct (Locations p) as [|path locs]; [done|].
  unfold Engine.groupIndex. rewrite !fmap_insert.
  fold (Engine.groupIndex pkgGroups). fold (Engine.groupIndex pkgGroups').
  by rewrite Heq, (groupIndex_default _ _ path Heq).
Qed.

Lemma groupIndex_loop l l' i pkgGroups pkgGroups' :
  Forall2 (λ p p', Name p' = Name p ∧ Locations p' = Locations p
                   ∧ eligible p' = eligible p) l l' →
  Engine.groupIndex pkgGroups = Engine.groupIndex pkgGroups' →
  Engine.groupIndex (Engine.groupLoop eligible i l pkgGroups)
  = Engine.groupIndex (Engine.groupLoop eligible i l' pkgGroups').
Proof.
  intros Hall. revert i pkgGroups pkgGroups'.
  induction Hall as [|p p' l l' (HN & HL & HE) _ IH];
    intros i pkgGroups pkgGroups' Heq; [done|].
  simpl. apply IH. by apply groupIndex_step.
Qed.

Lemma groupLoop_app l k i pkgGroups :
  Engine.groupLoop eligible i (l ++ k) pkgGroups
  = Engine.groupLoop eligible (i + length l) k
      (Engine.groupLoop eligible i l pkgGroups).
Proof.
  revert i pkgGroups. induction l as [|p l IH]; intros i pkgGroups; simpl.
  - by rewrite Nat.add_0_r.
  - rewrite IH. f_equal. lia.
Qed.

Lemma groupLoop_ineligible k i pkgGroups :
  Forall (λ p, eligible p = false) k →
  Engine.groupLoop eligible i k pkgGroups = pkgGroups.
Proof.
  intros Hall. revert i. induction Hall as [|p k Hp _ IH]; intros i; [done|].
  simpl. unfold Engine.groupStep at 1. rewrite Hp. simpl. apply IH.
Qed.

(** A pass, summed up: the entries of the input stay where they are, with
    their name, locations and eligibility; the resolved packages that are
    not in their group follow; the groups of the result are the groups of
    the input. *)
Lemma Enrich_pass sched inv c inv' c' err :
  (∀ path name node, eligible (build path name node) = false) →
  Engine.Enrich get normName build noDeps eligible tagPlugins sched inv c
  = Some (inv', c', err) →
  err = None
  ∧ Forall2 (Engine.updated normName tagPlugins) inv (take (length inv) inv')
  ∧ drop (length inv) inv'
    = Engine.appended (Engine.groupLoop eligible 0 inv ∅)
        (Engine.resolutions get normName build noDeps
           (Engine.groupLoop eligible 0 inv ∅) sched c)
  ∧ Engine.groupIndex (Engine.groupLoop eligible 0 inv' ∅)
    = Engine.groupIndex (Engine.groupLoop eligible 0 inv ∅).
Proof.
  intros Hbuild Hrun.
  destruct (Enrich_effect get normName build noDeps eligible tagPlugins
              build_Name sched inv c)
    as (upd & c1 & Heq & Hupd).
  rewrite Heq in Hrun. simplify_eq.
  pose proof (Forall2_length _ _ _ Hupd) as Hlen.
  rewrite Hlen, take_app_length, drop_app_length.
  split_and!; [done..|].
  rewrite groupLoop_app, groupLoop_ineligible.
  - symmetry. apply groupIndex_loop; [|done].
    eapply Forall2_impl; [exact Hupd|]. intros p p'. apply updated_keeps.
  - apply Forall_forall. intros p Hp.
    apply appended_built in Hp as (path & node & _ & ->). apply Hbuild.
Qed.

End PassFacts.

(** ** The Resolver of each enricher *)

Lemma pypiPackage_Name path name node : Name (pypiPackage path name node) = name.
Proof. reflexivity. Qed.

Lemma pypiPackage_Version path name node :
  Version (pypiPackage path name node) = vkVersion (VersionKey node).
Proof. reflexivity. Qed.

Lemma mavenPackage_Name path name node :
  Name (mavenPackage path name node) = name.
Proof. unfold mavenPackage. by destruct (Cut name ":") as [[? ?] ?]. Qed.

Lemma mavenPackage_Version path name node :
  Version (mavenPackage path name node) = vkVersion (VersionKey node).
Proof. unfold mavenPackage. by destruct (Cut name ":") as [[? ?] ?]. Qed.

Ltac to_engine :=
  rewrite ?PyPI_resolveGroup_engine, ?Maven_resolveGroup_engine in *.

Ltac in_list := apply list_elem_of_In; vm_compute;
  repeat first [left; reflexivity | right].

(** C4: within one call of resolveGroup, no two emitted packages share the
    dedup key name@version, and every fetched node that is not SELF has its
    key emitted exactly once, whichever direct packages of the group reach
    it: the dedup scope is the whole group.  When the call fails instead,
    no fetched node was other than SELF, so no package is lost. *)
Theorem resolveGroup_dedup (T : Transport) (path : string)
    (pkgMap : gmap string packageWithIndex) (order : list string) :
  (∀ c pkgs c',
     PyPI.resolveGroup T path pkgMap order c = (inr pkgs, c') →
     NoDup (dedupKey <$> pkgs)
     ∧ ∀ node,
         node ∈ Engine.fetchedNodes (PyPIClient.GetDependencies T)
                  pkgMap order c →
         Relation node ≠ "SELF" →
         length (filter (λ p, dedupKey p
                              = Engine.nodeKey (ToLower T) node) pkgs)
         = 1)
  ∧ (∀ c err c',
       PyPI.resolveGroup T path pkgMap order c = (inl err, c') →
       ∀ node,
         node ∈ Engine.fetchedNodes (PyPIClient.GetDependencies T)
                  pkgMap order c →
         Relation node = "SELF")
  ∧ (∀ c pkgs c',
       Maven.resolveGroup T path pkgMap order c = (inr pkgs, c') →
       NoDup (dedupKey <$> pkgs)
       ∧ ∀ node,
           node ∈ Engine.fetchedNodes (RESTClient.GetDependencies T)
                    pkgMap order c →
           Relation node ≠ "SELF" →
           length (filter (λ p, dedupKey p
                                = Engine.nodeKey (λ name, name) node) pkgs)
           = 1)
  ∧ (∀ c err c',
       Maven.resolveGroup T path pkgMap order c = (inl err, c') →
       ∀ node,
         node ∈ Engine.fetchedNodes (RESTClient.GetDependencies T)
                  pkgMap order c →
         Relation node = "SELF").
Proof.
  split_and!.
  - intros c pkgs c' Hres. to_engine. split.
    + eapply resolveGroup_NoDup;
        [apply pypiPackage_Name|apply pypiPackage_Version|done].
    + intros node Hin Hrel.
      eapply resolveGroup_once;
        [apply pypiPackage_Name|apply pypiPackage_Version|done..].
  - intros c err c' Hres node Hin. to_engine.
    eapply resolveGroup_error_no_nodes;
      [apply pypiPackage_Name|apply pypiPackage_Version|done..].
  - intros c pkgs c' Hres. to_engine. split.
    + eapply resolveGroup_NoDup;
        [apply mavenPackage_Name|apply mavenPackage_Version|done].
    + intros node Hin Hrel.
      eapply resolveGroup_once;
        [apply mavenPackage_Name|apply mavenPackage_Version|done..].
  - intros c err c' Hres node Hin. to_engine.
    eapply (resolveGroup_error_no_nodes _ (λ name, name) mavenPackage);
      [apply mavenPackage_Name|apply mavenPackage_Version|done..].
Qed.

Lemma resolveGroup_dedup_witness :
  ∃ pkgs c',
    PyPI.resolveGroup Sample.net "requirements.txt" Sample.twoDirect
      ["left"; "right"] Sample.pypiClient = (inr pkgs, c')
    ∧ Sample.node "shared" "3.1" "DIRECT"
      ∈ Engine.fetchedNodes (PyPIClient.GetDependencies Sample.net)
          Sample.twoDirect ["left"; "right"] Sample.pypiClient
    ∧ Sample.node "shared" "3.1" "INDIRECT"
      ∈ Engine.fetchedNodes (PyPIClient.GetDependencies Sample.net)
          Sample.twoDirect ["left"; "right"] Sample.pypiClient
    ∧ NoDup (dedupKey <$> pkgs)
    ∧ length (filter (λ p, dedupKey p = "shared@3.1") pkgs) = 1.
Proof.
  eexists _, _. split; [vm_compute; reflexivity|].
  split; [in_list|]. split; [in_list|].
  eassert (PyPI.resolveGroup Sample.net "requirements.txt" Sample.twoDirect
             ["left"; "right"] Sample.pypiClient = _) as Hres
    by (vm_compute; reflexivity).
  destruct (proj1 (resolveGroup_dedup Sample.net "requirements.txt"
                     Sample.twoDirect ["left"; "right"]) _ _ _ Hres)
    as [Hnd Honce].
  split; [exact Hnd|].
  apply (Honce (Sample.node "shared" "3.1" "INDIRECT")); [in_list|done].
Defined.

Example twoDirect_resolved :
  (PyPI.resolveGroup Sample.net "requirements.txt" Sample.twoDirect
     ["left"; "right"] Sample.pypiClient).1
  = inr [pypiPackage "requirements.txt" "shared"
           (Sample.node "shared" "3.1" "DIRECT");
         pypiPackage "requirements.txt" "mid"
           (Sample.node "mid" "0.2" "DIRECT")].
Proof. vm_compute. reflexivity. Qed.

Example twoDirectMaven_resolved :
  (Maven.resolveGroup Sample.net "pom.xml" Sample.twoDirectMaven
     ["left"; "right"] Sample.mavenClient).1
  = inr [mavenPackage "pom.xml" "shared"
           (Sample.node "shared" "3.1" "DIRECT");
         mavenPackage "pom.xml" "mid" (Sample.node "mid" "0.2" "DIRECT")].
Proof. vm_compute. reflexivity. Qed.

(** C6: every package that resolveGroup emits is built from a fetched node
    whose relation is not SELF; and the key of a SELF node is absent from
    the output unless another node, not SELF, has the same key. *)
Theorem resolveGroup_skips_SELF (T : Transport) (path : string)
    (pkgMap : gmap string packageWithIndex) (order : list string) :
  (∀ c pkgs c',
     PyPI.resolveGroup T path pkgMap order c = (inr pkgs, c') →
     let fetched :=
       Engine.fetchedNodes (PyPIClient.GetDependencies T) pkgMap order c in
     (∀ p, p ∈ pkgs →
        ∃ node, node ∈ fetched ∧ Relation node ≠ "SELF"
                ∧ p = pypiPackage path (ToLower T (vkName (VersionKey node)))
                        node)
     ∧ (∀ self, Relation self = "SELF" →
          (∀ node, node ∈ fetched → Relation node ≠ "SELF" →
             Engine.nodeKey (ToLower T) node
             ≠ Engine.nodeKey (ToLower T) self) →
          Engine.nodeKey (ToLower T) self ∉ dedupKey <$> pkgs))
  ∧ (∀ c pkgs c',
       Maven.resolveGroup T path pkgMap order c = (inr pkgs, c') →
       let fetched :=
         Engine.fetchedNodes (RESTClient.GetDependencies T) pkgMap order c in
       (∀ p, p ∈ pkgs →
          ∃ node, node ∈ fetched ∧ Relation node ≠ "SELF"
                  ∧ p = mavenPackage path (vkName (VersionKey node)) node)
       ∧ (∀ self, Relation self = "SELF" →
            (∀ node, node ∈ fetched → Relation node ≠ "SELF" →
               Engine.nodeKey (λ name, name) node
               ≠ Engine.nodeKey (λ name, name) self) →
            Engine.nodeKey (λ name, name) self ∉ dedupKey <$> pkgs)).
Proof.
  split; intros c pkgs c' Hres fetched; to_engine.
  - assert (∀ p, p ∈ pkgs →
              ∃ node, node ∈ fetched ∧ Relation node ≠ "SELF"
                ∧ p = pypiPackage path (ToLower T (vkName (VersionKey node)))
                        node) as Horigin.
    { intros p Hp. by eapply resolveGroup_origin. }
    split; [done|]. intros self Hself Hother Hin.
    apply list_elem_of_fmap in Hin as (p & Hkey & Hp).
    destruct (Horigin p Hp) as (node & Hnode & Hrel & ->).
    by eapply Hother.
  - assert (∀ p, p ∈ pkgs →
              ∃ node, node ∈ fetched ∧ Relation node ≠ "SELF"
                ∧ p = mavenPackage path (vkName (VersionKey node)) node)
      as Horigin.
    { intros p Hp.
      by eapply (resolveGroup_origin _ (λ name, name) mavenPackage). }
    split; [done|]. intros self Hself Hother Hin.
    apply list_elem_of_fmap in Hin as (p & Hkey & Hp).
    destruct (Horigin p Hp) as (node & Hnode & Hrel & ->).
    eapply Hother; [done..|].
    rewrite Hkey. unfold dedupKey, Engine.nodeKey.
    by rewrite mavenPackage_Name, mavenPackage_Version.
Qed.

Lemma resolveGroup_skips_SELF_witness :
  ∃ pkgs c',
    PyPI.resolveGroup Sample.net "requirements.txt" Sample.twoDirect
      ["left"; "right"] Sample.pypiClient = (inr pkgs, c')
    ∧ pypiPackage "requirements.txt" "mid" (Sample.node "mid" "0.2" "DIRECT")
      ∈ pkgs
    ∧ ∃ node,
        node ∈ Engine.fetchedNodes (PyPIClient.GetDependencies Sample.net)
                 Sample.twoDirect ["left"; "right"] Sample.pypiClient
        ∧ Relation node ≠ "SELF"
        ∧ pypiPackage "requirements.txt" "mid"
            (Sample.node "mid" "0.2" "DIRECT")
          = pypiPackage "requirements.txt"
              (ToLower Sample.net (vkName (VersionKey node))) node.
Proof.
  eexists _, _. split; [vm_compute; reflexivity|].
  split; [in_list|].
  eassert (PyPI.resolveGroup Sample.net "requirements.txt" Sample.twoDirect
             ["left"; "right"] Sample.pypiClient = _) as Hres
    by (vm_compute; reflexivity).
  apply (proj1 (proj1 (resolveGroup_skips_SELF Sample.net "requirements.txt"
                         Sample.twoDirect ["left"; "right"]) _ _ _ Hres)).
  in_list.
Defined.

(** C7: every package the Maven resolveGroup emits is built from a fetched
    node that is not SELF, keeps that node's name and version, and carries
    the metadata obtained by cutting the name at ":" : GroupID is the text
    before the first colon, ArtifactID the text after it, and IsTransitive
    holds exactly when the node's relation is INDIRECT.  A node that is not
    SELF and whose key is new emits that package; a name without a colon
    gives the whole name as GroupID and an empty ArtifactID.  On the group
    {"org.apache:commons" -> "1.0"} the INDIRECT node
    "org.apache:commons-io" 2.5 yields GroupID "org.apache", ArtifactID
    "commons-io", IsTransitive true. *)
Theorem maven_metadata :
  (∀ (T : Transport) path pkgMap order c pkgs c' p,
     Maven.resolveGroup T path pkgMap order c = (inr pkgs, c') →
     p ∈ pkgs →
     ∃ node md,
       node ∈ Engine.fetchedNodes (RESTClient.GetDependencies T)
                pkgMap order c
       ∧ Relation node ≠ "SELF"
       ∧ Name p = vkName (VersionKey node)
       ∧ Version p = vkVersion (VersionKey node)
       ∧ PkgMetadata p = Some md
       ∧ (GroupID md, ArtifactID md) = (Cut (Name p) ":").1
       ∧ (IsTransitive md = true ↔ Relation node = "INDIRECT"))
  ∧ (∀ path seen result node,
       Relation node ≠ "SELF" →
       seen !! Engine.nodeKey (λ name, name) node = None →
       Maven.visitNode path (seen, result) node
       = (<[Engine.nodeKey (λ name, name) node := true]> seen,
          result ++ [mkPackage (vkName (VersionKey node))
                       (vkVersion (VersionKey node)) purl_TypeMaven [path]
                       [MavenDepsDevEnricherName]
                       (Some (mkMetadata
                                (Cut (vkName (VersionKey node)) ":").1.2
                                (Cut (vkName (VersionKey node)) ":").1.1
                                (bool_decide (Relation node = "INDIRECT"))))]))
  ∧ (∀ groupID artifactID,
       occurs ":" groupID = false →
       Cut (groupID +:+ ":" +:+ artifactID) ":" = (groupID, artifactID, true))
  ∧ (∀ name, occurs ":" name = false → Cut name ":" = (name, "", false))
  ∧ (Maven.resolveGroup Sample.net "pom.xml" Sample.commonsGroup
       ["org.apache:commons"] Sample.mavenClient).1
    = inr [mkPackage "org.apache:commons-io" "2.5" purl_TypeMaven ["pom.xml"]
             [MavenDepsDevEnricherName]
             (Some (mkMetadata "commons-io" "org.apache" true))].
Proof.
  split_and!.
  - intros T path pkgMap order c pkgs c' p Hres Hp. to_engine.
    eapply (resolveGroup_origin _ (λ name, name) mavenPackage) in Hres
      as (node & Hnode & Hrel & ->); [|done].
    unfold mavenPackage.
    destruct (Cut (vkName (VersionKey node)) ":") as [[groupID artifactID] ?]
      eqn:Hcut.
    eexists node, _. simpl. rewrite Hcut. simpl.
    split_and!; [done..|]. apply bool_decide_eq_true.
  - intros path seen result node Hrel Hseen.
    unfold Maven.visitNode, Engine.nodeKey in *.
    rewrite bool_decide_eq_false_2 by done. rewrite Hseen. simpl.
    by destruct (Cut (vkName (VersionKey node)) ":") as [[? ?] ?].
  - apply Cut_first_colon.
  - apply Cut_no_colon.
  - vm_compute. reflexivity.
Qed.

Lemma maven_metadata_witness :
  ∃ pkgs c' node md,
    Maven.resolveGroup Sample.net "pom.xml" Sample.commonsGroup
      ["org.apache:commons"] Sample.mavenClient = (inr pkgs, c')
    ∧ pkgs !! 0 = Some (mavenPackage "pom.xml" "org.apache:commons-io"
                          (Sample.node "org.apache:commons-io" "2.5"
                             "INDIRECT"))
    ∧ Relation node ≠ "SELF"
    ∧ PkgMetadata (mavenPackage "pom.xml" "org.apache:commons-io"
                     (Sample.node "org.apache:commons-io" "2.5" "INDIRECT"))
      = Some md
    ∧ (IsTransitive md = true ↔ Relation node = "INDIRECT").
Proof.
  eassert (Maven.resolveGroup Sample.net "pom.xml" Sample.commonsGroup
             ["org.apache:commons"] Sample.mavenClient = (inr _, _)) as Hres
    by (vm_compute; reflexivity).
  destruct (proj1 maven_metadata Sample.net _ _ _ _ _ _
              (mavenPackage "pom.xml" "org.apache:commons-io"
                 (Sample.node "org.apache:commons-io" "2.5" "INDIRECT"))
              Hres ltac:(in_list))
    as (node & md & _ & Hrel & _ & _ & Hmd & _ & Htrans).
  eexists _, _, node, md. split; [exact Hres|].
  split; [vm_compute; reflexivity|]. done.
Defined.

(** C5: the PyPI resolver names and keys every package by the lower-cased
    name of a fetched node, strings.ToLower being whatever the library
    makes it: two nodes whose names have one lower-case form, at one
    version, have one dedup key and yield one package.  When ToLower is
    the byte-wise lower-casing on ASCII text, as Go's is, a group whose
    fetched nodes have ASCII names yields no name with an upper-case
    letter, and "Flask" and "flask" yield "flask" once.  The Maven resolver
    keeps the node name as it is: every emitted package is named exactly
    as a fetched node, and "com.foo:Bar" and "com.foo:bar" yield two
    packages under those two names. *)
Theorem name_normalization (T : Transport) :
  (∀ path pkgMap order c pkgs c' p,
     PyPI.resolveGroup T path pkgMap order c = (inr pkgs, c') →
     p ∈ pkgs →
     ∃ node,
       node ∈ Engine.fetchedNodes (PyPIClient.GetDependencies T)
                pkgMap order c
       ∧ Name p = ToLower T (vkName (VersionKey node))
       ∧ dedupKey p = ToLower T (vkName (VersionKey node)) +:+ "@"
                      +:+ vkVersion (VersionKey node))
  ∧ (∀ path n1 n2,
       Relation n1 ≠ "SELF" → Relation n2 ≠ "SELF" →
       ToLower T (vkName (VersionKey n1))
       = ToLower T (vkName (VersionKey n2)) →
       vkVersion (VersionKey n1) = vkVersion (VersionKey n2) →
       Engine.nodeKey (ToLower T) n1 = Engine.nodeKey (ToLower T) n2
       ∧ (foldl (PyPI.visitNode T path) (∅, []) [n1; n2]).2
         = [pypiPackage path (ToLower T (vkName (VersionKey n1))) n1])
  ∧ (lowers_ASCII T →
     (∀ path pkgMap order c pkgs c',
        PyPI.resolveGroup T path pkgMap order c = (inr pkgs, c') →
        (∀ node,
           node ∈ Engine.fetchedNodes (PyPIClient.GetDependencies T)
                    pkgMap order c →
           isASCII (vkName (VersionKey node)) = true) →
        ∀ p, p ∈ pkgs →
          has_upper (Name p) = false
          ∧ ∃ node,
              node ∈ Engine.fetchedNodes (PyPIClient.GetDependencies T)
                       pkgMap order c
              ∧ Name p = ToLowerASCII (vkName (VersionKey node)))
     ∧ (foldl (PyPI.visitNode T "requirements.txt") (∅, [])
          [Sample.node "Flask" "2.0" "DIRECT";
           Sample.node "flask" "2.0" "INDIRECT"]).2
       = [mkPackage "flask" "2.0" purl_TypePyPi ["requirements.txt"]
            [PyPIDepsDevEnricherName] None])
  ∧ (∀ path pkgMap order c pkgs c' p,
       Maven.resolveGroup T path pkgMap order c = (inr pkgs, c') →
       p ∈ pkgs →
       ∃ node,
         node ∈ Engine.fetchedNodes (RESTClient.GetDependencies T)
                  pkgMap order c
         ∧ Name p = vkName (VersionKey node)
         ∧ dedupKey p = vkName (VersionKey node) +:+ "@"
                        +:+ vkVersion (VersionKey node))
  ∧ Name <$> (foldl (Maven.visitNode "pom.xml") (∅, [])
                [Sample.node "com.foo:Bar" "1.0" "DIRECT";
                 Sample.node "com.foo:bar" "1.0" "DIRECT"]).2
    = ["com.foo:Bar"; "com.foo:bar"].
Proof.
  assert (∀ path n1 n2,
            Relation n1 ≠ "SELF" → Relation n2 ≠ "SELF" →
            ToLower T (vkName (VersionKey n1))
            = ToLower T (vkName (VersionKey n2)) →
            vkVersion (VersionKey n1) = vkVersion (VersionKey n2) →
            Engine.nodeKey (ToLower T) n1 = Engine.nodeKey (ToLower T) n2
            ∧ (foldl (PyPI.visitNode T path) (∅, []) [n1; n2]).2
              = [pypiPackage path (ToLower T (vkName (VersionKey n1))) n1])
    as Hsame.
  { intros path n1 n2 Hr1 Hr2 Hname Hver.
    assert (Engine.nodeKey (ToLower T) n1 = Engine.nodeKey (ToLower T) n2)
      as Hkey.
    { unfold Engine.nodeKey. by rewrite Hname, Hver. }
    split; [done|].
    unfold Engine.nodeKey in Hkey. cbn [foldl].
    unfold PyPI.visitNode at 2.
    rewrite bool_decide_eq_false_2 by done. rewrite lookup_empty.
    cbn [default]. unfold PyPI.visitNode.
    rewrite bool_decide_eq_false_2 by done.
    by rewrite <- Hkey, lookup_insert_eq. }
  split_and!.
  - intros path pkgMap order c pkgs c' p Hres Hp. to_engine.
    eapply resolveGroup_origin in Hres as (node & Hnode & Hrel & ->);
      [|done].
    by exists node.
  - exact Hsame.
  - intros Hascii. split.
    + intros path pkgMap order c pkgs c' Hres Hnames p Hp. to_engine.
      eapply resolveGroup_origin in Hres as (node & Hnode & Hrel & ->);
        [|done].
      cbn [pypiPackage Name]. rewrite (Hascii _ (Hnames node Hnode)).
      split; [apply has_upper_ToLowerASCII|]. by exists node.
    + destruct (Hsame "requirements.txt"
                  (Sample.node "Flask" "2.0" "DIRECT")
                  (Sample.node "flask" "2.0" "INDIRECT")) as [_ ->];
        [done|done| |done|].
      * cbn [Sample.node VersionKey vkName].
        by rewrite (Hascii "Flask" eq_refl), (Hascii "flask" eq_refl).
      * cbn [Sample.node VersionKey vkName].
        by rewrite (Hascii "Flask" eq_refl).
  - intros path pkgMap order c pkgs c' p Hres Hp. to_engine.
    eapply (resolveGroup_origin _ (λ name, name) mavenPackage) in Hres
      as (node & Hnode & Hrel & ->); [|done].
    exists node. unfold dedupKey.
    by rewrite mavenPackage_Name, mavenPackage_Version.
  - vm_compute. reflexivity.
Qed.

Lemma name_normalization_witness :
  lowers_ASCII Sample.net
  ∧ ∃ pkgs c',
      PyPI.resolveGroup Sample.net "requirements.txt" Sample.twoDirect
        ["left"; "right"] Sample.pypiClient = (inr pkgs, c')
      ∧ pkgs !! 0 = Some (pypiPackage "requirements.txt" "shared"
                            (Sample.node "shared" "3.1" "DIRECT"))
      ∧ has_upper (Name (pypiPackage "requirements.txt" "shared"
                           (Sample.node "shared" "3.1" "DIRECT"))) = false.
Proof.
  assert (lowers_ASCII Sample.net) as Hascii by (intros s _; reflexivity).
  split; [exact Hascii|].
  eassert (PyPI.resolveGroup Sample.net "requirements.txt" Sample.twoDirect
             ["left"; "right"] Sample.pypiClient = (inr _, _)) as Hres
    by (vm_compute; reflexivity).
  eexists _, _. split; [exact Hres|]. split; [vm_compute; reflexivity|].
  refine (proj1 (proj1 (proj1 (proj2 (proj2 (name_normalization Sample.net)))
                          Hascii)
                   _ _ _ _ _ _ Hres _ _ _)).
  - intros node Hnode. apply list_elem_of_In in Hnode. vm_compute in Hnode.
    repeat (destruct Hnode as [<-|Hnode]; [reflexivity|]). destruct Hnode.
  - in_list.
Defined.

(** C2, as amended: a group whose packages all have an empty version makes
    resolveGroup attempt no lookup (the client and the world are returned
    as they were); the call fails with the no-dependencies error when the
    group holds at least one package, and returns an empty result without
    error only for an empty group. *)
Theorem resolveGroup_all_unpinned (T : Transport) (path : string)
    (pkgMap : gmap string packageWithIndex) (order : list string) :
  (∀ name indexPkg,
     pkgMap !! name = Some indexPkg → Version (pkg indexPkg) = "") →
  (∀ c, PyPI.resolveGroup T path pkgMap order c
        = (if bool_decide (0 < size pkgMap)
           then inl ErrNoDependencies else inr [], c))
  ∧ (∀ c, Maven.resolveGroup T path pkgMap order c
          = (if bool_decide (0 < size pkgMap)
             then inl ErrNoMavenDependencies else inr [], c)).
Proof.
  intros Hun. split; intros c; to_engine; by apply resolveGroup_unpinned.
Qed.

Lemma unpinned_versions name indexPkg :
  Sample.unpinned !! name = Some indexPkg → Version (pkg indexPkg) = "".
Proof.
  unfold Sample.unpinned. intros [[_ <-]|[_ H]]%lookup_insert_Some; [done|].
  by rewrite lookup_empty in H.
Defined.

Lemma resolveGroup_all_unpinned_witness :
  (∀ name indexPkg,
     Sample.unpinned !! name = Some indexPkg → Version (pkg indexPkg) = "")
  ∧ PyPI.resolveGroup Sample.net "requirements.txt" Sample.unpinned
      ["requests"] Sample.pypiClient
    = (if bool_decide (0 < size Sample.unpinned)
       then inl ErrNoDependencies else inr [], Sample.pypiClient).
Proof.
  split; [exact unpinned_versions|].
  apply (proj1 (resolveGroup_all_unpinned Sample.net "requirements.txt"
                  Sample.unpinned ["requests"] unpinned_versions)).
Defined.

(** C2, the claim as stated fails: the group {"requests" -> ""} holds only
    an unpinned package, and resolveGroup returns the no-dependencies error
    for it, not an empty result. *)
Lemma unpinned_group_fails :
  (∀ name indexPkg,
     Sample.unpinned !! name = Some indexPkg → Version (pkg indexPkg) = "")
  ∧ range_order Sample.unpinned ["requests"]
  ∧ PyPI.resolveGroup Sample.net "requirements.txt" Sample.unpinned
      ["requests"] Sample.pypiClient
    = (inl ErrNoDependencies, Sample.pypiClient)
  ∧ Maven.resolveGroup Sample.net "pom.xml" Sample.unpinned
      ["requests"] Sample.mavenClient
    = (inl ErrNoMavenDependencies, Sample.mavenClient).
Proof.
  split; [exact unpinned_versions|].
  split; [unfold range_order; vm_compute; reflexivity|].
  split; vm_compute; reflexivity.
Qed.

(** ** The Graph Clients *)

Lemma PyPIClient_error_keeps T name version c w err c' w' :
  PyPIClient.GetDependencies T name version (c, w) = (inl err, (c', w')) →
  c' = c.
Proof.
  unfold PyPIClient.GetDependencies. intros H.
  repeat case_match; by simplify_eq.
Qed.

Lemma RESTClient_error_keeps T name version c w err c' w' :
  RESTClient.GetDependencies T name version (c, w) = (inl err, (c', w')) →
  c' = c.
Proof.
  unfold RESTClient.GetDependencies. intros H.
  repeat case_match; by simplify_eq.
Qed.

Lemma PyPIClient_store T name version c w r c' w' :
  PyPIClient.GetDependencies T name version (c, w) = (r, (c', w')) →
  c' ≠ c →
  ∃ graph body,
    r = inr graph
    ∧ exchange T (PyPIClient.baseURL c +:+ "/v3/systems/pypi/packages/"
                    +:+ PathEscape T name +:+ "/versions/"
                    +:+ PathEscape T version +:+ ":dependencies") w
      = (Response http_StatusOK body, w')
    ∧ Decode T body = Some graph
    ∧ c' = PyPIClient.mkClient (PyPIClient.baseURL c)
             (<[name +:+ "@" +:+ version := graph]> (PyPIClient.cache c)).
Proof.
  unfold PyPIClient.GetDependencies. intros H Hne.
  repeat case_match; simplify_eq; try done.
  match goal with H : bool_decide _ = false |- _ =>
    apply bool_decide_eq_false in H; apply dec_stable in H; subst end.
  by eexists _, _.
Qed.

Lemma RESTClient_store T name version c w r c' w' :
  RESTClient.GetDependencies T name version (c, w) = (r, (c', w')) →
  c' ≠ c →
  ∃ graph body,
    r = inr graph
    ∧ exchange T (RESTClient.baseURL c +:+ "/v3/systems/"
                    +:+ RESTClient.system c +:+ "/packages/"
                    +:+ PathEscape T name +:+ "/versions/"
                    +:+ PathEscape T version +:+ ":dependencies") w
      = (Response http_StatusOK body, w')
    ∧ Decode T body = Some graph
    ∧ c' = RESTClient.mkClient (RESTClient.baseURL c) (RESTClient.system c)
             (<[RESTClient.system c +:+ "/" +:+ name +:+ "@" +:+ version
                := graph]> (RESTClient.cache c)).
Proof.
  unfold RESTClient.GetDependencies. intros H Hne.
  repeat case_match; simplify_eq; try done.
  match goal with H : bool_decide _ = false |- _ =>
    apply bool_decide_eq_false in H; apply dec_stable in H; subst end.
  by eexists _, _.
Qed.

Lemma PyPIClient_failures T name version c w :
  PyPIClient.cache c !! (name +:+ "@" +:+ version) = None →
  ∀ x w',
    exchange T (PyPIClient.baseURL c +:+ "/v3/systems/pypi/packages/"
                  +:+ PathEscape T name +:+ "/versions/"
                  +:+ PathEscape T version +:+ ":dependencies") w = (x, w') →
    (x = TransportError →
     PyPIClient.GetDependencies T name version (c, w)
     = (inl (ErrRequestFailed name version), (c, w')))
    ∧ (∀ code body, x = Response code body → code ≠ http_StatusOK →
         PyPIClient.GetDependencies T name version (c, w)
         = (inl (ErrStatus code name version body), (c, w')))
    ∧ (∀ body, x = Response http_StatusOK body → Decode T body = None →
         PyPIClient.GetDependencies T name version (c, w)
         = (inl (ErrDecode name version), (c, w'))).
Proof.
  intros Hmiss x w' Hx. unfold PyPIClient.GetDependencies.
  rewrite Hmiss, Hx. split_and!.
  - by intros ->.
  - intros code body -> Hcode. by rewrite bool_decide_eq_true_2.
  - intros body -> Hdec. rewrite bool_decide_eq_false_2 by (by intros ?).
    by rewrite Hdec.
Qed.

Lemma RESTClient_failures T name version c w :
  RESTClient.cache c
    !! (RESTClient.system c +:+ "/" +:+ name +:+ "@" +:+ version) = None →
  ∀ x w',
    exchange T (RESTClient.baseURL c +:+ "/v3/systems/"
                  +:+ RESTClient.system c +:+ "/packages/"
                  +:+ PathEscape T name +:+ "/versions/"
                  +:+ PathEscape T version +:+ ":dependencies") w = (x, w') →
    (x = TransportError →
     RESTClient.GetDependencies T name version (c, w)
     = (inl (ErrRequestFailed name version), (c, w')))
    ∧ (∀ code body, x = Response code body → code ≠ http_StatusOK →
         RESTClient.GetDependencies T name version (c, w)
         = (inl (ErrStatus code name version body), (c, w')))
    ∧ (∀ body, x = Response http_StatusOK body → Decode T body = None →
         RESTClient.GetDependencies T name version (c, w)
         = (inl (ErrDecode name version), (c, w'))).
Proof.
  intros Hmiss x w' Hx. unfold RESTClient.GetDependencies.
  rewrite Hmiss, Hx. split_and!.
  - by intros ->.
  - intros code body -> Hcode. by rewrite bool_decide_eq_true_2.
  - intros body -> Hdec. rewrite bool_decide_eq_false_2 by (by intros ?).
    by rewrite Hdec.
Qed.

(** C9: a GetDependencies call that returns an error returns the client,
    and so its cache, as it was; this covers the three failures of a lookup
    that misses the cache: a transport failure, a status other than 200,
    and a body that does not decode.  A call changes the cache only by
    storing, under the cache key of the call, the graph decoded from a 200
    response, which is the graph it returns.  Both clients. *)
Theorem GetDependencies_failure_keeps_cache (T : Transport)
    (name version : string) :
  (∀ c w r c' w',
     PyPIClient.GetDependencies T name version (c, w) = (r, (c', w')) →
     (∀ err, r = inl err → PyPIClient.cache c' = PyPIClient.cache c)
     ∧ (PyPIClient.cache c' ≠ PyPIClient.cache c →
        ∃ graph body,
          r = inr graph ∧ Decode T body = Some graph
          ∧ (exchange T (PyPIClient.baseURL c +:+ "/v3/systems/pypi/packages/"
                           +:+ PathEscape T name +:+ "/versions/"
                           +:+ PathEscape T version +:+ ":dependencies") w).1
            = Response http_StatusOK body
          ∧ PyPIClient.cache c'
            = <[name +:+ "@" +:+ version := graph]> (PyPIClient.cache c)))
  ∧ (∀ c w, PyPIClient.cache c !! (name +:+ "@" +:+ version) = None →
       ∀ x w',
         exchange T (PyPIClient.baseURL c +:+ "/v3/systems/pypi/packages/"
                       +:+ PathEscape T name +:+ "/versions/"
                       +:+ PathEscape T version +:+ ":dependencies") w
         = (x, w') →
         (x = TransportError →
          PyPIClient.GetDependencies T name version (c, w)
          = (inl (ErrRequestFailed name version), (c, w')))
         ∧ (∀ code body, x = Response code body → code ≠ http_StatusOK →
              PyPIClient.GetDependencies T name version (c, w)
              = (inl (ErrStatus code name version body), (c, w')))
         ∧ (∀ body, x = Response http_StatusOK body → Decode T body = None →
              PyPIClient.GetDependencies T name version (c, w)
              = (inl (ErrDecode name version), (c, w'))))
  ∧ (∀ c w r c' w',
       RESTClient.GetDependencies T name version (c, w) = (r, (c', w')) →
       (∀ err, r = inl err → RESTClient.cache c' = RESTClient.cache c)
       ∧ (RESTClient.cache c' ≠ RESTClient.cache c →
          ∃ graph body,
            r = inr graph ∧ Decode T body = Some graph
            ∧ (exchange T (RESTClient.baseURL c +:+ "/v3/systems/"
                             +:+ RESTClient.system c +:+ "/packages/"
                             +:+ PathEscape T name +:+ "/versions/"
                             +:+ PathEscape T version +:+ ":dependencies") w).1
              = Response http_StatusOK body
            ∧ RESTClient.cache c'
              = <[RESTClient.system c +:+ "/" +:+ name +:+ "@" +:+ version
                  := graph]> (RESTClient.cache c)))
  ∧ (∀ c w,
       RESTClient.cache c
         !! (RESTClient.system c +:+ "/" +:+ name +:+ "@" +:+ version) = None →
       ∀ x w',
         exchange T (RESTClient.baseURL c +:+ "/v3/systems/"
                       +:+ RESTClient.system c +:+ "/packages/"
                       +:+ PathEscape T name +:+ "/versions/"
                       +:+ PathEscape T version +:+ ":dependencies") w
         = (x, w') →
         (x = TransportError →
          RESTClient.GetDependencies T name version (c, w)
          = (inl (ErrRequestFailed name version), (c, w')))
         ∧ (∀ code body, x = Response code body → code ≠ http_StatusOK →
              RESTClient.GetDependencies T name version (c, w)
              = (inl (ErrStatus code name version body), (c, w')))
         ∧ (∀ body, x = Response http_StatusOK body → Decode T body = None →
              RESTClient.GetDependencies T name version (c, w)
              = (inl (ErrDecode name version), (c, w')))).
Proof.
  split_and!.
  - intros c w r c' w' Hget. split.
    + intros err ->. by apply PyPIClient_error_keeps in Hget as ->.
    + intros Hne.
      destruct (PyPIClient_store T name version c w r c' w' Hget)
        as (graph & body & -> & Hx & Hdec & ->); [by intros ->|].
      exists graph, body. by rewrite Hx.
  - apply PyPIClient_failures.
  - intros c w r c' w' Hget. split.
    + intros err ->. by apply RESTClient_error_keeps in Hget as ->.
    + intros Hne.
      destruct (RESTClient_store T name version c w r c' w' Hget)
        as (graph & body & -> & Hx & Hdec & ->); [by intros ->|].
      exists graph, body. by rewrite Hx.
  - apply RESTClient_failures.
Qed.

Lemma GetDependencies_failure_keeps_cache_witness :
  PyPIClient.GetDependencies Sample.net "broken" "1.0" Sample.pypiClient
  = (inl (ErrDecode "broken" "1.0"), Sample.pypiClient)
  ∧ RESTClient.GetDependencies Sample.net "absent" "1.0" Sample.mavenClient
    = (inl (ErrStatus 404 "absent" "1.0" "not found"), Sample.mavenClient)
  ∧ PyPIClient.cache Sample.pypiClient.1 = PyPIClient.cache Sample.pypiClient.1.
Proof.
  split; [vm_compute; reflexivity|]. split; [vm_compute; reflexivity|].
  apply (proj1 (proj1 (GetDependencies_failure_keeps_cache Sample.net
                         "broken" "1.0")
                  Sample.pypiClient.1 tt (inl (ErrDecode "broken" "1.0"))
                  Sample.pypiClient.1 tt ltac:(vm_compute; reflexivity))
           (ErrDecode "broken" "1.0") eq_refl).
Defined.

(** ** The Enrich pass of each enricher *)

Lemma slices_Contains_app l k x :
  slices_Contains (l ++ k) x = slices_Contains l x || slices_Contains k x.
Proof.
  induction l as [|y l IH]; simpl; [done|]. by rewrite IH, orb_assoc.
Qed.

Lemma pypi_eligible_tag p version :
  pypiEligible (setPlugins (setVersion p version) (pypiTag (Plugins p)))
  = pypiEligible p.
Proof.
  unfold pypiEligible, pypiTag. simpl. rewrite slices_Contains_app.
  replace (slices_Contains [PyPIDepsDevEnricherName] requirements_Name)
    with false by (vm_compute; reflexivity).
  apply orb_false_r.
Qed.

Lemma maven_eligible_tag p version :
  mavenEligible (setPlugins (setVersion p version) (mavenTag (Plugins p)))
  = mavenEligible p.
Proof.
  unfold mavenEligible, mavenTag. simpl.
  destruct (slices_Contains _ _); [done|].
  rewrite existsb_app.
  replace (existsb Maven.isMavenPlugin [MavenDepsDevEnricherName])
    with false by (vm_compute; reflexivity).
  apply orb_false_r.
Qed.

Lemma pypi_build_ineligible path name node :
  pypiEligible (pypiPackage path name node) = false.
Proof. vm_compute. reflexivity. Qed.

Lemma maven_build_ineligible path name node :
  mavenEligible (mavenPackage path name node) = false.
Proof.
  unfold mavenPackage. destruct (Cut name ":") as [[? ?] ?].
  vm_compute. reflexivity.
Qed.

Lemma pypi_build_Plugins path name node :
  Plugins (pypiPackage path name node) = [PyPIDepsDevEnricherName].
Proof. reflexivity. Qed.

Lemma maven_build_Plugins path name node :
  Plugins (mavenPackage path name node) = [MavenDepsDevEnricherName].
Proof. unfold mavenPackage. by destruct (Cut name ":") as [[? ?] ?]. Qed.

Ltac enrich_to_engine :=
  rewrite ?PyPI_Enrich_engine, ?Maven_Enrich_engine,
    ?PyPI_groupLoop_engine, ?Maven_groupLoop_engine in *.

Ltac perm_ok :=
  vm_compute; first [reflexivity | apply (bool_decide_unpack _); vm_compute;
                                   exact I].

Ltac range_ok :=
  unfold range_schedule, range_order;
  split; [perm_ok|];
  repeat (constructor;
          [eexists; split; [vm_compute; reflexivity|perm_ok]|]);
  constructor.

(** C1, the claim as stated fails: on the inventory that holds "requests"
    2.31.0 alone, a first pass appends urllib3 2.0.0 and certifi 2023.7.22,
    and a second pass on the result appends both once more.  The Maven
    enricher does the same with "org.apache:commons-io" 2.5 on the
    inventory that holds "org.apache:commons" 1.0. *)
Lemma second_pass_appends_again :
  let sched := [("requirements.txt", ["requests"])] in
  let urllib3 := pypiPackage "requirements.txt" "urllib3"
                   (Sample.node "urllib3" "2.0.0" "DIRECT") in
  let certifi := pypiPackage "requirements.txt" "certifi"
                   (Sample.node "certifi" "2023.7.22" "INDIRECT") in
  let inv1 := Sample.requestsOnly ++ [urllib3; certifi] in
  let schedM := [("pom.xml", ["org.apache:commons"])] in
  let commonsIO := mavenPackage "pom.xml" "org.apache:commons-io"
                     (Sample.node "org.apache:commons-io" "2.5" "INDIRECT") in
  let invM1 := Sample.pom ++ [commonsIO] in
  ∃ c1 c2 cM1 cM2,
    range_schedule (PyPI.groupLoop 0 Sample.requestsOnly ∅) sched
    ∧ PyPI.Enrich Sample.net sched Sample.requestsOnly Sample.pypiClient
      = Some (inv1, c1, None)
    ∧ range_schedule (PyPI.groupLoop 0 inv1 ∅) sched
    ∧ PyPI.Enrich Sample.net sched inv1 c1
      = Some (inv1 ++ [urllib3; certifi], c2, None)
    ∧ inv1 ++ [urllib3; certifi] ≠ inv1
    ∧ range_schedule (Maven.groupLoop 0 Sample.pom ∅) schedM
    ∧ Maven.Enrich Sample.net schedM Sample.pom Sample.mavenClient
      = Some (invM1, cM1, None)
    ∧ range_schedule (Maven.groupLoop 0 invM1 ∅) schedM
    ∧ Maven.Enrich Sample.net schedM invM1 cM1
      = Some (invM1 ++ [commonsIO], cM2, None)
    ∧ invM1 ++ [commonsIO] ≠ invM1.
Proof.
  intros sched urllib3 certifi inv1 schedM commonsIO invM1.
  eexists _, _, _, _.
  split; [range_ok|].
  split; [vm_compute; reflexivity|].
  split; [range_ok|].
  split; [vm_compute; reflexivity|].
  split.
  { intros Heq. apply (f_equal length) in Heq. vm_compute in Heq. lia. }
  split; [range_ok|].
  split; [vm_compute; reflexivity|].
  split; [range_ok|].
  split; [vm_compute; reflexivity|].
  intros Heq. apply (f_equal length) in Heq. vm_compute in Heq. lia.
Qed.

(** C1, as amended: a pass keeps every entry of its input at its index,
    with its name, its locations and its eligibility for grouping, and
    appends after them the resolved packages whose name is not a key of
    their group; an appended entry carries the enricher's tag alone and is
    not eligible.  So the groups of the inventory after the pass (paths,
    names, indices) are those before it: a second pass groups the same
    manifest entries and takes no notice of the entries that the first one
    appended. *)
Theorem Enrich_pass_effect (T : Transport) (sched : Schedule)
    (inv : list Package) :
  (∀ c inv' c' err,
     PyPI.Enrich T sched inv c = Some (inv', c', err) →
     Forall2 (λ p p', Name p' = Name p ∧ Locations p' = Locations p
                      ∧ pypiEligible p' = pypiEligible p)
       inv (take (length inv) inv')
     ∧ drop (length inv) inv'
       = Engine.appended (PyPI.groupLoop 0 inv ∅)
           (Engine.resolutions (PyPIClient.GetDependencies T) (ToLower T)
              pypiPackage ErrNoDependencies (PyPI.groupLoop 0 inv ∅) sched c)
     ∧ Forall (λ p, Plugins p = [PyPIDepsDevEnricherName]
                    ∧ pypiEligible p = false) (drop (length inv) inv')
     ∧ Engine.groupIndex (PyPI.groupLoop 0 inv' ∅)
       = Engine.groupIndex (PyPI.groupLoop 0 inv ∅))
  ∧ (∀ c inv' c' err,
       Maven.Enrich T sched inv c = Some (inv', c', err) →
       Forall2 (λ p p', Name p' = Name p ∧ Locations p' = Locations p
                        ∧ mavenEligible p' = mavenEligible p)
         inv (take (length inv) inv')
       ∧ drop (length inv) inv'
         = Engine.appended (Maven.groupLoop 0 inv ∅)
             (Engine.resolutions (RESTClient.GetDependencies T) (λ name, name)
                mavenPackage ErrNoMavenDependencies (Maven.groupLoop 0 inv ∅)
                sched c)
       ∧ Forall (λ p, Plugins p = [MavenDepsDevEnricherName]
                      ∧ mavenEligible p = false) (drop (length inv) inv')
       ∧ Engine.groupIndex (Maven.groupLoop 0 inv' ∅)
         = Engine.groupIndex (Maven.groupLoop 0 inv ∅)).
Proof.
  split; intros c inv' c' err Hrun; enrich_to_engine.
  - destruct (Enrich_pass (PyPIClient.GetDependencies T) (ToLower T) pypiPackage
                ErrNoDependencies pypiEligible pypiTag pypiPackage_Name
                pypi_eligible_tag sched inv c inv' c' err
                pypi_build_ineligible Hrun) as (_ & Hupd & Hdrop & Hidx).
    split_and!; [|done| |done].
    + eapply Forall2_impl; [exact Hupd|]. intros p p'.
      apply updated_keeps, pypi_eligible_tag.
    + rewrite Hdrop. apply Forall_forall. intros p Hp.
      by apply appended_built in Hp as (path & node & _ & ->).
  - destruct (Enrich_pass (RESTClient.GetDependencies T) (λ name, name)
                mavenPackage ErrNoMavenDependencies mavenEligible mavenTag
                mavenPackage_Name maven_eligible_tag sched inv c inv' c' err
                maven_build_ineligible Hrun) as (_ & Hupd & Hdrop & Hidx).
    split_and!; [|done| |done].
    + eapply Forall2_impl; [exact Hupd|]. intros p p'.
      apply updated_keeps, maven_eligible_tag.
    + rewrite Hdrop. apply Forall_forall. intros p Hp.
      apply appended_built in Hp as (path & node & _ & ->).
      split; [apply maven_build_Plugins|apply maven_build_ineligible].
Qed.

Lemma Enrich_pass_effect_witness :
  ∃ inv' c',
    PyPI.Enrich Sample.net [("requirements.txt", ["requests"])]
      Sample.requestsOnly Sample.pypiClient = Some (inv', c', None)
    ∧ length inv' = 3
    ∧ Engine.groupIndex (PyPI.groupLoop 0 inv' ∅)
      = Engine.groupIndex (PyPI.groupLoop 0 Sample.requestsOnly ∅).
Proof.
  eassert (PyPI.Enrich Sample.net [("requirements.txt", ["requests"])]
             Sample.requestsOnly Sample.pypiClient = Some (_, _, None))
    as Hrun by (vm_compute; reflexivity).
  eexists _, _. split; [exact Hrun|]. split; [vm_compute; reflexivity|].
  apply (proj1 (Enrich_pass_effect Sample.net _ Sample.requestsOnly)
           _ _ _ _ Hrun).
Defined.

(** The merge of a resolved package whose name is a key of the group: the
    entry at the recorded index gets the resolved version, the length of
    the inventory is kept.  Merged twice, the PyPI enricher leaves its tag
    twice, the Maven enricher once. *)
Lemma PyPI_merge_twice pkgMap inv p indexPkg entry :
  pkgMap !! Name p = Some indexPkg → inv !! index indexPkg = Some entry →
  ∃ inv2,
    (PyPI.mergeStep pkgMap inv p ≫= λ inv1, PyPI.mergeStep pkgMap inv1 p)
    = Some inv2
    ∧ length inv2 = length inv
    ∧ inv2 !! index indexPkg
      = Some (setPlugins (setVersion entry (Version p))
                (Plugins entry ++ [PyPIDepsDevEnricherName;
                                   PyPIDepsDevEnricherName])).
Proof.
  intros Hkey Hentry. pose proof (lookup_lt_Some _ _ _ Hentry) as Hlt.
  unfold PyPI.mergeStep. rewrite Hkey, Hentry. simpl.
  rewrite list_lookup_insert_eq by done.
  eexists. split; [done|]. rewrite !length_insert. split; [done|].
  rewrite list_lookup_insert_eq by (by rewrite length_insert).
  simpl. unfold setPlugins, setVersion. simpl. by rewrite <- app_assoc.
Qed.

Lemma Maven_merge_twice pkgMap inv p indexPkg entry :
  pkgMap !! Name p = Some indexPkg → inv !! index indexPkg = Some entry →
  slices_Contains (Plugins entry) MavenDepsDevEnricherName = false →
  ∃ inv2,
    (Maven.mergeStep pkgMap inv p ≫= λ inv1, Maven.mergeStep pkgMap inv1 p)
    = Some inv2
    ∧ length inv2 = length inv
    ∧ inv2 !! index indexPkg
      = Some (setPlugins (setVersion entry (Version p))
                (Plugins entry ++ [MavenDepsDevEnricherName])).
Proof.
  intros Hkey Hentry Hnew. pose proof (lookup_lt_Some _ _ _ Hentry) as Hlt.
  unfold Maven.mergeStep. rewrite Hkey, Hentry. simpl.
  rewrite list_lookup_insert_eq by done. rewrite Hnew. simpl.
  rewrite slices_Contains_app, Hnew.
  replace (slices_Contains [MavenDepsDevEnricherName]
             MavenDepsDevEnricherName) with true by (vm_compute; reflexivity).
  cbn [orb].
  eexists. split; [done|]. rewrite !length_insert. split; [done|].
  by rewrite list_lookup_insert_eq by (by rewrite length_insert).
Qed.

(** C3: the code breaks the claim in the PyPI enricher.  The manifest
    holds requests 2.31.0 and urllib3 1.26.0, and the graph of requests
    names urllib3 2.0.0.  The first pass overwrites the version of the
    urllib3 entry in place and appends the tag; the second pass, which
    merges into the same entry, appends the tag a second time. *)
Lemma pypi_tag_appended_twice :
  let sched := [("requirements.txt", ["requests"; "urllib3"])] in
  ∃ inv1 c1 inv2 c2,
    range_schedule (PyPI.groupLoop 0 Sample.withUrllib3 ∅) sched
    ∧ PyPI.Enrich Sample.net sched Sample.withUrllib3 Sample.pypiClient
      = Some (inv1, c1, None)
    ∧ inv1 !! 1
      = Some (mkPackage "urllib3" "2.0.0" purl_TypePyPi ["requirements.txt"]
                [requirements_Name; PyPIDepsDevEnricherName] None)
    ∧ range_schedule (PyPI.groupLoop 0 inv1 ∅) sched
    ∧ PyPI.Enrich Sample.net sched inv1 c1 = Some (inv2, c2, None)
    ∧ inv2 !! 1
      = Some (mkPackage "urllib3" "2.0.0" purl_TypePyPi ["requirements.txt"]
                [requirements_Name; PyPIDepsDevEnricherName;
                 PyPIDepsDevEnricherName] None).
Proof.
  intros sched. eexists _, _, _, _.
  split; [range_ok|].
  split; [vm_compute; reflexivity|].
  split; [vm_compute; reflexivity|].
  split; [range_ok|].
  split; [vm_compute; reflexivity|].
  vm_compute. reflexivity.
Qed.

(** C10, the claim as stated fails: the manifest holds "Flask", "flask" and
    "foo", and the graph of foo names flask 2.0.  The entry "Flask" is left
    alone, but the resolved package "flask" is not appended: it is merged
    into the entry stored as "flask", and the inventory keeps its three
    entries. *)
Lemma lowercase_name_not_appended :
  let sched := [("requirements.txt", ["Flask"; "flask"; "foo"])] in
  let groups := PyPI.groupLoop 0 Sample.mixedCase ∅ in
  ∃ c1,
    range_schedule groups sched
    ∧ has_upper "Flask" = true ∧ ToLower Sample.net "Flask" = "flask"
    ∧ Engine.resolutions (PyPIClient.GetDependencies Sample.net)
        (ToLower Sample.net)
        pypiPackage ErrNoDependencies groups sched Sample.pypiClient
      = [("requirements.txt",
          [pypiPackage "requirements.txt" "flask"
             (Sample.node "flask" "2.0" "DIRECT")])]
    ∧ PyPI.Enrich Sample.net sched Sample.mixedCase Sample.pypiClient
      = Some ([Sample.requirement "Flask" "1.0";
               mkPackage "flask" "2.0" purl_TypePyPi ["requirements.txt"]
                 [requirements_Name; PyPIDepsDevEnricherName] None;
               Sample.requirement "foo" "1.0"], c1, None).
Proof.
  intros sched groups. eexists.
  split; [range_ok|].
  split; [reflexivity|]. split; [reflexivity|].
  split; vm_compute; reflexivity.
Qed.


(** * Further properties *)

(** ** The Graph Clients: memoisation *)

(** X1: a GetDependencies call that returns a graph leaves that graph in
    the cache under the key of the call, and every later call for the same
    name and version on the resulting client returns the same graph and
    changes neither the client nor the world, whatever the state of the
    network then is.  Both clients. *)
Theorem GetDependencies_memoizes (T : Transport) (name version : string) :
  (∀ c w graph c' w',
     PyPIClient.GetDependencies T name version (c, w)
     = (inr graph, (c', w')) →
     PyPIClient.cache c' !! (name +:+ "@" +:+ version) = Some graph
     ∧ ∀ w2, PyPIClient.GetDependencies T name version (c', w2)
             = (inr graph, (c', w2)))
  ∧ (∀ c w graph c' w',
       RESTClient.GetDependencies T name version (c, w)
       = (inr graph, (c', w')) →
       RESTClient.cache c'
         !! (RESTClient.system c' +:+ "/" +:+ name +:+ "@" +:+ version)
       = Some graph
       ∧ ∀ w2, RESTClient.GetDependencies T name version (c', w2)
               = (inr graph, (c', w2))).
Proof.
  split; intros c w graph c' w' Hget.
  - assert (PyPIClient.cache c' !! (name +:+ "@" +:+ version) = Some graph)
      as Hhit.
    { unfold PyPIClient.GetDependencies in Hget.
      repeat case_match; simplify_eq; [done|].
      simpl. apply lookup_insert_eq. }
    split; [done|]. intros w2.
    unfold PyPIClient.GetDependencies. by rewrite Hhit.
  - assert (RESTClient.cache c'
              !! (RESTClient.system c' +:+ "/" +:+ name +:+ "@" +:+ version)
            = Some graph) as Hhit.
    { unfold RESTClient.GetDependencies in Hget.
      repeat case_match; simplify_eq; [done|].
      simpl. apply lookup_insert_eq. }
    split; [done|]. intros w2.
    unfold RESTClient.GetDependencies. by rewrite Hhit.
Qed.

Lemma GetDependencies_memoizes_witness :
  ∃ c',
    PyPIClient.GetDependencies Sample.net "requests" "2.31.0"
      Sample.pypiClient = (inr Sample.requestsGraph, (c', tt))
    ∧ PyPIClient.cache c' !! "requests@2.31.0" = Some Sample.requestsGraph
    ∧ PyPIClient.GetDependencies Sample.net "requests" "2.31.0" (c', tt)
      = (inr Sample.requestsGraph, (c', tt)).
Proof.
  eassert (PyPIClient.GetDependencies Sample.net "requests" "2.31.0"
             Sample.pypiClient = (inr Sample.requestsGraph, (_, tt)))
    as Hget by (vm_compute; reflexivity).
  eexists. split; [exact Hget|].
  destruct (proj1 (GetDependencies_memoizes Sample.net "requests" "2.31.0")
              _ _ _ _ _ Hget) as [Hhit Hagain].
  split; [exact Hhit|exact (Hagain tt)].
Defined.

(** ** The old PyPI client and the generic client *)




(** ** What the client state keeps along a pass *)
Section Preserved.
Context {St : Type}.
Context (get : string → string → St → GraphResult * St).
Context (normName : string → string).
Context (build : string → string → DepsDevNode → Package).
Context (noDeps : Error).
Context (eligible : Package → bool).
Context (tagPlugins : list string → list string).
Context (P : St → Prop).
Hypothesis get_preserves : ∀ name version s, P s → P (get name version s).2.

Lemma resolve_fold_preserves path pkgMap order st :
  P st.2 →
  P (foldl (Engine.resolveEntry get normName build path pkgMap) st order).2.
Proof.
  revert st. induction order as [|name order IH]; intros st Hst; [done|].
  simpl. apply IH. destruct st as [[seen result] c]. simpl in *.
  destruct (pkgMap !! name) as [indexPkg|]; [|done].
  case_bool_decide; [done|].
  pose proof (get_preserves (Name (pkg indexPkg)) (Version (pkg indexPkg))
                c Hst) as Hc.
  by destruct (get _ _ c) as [[err|graph] c'].
Qed.

Lemma resolveGroup_preserves path pkgMap order c :
  P c →
  P (Engine.resolveGroup get normName build noDeps path pkgMap order c).2.
Proof.
  intros Hc. unfold Engine.resolveGroup.
  pose proof (resolve_fold_preserves path pkgMap order (∅, [], c) Hc) as H.
  destruct (foldl _ _ order) as [[seen result] c'].
  by destruct (_ && _).
Qed.

Lemma enrichLoop_preserves pkgGroups sched inv c inv' c' :
  P c →
  Engine.enrichLoop get normName build noDeps tagPlugins pkgGroups sched
    inv c = Some (inv', c') →
  P c'.
Proof.
  revert inv c. induction sched as [|[path order] sched IH];
    intros inv c Hc Hrun; simpl in Hrun; [by simplify_eq|].
  pose proof (resolveGroup_preserves path (default ∅ (pkgGroups !! path))
                order c Hc) as Hc1.
  destruct (Engine.resolveGroup _ _ _ _ _ _ _ _) as [[err|pkgs] c1];
    simpl in Hc1; [by eapply IH|].
  destruct (Engine.mergeLoop _ _ _ _) as [inv1|]; [by eapply IH|done].
Qed.

Lemma Enrich_preserves sched inv c inv' c' err :
  P c →
  Engine.Enrich get normName build noDeps eligible tagPlugins sched inv c
  = Some (inv', c', err) →
  P c'.
Proof.
  unfold Engine.Enrich. intros Hc Hrun.
  destruct (Engine.enrichLoop _ _ _ _ _ _ _ _ _) as [[inv1 c1]|] eqn:Hloop;
    [|done].
  simplify_eq. by eapply enrichLoop_preserves.
Qed.

End Preserved.

(** ** A pass in which no lookup returns a graph *)
Section Failing.
Context {St : Type}.
Context (get : string → string → St → GraphResult * St).
Context (normName : string → string).
Context (build : string → string → DepsDevNode → Package).
Context (noDeps : Error).
Context (eligible : Package → bool).
Context (tagPlugins : list string → list string).
Context (P : St → Prop).
Hypothesis get_fails : ∀ name version s,
  P s → ∃ err s', get name version s = (inl err, s') ∧ P s'.

Lemma resolve_fold_failing path pkgMap order seen result c :
  P c →
  ∃ c', foldl (Engine.resolveEntry get normName build path pkgMap)
          (seen, result, c) order = (seen, result, c')
        ∧ P c'.
Proof.
  revert c. induction order as [|name order IH]; intros c Hc;
    [by exists c|].
  simpl. destruct (pkgMap !! name) as [indexPkg|]; [|by apply IH].
  case_bool_decide; [by apply IH|].
  destruct (get_fails (Name (pkg indexPkg)) (Version (pkg indexPkg)) c Hc)
    as (err & c1 & -> & Hc1).
  by apply IH.
Qed.

Lemma enrichLoop_failing pkgGroups sched inv c :
  P c →
  ∃ c', Engine.enrichLoop get normName build noDeps tagPlugins pkgGroups
          sched inv c = Some (inv, c')
        ∧ P c'.
Proof.
  revert c. induction sched as [|[path order] sched IH]; intros c Hc;
    [by exists c|].
  simpl. unfold Engine.resolveGroup.
  destruct (resolve_fold_failing path (default ∅ (pkgGroups !! path)) order
              ∅ [] c Hc) as (c1 & -> & Hc1).
  simpl. destruct (bool_decide (0 < size _)); simpl; by apply IH.
Qed.

End Failing.

(** ** Inventories without an entry to group *)
Section NoGroups.
Context {St : Type}.
Context (get : string → string → St → GraphResult * St).
Context (normName : string → string).
Context (build : string → string → DepsDevNode → Package).
Context (noDeps : Error).
Context (eligible : Package → bool).
Context (tagPlugins : list string → list string).

Lemma groupLoop_nothing k i pkgGroups :
  Forall (λ p, eligible p = false ∨ Locations p = []) k →
  Engine.groupLoop eligible i k pkgGroups = pkgGroups.
Proof.
  intros Hall. revert i. induction Hall as [|p k Hp _ IH]; intros i; [done|].
  simpl. unfold Engine.groupStep at 1.
  destruct Hp as [-> | ->]; simpl; [apply IH|].
  destruct (eligible p); simpl; apply IH.
Qed.

Lemma resolve_fold_empty_map path order st :
  foldl (Engine.resolveEntry get normName build path ∅) st order = st.
Proof.
  induction order as [|name order IH]; [done|]. simpl.
  replace (Engine.resolveEntry get normName build path ∅ st name) with st;
    [apply IH|].
  unfold Engine.resolveEntry. destruct st as [[seen result] c].
  by rewrite lookup_empty.
Qed.

Lemma enrichLoop_no_groups sched inv c :
  Engine.enrichLoop get normName build noDeps tagPlugins ∅ sched inv c
  = Some (inv, c).
Proof.
  induction sched as [|[path order] sched IH]; [done|].
  simpl. unfold Engine.resolveGroup. rewrite lookup_empty. simpl.
  by rewrite resolve_fold_empty_map.
Qed.

Lemma Enrich_nothing_to_group sched inv c :
  Forall (λ p, eligible p = false ∨ Locations p = []) inv →
  Engine.Enrich get normName build noDeps eligible tagPlugins sched inv c
  = Some (inv, c, None).
Proof.
  intros Hall. unfold Engine.Enrich.
  by rewrite groupLoop_nothing, enrichLoop_no_groups.
Qed.

End NoGroups.

(** ** The cache along a pass *)

Lemma PyPIClient_keeps T name version c w r c' w' :
  PyPIClient.GetDependencies T name version (c, w) = (r, (c', w')) →
  PyPIClient.baseURL c' = PyPIClient.baseURL c
  ∧ ∀ k g, PyPIClient.cache c !! k = Some g →
           PyPIClient.cache c' !! k = Some g.
Proof.
  unfold PyPIClient.GetDependencies. intros H.
  repeat case_match; simplify_eq; simpl; (split; [done|]); try done.
  intros k g Hk. rewrite lookup_insert_ne; [done|]. congruence.
Qed.

Lemma RESTClient_keeps T name version c w r c' w' :
  RESTClient.GetDependencies T name version (c, w) = (r, (c', w')) →
  RESTClient.baseURL c' = RESTClient.baseURL c
  ∧ RESTClient.system c' = RESTClient.system c
  ∧ ∀ k g, RESTClient.cache c !! k = Some g →
           RESTClient.cache c' !! k = Some g.
Proof.
  unfold RESTClient.GetDependencies. intros H.
  repeat case_match; simplify_eq; simpl; (split_and!; [done..|]); try done.
  intros k g Hk. rewrite lookup_insert_ne; [done|]. congruence.
Qed.

(** X3: the cache is never evicted and the client's settings never change:
    after one GetDependencies call, and after a whole Enrich pass, the
    client has the base URL (and system) it had, and every graph that was
    cached is still cached under its key.  Both clients, both enrichers. *)
Theorem cache_never_evicts (T : Transport) :
  (∀ name version c w r c' w',
     PyPIClient.GetDependencies T name version (c, w) = (r, (c', w')) →
     PyPIClient.baseURL c' = PyPIClient.baseURL c
     ∧ ∀ k g, PyPIClient.cache c !! k = Some g →
              PyPIClient.cache c' !! k = Some g)
  ∧ (∀ sched inv c w inv' c' w' err,
       PyPI.Enrich T sched inv (c, w) = Some (inv', (c', w'), err) →
       PyPIClient.baseURL c' = PyPIClient.baseURL c
       ∧ ∀ k g, PyPIClient.cache c !! k = Some g →
                PyPIClient.cache c' !! k = Some g)
  ∧ (∀ name version c w r c' w',
       RESTClient.GetDependencies T name version (c, w) = (r, (c', w')) →
       RESTClient.baseURL c' = RESTClient.baseURL c
       ∧ RESTClient.system c' = RESTClient.system c
       ∧ ∀ k g, RESTClient.cache c !! k = Some g →
                RESTClient.cache c' !! k = Some g)
  ∧ (∀ sched inv c w inv' c' w' err,
       Maven.Enrich T sched inv (c, w) = Some (inv', (c', w'), err) →
       RESTClient.baseURL c' = RESTClient.baseURL c
       ∧ RESTClient.system c' = RESTClient.system c
       ∧ ∀ k g, RESTClient.cache c !! k = Some g →
                RESTClient.cache c' !! k = Some g).
Proof.
  split_and!.
  - apply PyPIClient_keeps.
  - intros sched inv c w inv' c' w' err Hrun. enrich_to_engine.
    apply (Enrich_preserves (PyPIClient.GetDependencies T) (ToLower T)
             pypiPackage ErrNoDependencies pypiEligible pypiTag
             (λ s, PyPIClient.baseURL s.1 = PyPIClient.baseURL c
                   ∧ ∀ k g, PyPIClient.cache c !! k = Some g →
                            PyPIClient.cache s.1 !! k = Some g))
      in Hrun; [done| |done].
    intros name version [c0 w0] [Hb Hc].
    destruct (PyPIClient.GetDependencies T name version (c0, w0))
      as [r [c1 w1]] eqn:Hget.
    apply PyPIClient_keeps in Hget as [Hb1 Hc1]. simpl in *.
    split; [congruence|]. intros k g Hk. by apply Hc1, Hc.
  - apply RESTClient_keeps.
  - intros sched inv c w inv' c' w' err Hrun. enrich_to_engine.
    apply (Enrich_preserves (RESTClient.GetDependencies T) (λ name, name)
             mavenPackage ErrNoMavenDependencies mavenEligible mavenTag
             (λ s, RESTClient.baseURL s.1 = RESTClient.baseURL c
                   ∧ RESTClient.system s.1 = RESTClient.system c
                   ∧ ∀ k g, RESTClient.cache c !! k = Some g →
                            RESTClient.cache s.1 !! k = Some g))
      in Hrun; [done| |done].
    intros name version [c0 w0] (Hb & Hs & Hc).
    destruct (RESTClient.GetDependencies T name version (c0, w0))
      as [r [c1 w1]] eqn:Hget.
    apply RESTClient_keeps in Hget as (Hb1 & Hs1 & Hc1). simpl in *.
    split_and!; [congruence..|]. intros k g Hk. by apply Hc1, Hc.
Qed.

Lemma cache_never_evicts_witness :
  let warm := PyPIClient.mkClient Sample.base
                (<["requests@2.31.0" := Sample.requestsGraph]> ∅) in
  ∃ inv' c',
    PyPI.Enrich Sample.net [("requirements.txt", ["left"; "right"])]
      [Sample.requirement "left" "1.0"; Sample.requirement "right" "1.0"]
      (warm, tt) = Some (inv', (c', tt), None)
    ∧ PyPIClient.cache warm !! "requests@2.31.0" = Some Sample.requestsGraph
    ∧ PyPIClient.cache c' !! "requests@2.31.0" = Some Sample.requestsGraph
    ∧ PyPIClient.cache c' !! "left@1.0" = Some Sample.leftGraph.
Proof.
  intros warm.
  eassert (PyPI.Enrich Sample.net [("requirements.txt", ["left"; "right"])]
             [Sample.requirement "left" "1.0";
              Sample.requirement "right" "1.0"] (warm, tt)
           = Some (_, (_, tt), None)) as Hrun by (vm_compute; reflexivity).
  assert (PyPIClient.cache warm !! "requests@2.31.0"
          = Some Sample.requestsGraph) as Hhit by (vm_compute; reflexivity).
  eexists _, _. split; [exact Hrun|]. split; [exact Hhit|].
  split; [|vm_compute; reflexivity].
  exact (proj2 (proj1 (proj2 (cache_never_evicts Sample.net))
                  _ _ _ _ _ _ _ _ Hrun) _ _ Hhit).
Defined.

(** ** Passes that change nothing *)

(** X4: an inventory in which no entry is both tagged by an accepted
    extractor and located (the empty inventory among them) makes Enrich
    return at once: for every visiting order the inventory, the client and
    the world come back as they were, and no lookup is made. *)
Theorem Enrich_nothing_to_do (T : Transport) (sched : Schedule)
    (inv : list Package) :
  (Forall (λ p, pypiEligible p = false ∨ Locations p = []) inv →
   ∀ c, PyPI.Enrich T sched inv c = Some (inv, c, None))
  ∧ (Forall (λ p, mavenEligible p = false ∨ Locations p = []) inv →
     ∀ c, Maven.Enrich T sched inv c = Some (inv, c, None)).
Proof.
  split; intros Hall c; enrich_to_engine; by apply Enrich_nothing_to_group.
Qed.

Lemma Enrich_nothing_to_do_witness :
  Forall (λ p, pypiEligible p = false ∨ Locations p = [])
    Sample.otherEcosystem
  ∧ PyPI.Enrich Sample.net [("package-lock.json", ["left-pad"])]
      Sample.otherEcosystem Sample.pypiClient
    = Some (Sample.otherEcosystem, Sample.pypiClient, None).
Proof.
  assert (Forall (λ p, pypiEligible p = false ∨ Locations p = [])
            Sample.otherEcosystem) as Hall.
  { repeat constructor. }
  split; [exact Hall|].
  exact (proj1 (Enrich_nothing_to_do Sample.net _ _) Hall _).
Defined.

(** X5: when the client's cache is empty and no exchange yields a 200
    response with a body that decodes (the network is down, the service
    answers with errors or with malformed bodies), a pass leaves the
    inventory and the client exactly as they were and returns nil; only
    the world may have moved. *)
Theorem Enrich_without_answers (T : Transport) (sched : Schedule)
    (inv : list Package) :
  (∀ url w body,
     (exchange T url w).1 = Response http_StatusOK body →
     Decode T body = None) →
  (∀ c w, PyPIClient.cache c = ∅ →
          ∃ w', PyPI.Enrich T sched inv (c, w) = Some (inv, (c, w'), None))
  ∧ (∀ c w, RESTClient.cache c = ∅ →
            ∃ w', Maven.Enrich T sched inv (c, w)
                  = Some (inv, (c, w'), None)).
Proof.
  intros Hdown. split; intros c w Hempty; enrich_to_engine;
    unfold Engine.Enrich.
  - assert (∀ name version (s : PyPI.ClientState T), s.1 = c →
              ∃ err s', PyPIClient.GetDependencies T name version s
                        = (inl err, s') ∧ s'.1 = c) as Hfail.
    { intros name version [c0 w0] Hc0. simpl in Hc0. subst c0.
      unfold PyPIClient.GetDependencies. rewrite Hempty, lookup_empty.
      pose proof (Hdown (PyPIClient.baseURL c
                         +:+ "/v3/systems/pypi/packages/"
                         +:+ PathEscape T name +:+ "/versions/"
                         +:+ PathEscape T version +:+ ":dependencies") w0)
        as Hx.
      destruct (exchange T _ w0) as [[| |code body] w1];
        [by eexists _, _..|].
      case_bool_decide as Hcode; [by eexists _, _|].
      subst code. rewrite (Hx body eq_refl). by eexists _, _. }
    destruct (enrichLoop_failing (PyPIClient.GetDependencies T) (ToLower T)
                pypiPackage ErrNoDependencies pypiTag (λ s, s.1 = c)
                Hfail (Engine.groupLoop pypiEligible 0 inv ∅) sched
                inv (c, w) eq_refl) as ([c' w'] & -> & Hc).
    simpl in Hc. subst c'. by exists w'.
  - assert (∀ name version (s : Maven.ClientState T), s.1 = c →
              ∃ err s', RESTClient.GetDependencies T name version s
                        = (inl err, s') ∧ s'.1 = c) as Hfail.
    { intros name version [c0 w0] Hc0. simpl in Hc0. subst c0.
      unfold RESTClient.GetDependencies. rewrite Hempty, lookup_empty.
      pose proof (Hdown (RESTClient.baseURL c +:+ "/v3/systems/"
                         +:+ RESTClient.system c +:+ "/packages/"
                         +:+ PathEscape T name +:+ "/versions/"
                         +:+ PathEscape T version +:+ ":dependencies") w0)
        as Hx.
      destruct (exchange T _ w0) as [[| |code body] w1];
        [by eexists _, _..|].
      case_bool_decide as Hcode; [by eexists _, _|].
      subst code. rewrite (Hx body eq_refl). by eexists _, _. }
    destruct (enrichLoop_failing (RESTClient.GetDependencies T)
                (λ name, name) mavenPackage ErrNoMavenDependencies mavenTag
                (λ s, s.1 = c) Hfail
                (Engine.groupLoop mavenEligible 0 inv ∅) sched
                inv (c, w) eq_refl) as ([c' w'] & -> & Hc).
    simpl in Hc. subst c'. by exists w'.
Qed.

Lemma offline_no_answer url w body :
  (exchange Sample.offline url w).1 = Response http_StatusOK body →
  Decode Sample.offline body = None.
Proof. intros _. reflexivity. Defined.

Lemma Enrich_without_answers_witness :
  PyPIClient.cache (PyPI.NewPyPIDepsDevEnricher Sample.base).1 = ∅
  ∧ ∃ w', PyPI.Enrich Sample.offline [("requirements.txt", ["requests"])]
            Sample.requestsOnly
            ((PyPI.NewPyPIDepsDevEnricher Sample.base).1, tt)
          = Some (Sample.requestsOnly,
                  ((PyPI.NewPyPIDepsDevEnricher Sample.base).1, w'), None).
Proof.
  split; [reflexivity|].
  exact (proj1 (Enrich_without_answers Sample.offline _ Sample.requestsOnly
                  offline_no_answer)
           (PyPI.NewPyPIDepsDevEnricher Sample.base).1 tt eq_refl).
Defined.

(** ** More on [resolveGroup] *)
Section ResolveMore.
Context {St : Type}.
Context (get : string → string → St → GraphResult * St).
Context (normName : string → string).
Context (build : string → string → DepsDevNode → Package).
Context (noDeps : Error).
Hypothesis build_Name : ∀ path name node, Name (build path name node) = name.
Hypothesis build_Version : ∀ path name node,
  Version (build path name node) = vkVersion (VersionKey node).

Let visit := Engine.visitNode normName build.
Let key := Engine.nodeKey normName.
Let entry := Engine.resolveEntry get normName build.
Let resolve := Engine.resolveGroup get normName build noDeps.
Let fetched := Engine.fetchedNodes get.

Lemma resolve_fold_pinned path pkgMap order st :
  foldl (entry path pkgMap) st order
  = foldl (entry path pkgMap) st
      (filter (λ name, pinned pkgMap name = true) order).
Proof.
  revert st. induction order as [|name order IH]; intros st; [done|].
  rewrite filter_cons.
  destruct (decide (pinned pkgMap name = true)) as [Hp|Hp]; simpl;
    [apply IH|].
  rewrite <- IH. f_equal.
  unfold entry, Engine.resolveEntry. destruct st as [[seen result] c].
  unfold pinned in Hp. destruct (pkgMap !! name) as [indexPkg|]; [|done].
  case_bool_decide; [done|]. by destruct Hp.
Qed.

Lemma resolveGroup_pinned path pkgMap order c :
  resolve path pkgMap order c
  = resolve path pkgMap (filter (λ name, pinned pkgMap name = true) order) c.
Proof.
  unfold resolve, Engine.resolveGroup. fold entry.
  by rewrite <- resolve_fold_pinned.
Qed.

(** Lookups that leave the state alone leave it alone along the loop. *)
Lemma resolve_fold_quiet path pkgMap order seen result c :
  (∀ name indexPkg,
     pkgMap !! name = Some indexPkg → Version (pkg indexPkg) ≠ "" →
     (get (Name (pkg indexPkg)) (Version (pkg indexPkg)) c).2 = c) →
  (foldl (entry path pkgMap) (seen, result, c) order).2 = c.
Proof.
  intros Hquiet. revert seen result.
  induction order as [|name order IH]; intros seen result; [done|].
  simpl. destruct (pkgMap !! name) as [indexPkg|] eqn:Hm; [|apply IH].
  case_bool_decide as Hv; [apply IH|].
  pose proof (Hquiet name indexPkg Hm Hv) as Hc.
  destruct (get _ _ c) as [[err|graph] c1]; simpl in Hc; subst c1;
    [apply IH|].
  destruct (foldl _ (seen, result) (Nodes graph)) as [seen' result'].
  apply IH.
Qed.

Lemma resolveGroup_quiet path pkgMap order c :
  (∀ name indexPkg,
     pkgMap !! name = Some indexPkg → Version (pkg indexPkg) ≠ "" →
     (get (Name (pkg indexPkg)) (Version (pkg indexPkg)) c).2 = c) →
  (resolve path pkgMap order c).2 = c.
Proof.
  intros Hquiet. unfold resolve, Engine.resolveGroup. fold entry.
  pose proof (resolve_fold_quiet path pkgMap order ∅ [] c Hquiet) as H.
  destruct (foldl _ _ order) as [[seen result] c1]. simpl in H. subst c1.
  by destruct (_ && _).
Qed.

(** The package emitted for a key is built from the first node, among
    those that are not SELF, that has the key. *)
Lemma visit_fold_first path nodes pre acc p :
  (∀ n, n ∈ pre → Relation n ≠ "SELF" →
        default false (acc.1 !! key n) = true) →
  p ∈ (foldl (visit path) acc nodes).2 →
  p ∈ acc.2
  ∨ ∃ before node after,
      nodes = before ++ node :: after
      ∧ Relation node ≠ "SELF"
      ∧ p = build path (normName (vkName (VersionKey node))) node
      ∧ ∀ n, n ∈ pre ++ before → Relation n ≠ "SELF" → key n ≠ key node.
Proof.
  revert pre acc. induction nodes as [|node0 nodes IH]; intros pre acc Hpre Hp;
    [by left|].
  simpl in Hp. destruct acc as [seen result].
  destruct (visit_cases normName build path seen result node0)
    as [[Heq Hskip]|(Heq & Hrel0 & Hnew)]; fold visit in Heq;
    rewrite Heq in Hp.
  - apply (IH (pre ++ [node0])) in Hp
      as [Hp|(before & node & after & -> & Hrel & -> & Hfirst)].
    + by left.
    + right. exists (node0 :: before), node, after. split_and!; [done..|].
      intros n Hn. apply Hfirst.
      rewrite <- app_assoc. simpl. done.
    + intros n [Hn| ->%list_elem_of_singleton]%elem_of_app Hrel;
        [by apply Hpre|].
      by destruct Hskip.
  - apply (IH (pre ++ [node0])) in Hp
      as [Hp|(before & node & after & -> & Hrel & -> & Hfirst)].
    + simpl in Hp. apply elem_of_app in Hp as [Hp|Hp]; [by left|].
      apply list_elem_of_singleton in Hp as ->.
      right. exists [], node0, nodes. split_and!; [done..|].
      rewrite app_nil_r. intros n Hn Hrel Hkey.
      specialize (Hpre n Hn Hrel). simpl in Hpre. fold key in Hnew.
      rewrite Hkey in Hpre. congruence.
    + right. exists (node0 :: before), node, after. split_and!; [done..|].
      intros n Hn. apply Hfirst.
      rewrite <- app_assoc. simpl. done.
    + intros n [Hn| ->%list_elem_of_singleton]%elem_of_app Hrel; simpl.
      * fold key. destruct (decide (key n = key node0)) as [->|Hne].
        -- by rewrite lookup_insert_eq.
        -- rewrite lookup_insert_ne by done. by apply Hpre.
      * fold key. by rewrite lookup_insert_eq.
Qed.

Lemma resolveGroup_first path pkgMap order c pkgs c' p :
  resolve path pkgMap order c = (inr pkgs, c') → p ∈ pkgs →
  ∃ before node after,
    fetched pkgMap order c = before ++ node :: after
    ∧ Relation node ≠ "SELF"
    ∧ p = build path (normName (vkName (VersionKey node))) node
    ∧ ∀ n, n ∈ before → Relation n ≠ "SELF" → key n ≠ key node.
Proof.
  intros ->%resolveGroup_result Hp.
  apply (visit_fold_first path _ []) in Hp as [Hp|Hp]; [|done|].
  - by apply elem_of_nil in Hp.
  - intros n Hn. by apply elem_of_nil in Hn.
Qed.

(** When the call fails, and when it returns nothing. *)
Lemma resolveGroup_cases path pkgMap order c :
  let result := (foldl (visit path) (∅, []) (fetched pkgMap order c)).2 in
  ∃ c', resolve path pkgMap order c
        = (if bool_decide (length result = 0)
              && bool_decide (0 < size pkgMap)
           then inl noDeps else inr result, c').
Proof.
  intros result. unfold resolve, Engine.resolveGroup.
  pose proof (resolve_fold_nodes get normName build path pkgMap order ∅ [] c)
    as Hfold.
  destruct (foldl (Engine.resolveEntry _ _ _ path pkgMap) _ order)
    as [[seen res] c1]. simpl in Hfold.
  exists c1. unfold result, visit, fetched. rewrite <- Hfold. simpl.
  by destruct (_ && _).
Qed.

Lemma visit_fold_all_SELF path nodes acc :
  (∀ node, node ∈ nodes → Relation node = "SELF") →
  foldl (visit path) acc nodes = acc.
Proof.
  revert acc. induction nodes as [|node nodes IH]; intros acc Hall; [done|].
  simpl. rewrite <- (IH acc) at 2
    by (intros n Hn; apply Hall; by right).
  f_equal. destruct acc as [seen result].
  unfold visit, Engine.visitNode.
  rewrite bool_decide_eq_true_2; [done|]. apply Hall. left.
Qed.

Lemma resolveGroup_fails_when path pkgMap order c :
  (∃ c', resolve path pkgMap order c = (inl noDeps, c'))
  ↔ pkgMap ≠ ∅
    ∧ ∀ node, node ∈ fetched pkgMap order c → Relation node = "SELF".
Proof.
  destruct (resolveGroup_cases path pkgMap order c) as [c1 Hres].
  split.
  - intros [c' Hfail]. split.
    + intros ->. rewrite Hres, map_size_empty, andb_false_r in Hfail.
      discriminate.
    + intros node Hin.
      by eapply (resolveGroup_error_no_nodes get normName build noDeps).
  - intros [Hne Hall]. exists c1. rewrite Hres.
    rewrite (visit_fold_all_SELF path _ _ Hall). simpl.
    rewrite bool_decide_eq_true_2; [done|].
    destruct (decide (size pkgMap = 0)) as [Hz|Hz]; [|lia].
    by apply map_size_empty_iff in Hz.
Qed.

Lemma resolveGroup_error_value path pkgMap order c err c' :
  resolve path pkgMap order c = (inl err, c') → err = noDeps.
Proof.
  destruct (resolveGroup_cases path pkgMap order c) as [c1 Hres].
  rewrite Hres. destruct (_ && _); by intros [= <- _].
Qed.

Lemma resolveGroup_empty_success path pkgMap order c :
  (∃ c', resolve path pkgMap order c = (inr [], c')) ↔ pkgMap = ∅.
Proof.
  destruct (resolveGroup_cases path pkgMap order c) as [c1 Hres].
  split.
  - intros [c' Hempty]. rewrite Hres in Hempty.
    destruct (bool_decide (length _ = 0)) eqn:Hlen; simpl in Hempty.
    + case_bool_decide as Hsize; [done|].
      apply map_size_empty_iff. lia.
    + injection Hempty as Hnil _. rewrite Hnil in Hlen.
      by rewrite bool_decide_eq_true_2 in Hlen.
  - intros ->. exists c.
    unfold resolve, Engine.resolveGroup.
    by rewrite (resolve_fold_empty_map get normName build).
Qed.

End ResolveMore.

(** X6: resolveGroup makes no lookup for the packages of the group that
    have no version: the result and the client it returns are those of the
    same call on the visiting order restricted to the pinned packages. *)
Theorem resolveGroup_looks_up_pinned_only (T : Transport) (path : string)
    (pkgMap : gmap string packageWithIndex) (order : list string) :
  (∀ c, PyPI.resolveGroup T path pkgMap order c
        = PyPI.resolveGroup T path pkgMap
            (filter (λ name, pinned pkgMap name = true) order) c)
  ∧ (∀ c, Maven.resolveGroup T path pkgMap order c
          = Maven.resolveGroup T path pkgMap
              (filter (λ name, pinned pkgMap name = true) order) c).
Proof.
  split; intros c; to_engine; apply resolveGroup_pinned.
Qed.

(** X7: when the cache holds a graph for every pinned package of the
    group, resolveGroup makes no request: the client and the world come
    back as they were. *)
Theorem resolveGroup_warm_cache (T : Transport) (path : string)
    (pkgMap : gmap string packageWithIndex) (order : list string) :
  (∀ c w,
     (∀ name indexPkg,
        pkgMap !! name = Some indexPkg → Version (pkg indexPkg) ≠ "" →
        is_Some (PyPIClient.cache c
                   !! (Name (pkg indexPkg) +:+ "@"
                       +:+ Version (pkg indexPkg)))) →
     (PyPI.resolveGroup T path pkgMap order (c, w)).2 = (c, w))
  ∧ (∀ c w,
       (∀ name indexPkg,
          pkgMap !! name = Some indexPkg → Version (pkg indexPkg) ≠ "" →
          is_Some (RESTClient.cache c
                     !! (RESTClient.system c +:+ "/"
                         +:+ Name (pkg indexPkg) +:+ "@"
                         +:+ Version (pkg indexPkg)))) →
       (Maven.resolveGroup T path pkgMap order (c, w)).2 = (c, w)).
Proof.
  split; intros c w Hwarm; to_engine; apply resolveGroup_quiet;
    intros name indexPkg Hm Hv;
    destruct (Hwarm name indexPkg Hm Hv) as [graph Hhit].
  - unfold PyPIClient.GetDependencies. by rewrite Hhit.
  - unfold RESTClient.GetDependencies. by rewrite Hhit.
Qed.

Lemma resolveGroup_warm_cache_witness :
  let warm := PyPIClient.mkClient Sample.base
                (<["requests@2.31.0" := Sample.requestsGraph]> ∅) in
  let group : gmap string packageWithIndex :=
    <["requests" := mkPWI (Sample.requirement "requests" "2.31.0") 0]> ∅ in
  (∀ name indexPkg,
     group !! name = Some indexPkg → Version (pkg indexPkg) ≠ "" →
     is_Some (PyPIClient.cache warm
                !! (Name (pkg indexPkg) +:+ "@" +:+ Version (pkg indexPkg))))
  ∧ (PyPI.resolveGroup Sample.offline "requirements.txt" group ["requests"]
       (warm, tt)).2 = (warm, tt).
Proof.
  intros warm group.
  assert (∀ name indexPkg,
            group !! name = Some indexPkg → Version (pkg indexPkg) ≠ "" →
            is_Some (PyPIClient.cache warm
                       !! (Name (pkg indexPkg) +:+ "@"
                           +:+ Version (pkg indexPkg)))) as Hwarm.
  { intros name indexPkg [[_ <-]|[_ H]]%lookup_insert_Some _.
    - exists Sample.requestsGraph. vm_compute. reflexivity.
    - by rewrite lookup_empty in H. }
  split; [exact Hwarm|].
  exact (proj1 (resolveGroup_warm_cache Sample.offline "requirements.txt"
                  group ["requests"]) warm tt Hwarm).
Defined.

(** X8: first one wins.  Every package that resolveGroup emits is built
    from the first of the fetched nodes, in visiting order, that is not
    SELF and has the package's dedup key: no node before it that is not
    SELF has the same key. *)
Theorem resolveGroup_first_wins (T : Transport) (path : string)
    (pkgMap : gmap string packageWithIndex) (order : list string) :
  (∀ c pkgs c' p,
     PyPI.resolveGroup T path pkgMap order c = (inr pkgs, c') → p ∈ pkgs →
     ∃ before node after,
       Engine.fetchedNodes (PyPIClient.GetDependencies T) pkgMap order c
       = before ++ node :: after
       ∧ Relation node ≠ "SELF"
       ∧ p = pypiPackage path (ToLower T (vkName (VersionKey node))) node
       ∧ ∀ n, n ∈ before → Relation n ≠ "SELF" →
              Engine.nodeKey (ToLower T) n ≠ Engine.nodeKey (ToLower T) node)
  ∧ (∀ c pkgs c' p,
       Maven.resolveGroup T path pkgMap order c = (inr pkgs, c') →
       p ∈ pkgs →
       ∃ before node after,
         Engine.fetchedNodes (RESTClient.GetDependencies T) pkgMap order c
         = before ++ node :: after
         ∧ Relation node ≠ "SELF"
         ∧ p = mavenPackage path (vkName (VersionKey node)) node
         ∧ ∀ n, n ∈ before → Relation n ≠ "SELF" →
                Engine.nodeKey (λ name, name) n
                ≠ Engine.nodeKey (λ name, name) node).
Proof.
  split; intros c pkgs c' p Hres Hp; to_engine.
  - by eapply resolveGroup_first.
  - by eapply (resolveGroup_first _ (λ name, name) mavenPackage).
Qed.

Lemma resolveGroup_first_wins_witness :
  ∃ pkgs c' before node after,
    Maven.resolveGroup Sample.net "pom.xml" Sample.twoDirectMaven
      ["left"; "right"] Sample.mavenClient = (inr pkgs, c')
    ∧ mavenPackage "pom.xml" "shared" (Sample.node "shared" "3.1" "DIRECT")
      ∈ pkgs
    ∧ Engine.fetchedNodes (RESTClient.GetDependencies Sample.net)
        Sample.twoDirectMaven ["left"; "right"] Sample.mavenClient
      = before ++ node :: after
    ∧ mavenPackage "pom.xml" "shared" (Sample.node "shared" "3.1" "DIRECT")
      = mavenPackage "pom.xml" (vkName (VersionKey node)) node.
Proof.
  eassert (Maven.resolveGroup Sample.net "pom.xml" Sample.twoDirectMaven
             ["left"; "right"] Sample.mavenClient = (inr _, _)) as Hres
    by (vm_compute; reflexivity).
  match type of Hres with
  | _ = (inr ?l, _) =>
      assert (mavenPackage "pom.xml" "shared"
                (Sample.node "shared" "3.1" "DIRECT") ∈ l) as Hp by in_list
  end.
  destruct (proj2 (resolveGroup_first_wins Sample.net "pom.xml"
                     Sample.twoDirectMaven ["left"; "right"])
              _ _ _ _ Hres Hp)
    as (before & node & after & Hsplit & _ & Hbuilt & _).
  eexists _, _, before, node, after.
  split; [exact Hres|]. split; [exact Hp|]. split; [exact Hsplit|exact Hbuilt].
Defined.

(** X9: the outcomes of resolveGroup.  The call fails exactly when the
    group is not empty and every fetched node is SELF (in particular when
    nothing was fetched); the error is then the no-dependencies error of
    the enricher.  It returns an empty list without error exactly when the
    group itself is empty. *)
Theorem resolveGroup_outcomes (T : Transport) (path : string)
    (pkgMap : gmap string packageWithIndex) (order : list string) :
  (∀ c,
     ((∃ c', PyPI.resolveGroup T path pkgMap order c
             = (inl ErrNoDependencies, c'))
      ↔ pkgMap ≠ ∅
        ∧ ∀ node,
            node ∈ Engine.fetchedNodes (PyPIClient.GetDependencies T)
                     pkgMap order c →
            Relation node = "SELF")
     ∧ (∀ err c', PyPI.resolveGroup T path pkgMap order c = (inl err, c') →
                  err = ErrNoDependencies)
     ∧ ((∃ c', PyPI.resolveGroup T path pkgMap order c = (inr [], c'))
        ↔ pkgMap = ∅))
  ∧ (∀ c,
       ((∃ c', Maven.resolveGroup T path pkgMap order c
               = (inl ErrNoMavenDependencies, c'))
        ↔ pkgMap ≠ ∅
          ∧ ∀ node,
              node ∈ Engine.fetchedNodes (RESTClient.GetDependencies T)
                       pkgMap order c →
              Relation node = "SELF")
       ∧ (∀ err c',
            Maven.resolveGroup T path pkgMap order c = (inl err, c') →
            err = ErrNoMavenDependencies)
       ∧ ((∃ c', Maven.resolveGroup T path pkgMap order c = (inr [], c'))
          ↔ pkgMap = ∅)).
Proof.
  split; intros c; to_engine; split_and!.
  - apply resolveGroup_fails_when;
      [apply pypiPackage_Name|apply pypiPackage_Version].
  - intros err c'. apply resolveGroup_error_value.
  - apply resolveGroup_empty_success.
  - apply (resolveGroup_fails_when _ (λ name, name) mavenPackage);
      [apply mavenPackage_Name|apply mavenPackage_Version].
  - intros err c'. apply resolveGroup_error_value.
  - apply resolveGroup_empty_success.
Qed.

Lemma resolveGroup_outcomes_witness :
  Sample.unpinned ≠ ∅
  ∧ (∀ node,
       node ∈ Engine.fetchedNodes (PyPIClient.GetDependencies Sample.net)
                Sample.unpinned ["requests"] Sample.pypiClient →
       Relation node = "SELF")
  ∧ ∃ c', PyPI.resolveGroup Sample.net "requirements.txt" Sample.unpinned
            ["requests"] Sample.pypiClient = (inl ErrNoDependencies, c').
Proof.
  assert (Sample.unpinned ≠ ∅) as Hne.
  { unfold Sample.unpinned. apply insert_non_empty. }
  assert (∀ node,
            node ∈ Engine.fetchedNodes (PyPIClient.GetDependencies Sample.net)
                     Sample.unpinned ["requests"] Sample.pypiClient →
            Relation node = "SELF") as Hall.
  { intros node Hin. vm_compute in Hin. by apply elem_of_nil in Hin. }
  split; [exact Hne|]. split; [exact Hall|].
  exact (proj2 (proj1 (proj1 (resolveGroup_outcomes Sample.net
                                "requirements.txt" Sample.unpinned
                                ["requests"]) Sample.pypiClient))
           (conj Hne Hall)).
Defined.

(** ** Maven coordinates *)

Lemma split_first_colon s :
  occurs ":" s = true →
  ∃ g a, s = g +:+ ":" +:+ a ∧ occurs ":" g = false.
Proof.
  induction s as [|c s IH]; simpl; [done|].
  case_bool_decide as Hc; simpl.
  - intros _. subst c. by exists "", s.
  - intros (g & a & -> & Hg)%IH. exists (String c g), a.
    split; [done|]. simpl. by rewrite bool_decide_eq_false_2.
Qed.

(** X10: the Maven metadata and the name determine each other.  Every
    package that the Maven resolveGroup emits carries metadata; when the
    name holds a colon, the name is GroupID, ":", ArtifactID, with no
    colon in GroupID; when it holds none, GroupID is the whole name and
    ArtifactID is empty. *)
Theorem maven_coordinates (T : Transport) (path : string)
    (pkgMap : gmap string packageWithIndex) (order : list string)
    (c : Maven.ClientState T) (pkgs : list Package)
    (c' : Maven.ClientState T) (p : Package) :
  Maven.resolveGroup T path pkgMap order c = (inr pkgs, c') → p ∈ pkgs →
  ∃ md,
    PkgMetadata p = Some md
    ∧ (occurs ":" (Name p) = true →
       Name p = GroupID md +:+ ":" +:+ ArtifactID md
       ∧ occurs ":" (GroupID md) = false)
    ∧ (occurs ":" (Name p) = false →
       GroupID md = Name p ∧ ArtifactID md = "").
Proof.
  intros Hres Hp. to_engine.
  eapply (resolveGroup_origin _ (λ name, name) mavenPackage) in Hres
    as (node & _ & _ & ->); [|done].
  rewrite mavenPackage_Name. unfold mavenPackage.
  destruct (occurs ":" (vkName (VersionKey node))) eqn:Hocc.
  - destruct (split_first_colon _ Hocc) as (g & a & Hname & Hg).
    rewrite Hname, (Cut_first_colon g a Hg). eexists. split; [done|].
    split; [|done]. by intros _.
  - rewrite (Cut_no_colon _ Hocc). eexists. split; [done|].
    split; [done|]. by intros _.
Qed.

Lemma maven_coordinates_witness :
  ∃ pkgs c' md,
    Maven.resolveGroup Sample.net "pom.xml" Sample.commonsGroup
      ["org.apache:commons"] Sample.mavenClient = (inr pkgs, c')
    ∧ PkgMetadata (mavenPackage "pom.xml" "org.apache:commons-io"
                     (Sample.node "org.apache:commons-io" "2.5" "INDIRECT"))
      = Some md
    ∧ "org.apache:commons-io" = GroupID md +:+ ":" +:+ ArtifactID md.
Proof.
  eassert (Maven.resolveGroup Sample.net "pom.xml" Sample.commonsGroup
             ["org.apache:commons"] Sample.mavenClient = (inr _, _)) as Hres
    by (vm_compute; reflexivity).
  destruct (maven_coordinates Sample.net _ _ _ _ _ _
              (mavenPackage "pom.xml" "org.apache:commons-io"
                 (Sample.node "org.apache:commons-io" "2.5" "INDIRECT"))
              Hres ltac:(in_list)) as (md & Hmd & Hcolon & _).
  eexists _, _, md. split; [exact Hres|]. split; [exact Hmd|].
  exact (proj1 (Hcolon eq_refl)).
Defined.

(** ** The grouping loop *)
Section GroupMore.
Context (eligible : Package → bool).

Lemma in_slot_cases p :
  (∀ path name, ¬ in_slot eligible path name p)
  ∨ ∃ path0 locs,
      eligible p = true ∧ Locations p = path0 :: locs
      ∧ ∀ path name,
          in_slot eligible path name p ↔ path = path0 ∧ name = Name p.
Proof.
  unfold in_slot. destruct (eligible p) eqn:Hel.
  - destruct (Locations p) as [|path0 locs] eqn:Hloc.
    + left. intros path name (_ & Hhead & _). done.
    + right. exists path0, locs. split_and!; [done..|].
      intros path name. simpl. split.
      * by intros (_ & [= ->] & <-).
      * by intros [-> ->].
  - left. intros path name (Hel' & _). done.
Qed.

Lemma last_in_slot_snoc_other pre p path name indexPkg :
  ¬ in_slot eligible path name p →
  last_in_slot eligible pre path name indexPkg
  ↔ last_in_slot eligible (pre ++ [p]) path name indexPkg.
Proof.
  intros Hp. unfold last_in_slot. split.
  - intros (Hat & Hslot & Hlast). split_and!; [|done|].
    + by apply lookup_app_l_Some.
    + intros j q Hj [Hq|[-> ->]]%lookup_snoc_Some; [|done].
      destruct Hq as [_ Hq]. by eapply Hlast.
  - intros (Hat & Hslot & Hlast).
    apply lookup_snoc_Some in Hat as [[_ Hat]|[_ Heq]];
      [|by rewrite <- Heq in Hslot].
    split_and!; [done..|].
    intros j q Hj Hq. eapply Hlast; [done|]. by apply lookup_app_l_Some.
Qed.

Lemma groupStep_char pre pkgGroups p :
  (∀ path name indexPkg,
     default ∅ (pkgGroups !! path) !! name = Some indexPkg
     ↔ last_in_slot eligible pre path name indexPkg) →
  ∀ path name indexPkg,
    default ∅ (Engine.groupStep eligible pkgGroups (length pre) p !! path)
      !! name = Some indexPkg
    ↔ last_in_slot eligible (pre ++ [p]) path name indexPkg.
Proof.
  intros Hchar path name indexPkg. unfold Engine.groupStep.
  destruct (in_slot_cases p) as [Hnone|(path0 & locs & Hel & Hloc & Hslot)].
  - assert (default ∅
              ((if negb (eligible p) then pkgGroups
                else match Locations p with
                     | [] => pkgGroups
                     | path1 :: _ =>
                         <[path1 := <[Name p := mkPWI p (length pre)]>
                                      (default ∅ (pkgGroups !! path1))]>
                           pkgGroups
                     end) !! path) !! name
            = default ∅ (pkgGroups !! path) !! name) as ->.
    { destruct (eligible p) eqn:Hel; simpl; [|done].
      destruct (Locations p) as [|path1 locs] eqn:Hloc; [done|].
      destruct (Hnone path1 (Name p)). unfold in_slot. by rewrite Hloc. }
    rewrite Hchar. by apply last_in_slot_snoc_other.
  - rewrite Hel, Hloc. simpl.
    destruct (decide (path = path0 ∧ name = Name p)) as [[-> ->]|Hother].
    + rewrite lookup_insert_eq. simpl. rewrite lookup_insert_eq.
      unfold last_in_slot. split.
      * intros [= <-]. simpl. split_and!.
        -- by apply list_lookup_middle.
        -- by apply Hslot.
        -- intros j q Hj Hq. apply lookup_lt_Some in Hq.
           rewrite length_app in Hq. simpl in Hq. lia.
      * intros (Hat & _ & Hlast).
        apply lookup_snoc_Some in Hat as [[Hlt Hat]|[Hidx Heq]].
        -- destruct (Hlast (length pre) p Hlt); [|by apply Hslot].
           by apply list_lookup_middle.
        -- destruct indexPkg as [q j]. simpl in *. by subst.
    + assert (default ∅
                (<[path0 := <[Name p := mkPWI p (length pre)]>
                              (default ∅ (pkgGroups !! path0))]> pkgGroups
                   !! path) !! name
              = default ∅ (pkgGroups !! path) !! name) as ->.
      { destruct (decide (path = path0)) as [->|Hpath].
        - rewrite lookup_insert_eq. simpl.
          rewrite lookup_insert_ne; [done|]. intros Heq. by apply Hother.
        - by rewrite lookup_insert_ne. }
      rewrite Hchar. apply last_in_slot_snoc_other.
      intros Hin. by apply Hslot in Hin.
Qed.

Lemma groupLoop_char pkgs pre pkgGroups :
  (∀ path name indexPkg,
     default ∅ (pkgGroups !! path) !! name = Some indexPkg
     ↔ last_in_slot eligible pre path name indexPkg) →
  ∀ path name indexPkg,
    default ∅ (Engine.groupLoop eligible (length pre) pkgs pkgGroups !! path)
      !! name = Some indexPkg
    ↔ last_in_slot eligible (pre ++ pkgs) path name indexPkg.
Proof.
  revert pre pkgGroups.
  induction pkgs as [|p pkgs IH]; intros pre pkgGroups Hchar.
  { by rewrite app_nil_r. }
  simpl. intros path name indexPkg.
  replace (pre ++ p :: pkgs) with ((pre ++ [p]) ++ pkgs)
    by (by rewrite <- app_assoc).
  replace (S (length pre)) with (length (pre ++ [p]))
    by (rewrite length_app; simpl; lia).
  apply IH. by apply groupStep_char.
Qed.

Lemma groups_char inv path name indexPkg :
  default ∅ (Engine.groupLoop eligible 0 inv ∅ !! path) !! name
  = Some indexPkg
  ↔ last_in_slot eligible inv path name indexPkg.
Proof.
  apply (groupLoop_char inv []).
  intros path' name' indexPkg'. rewrite lookup_empty. simpl.
  rewrite lookup_empty. unfold last_in_slot. split; [done|].
  by intros [? _].
Qed.

(** No group is empty. *)
Lemma groupLoop_nonempty pkgs i pkgGroups :
  (∀ path pkgMap, pkgGroups !! path = Some pkgMap → pkgMap ≠ ∅) →
  ∀ path pkgMap,
    Engine.groupLoop eligible i pkgs pkgGroups !! path = Some pkgMap →
    pkgMap ≠ ∅.
Proof.
  revert i pkgGroups. induction pkgs as [|p pkgs IH];
    intros i pkgGroups Hne; [done|].
  simpl. apply IH. unfold Engine.groupStep.
  destruct (negb (eligible p)); [done|].
  destruct (Locations p) as [|path0 locs]; [done|].
  intros path pkgMap [[_ <-]|[_ H]]%lookup_insert_Some; [|by eapply Hne].
  apply insert_non_empty.
Qed.

Lemma groups_nonempty inv path pkgMap :
  Engine.groupLoop eligible 0 inv ∅ !! path = Some pkgMap → pkgMap ≠ ∅.
Proof.
  apply groupLoop_nonempty. intros p m H. by rewrite lookup_empty in H.
Qed.

(** Every entry that is written to a slot leaves the slot filled, by
    itself or by a later entry. *)
Lemma slot_filled inv i p path name :
  inv !! i = Some p → in_slot eligible path name p →
  ∃ indexPkg,
    last_in_slot eligible inv path name indexPkg ∧ i ≤ index indexPkg.
Proof.
  revert i p. induction inv as [|q inv IH] using rev_ind; intros i p Hi Hp.
  { done. }
  apply lookup_snoc_Some in Hi as [[Hlt Hi]|[-> ->]].
  - destruct (IH i p Hi Hp) as (indexPkg & Hlast & Hle).
    destruct (in_slot_cases q) as [Hnone|(path0 & locs & _ & _ & Hslot)].
    + exists indexPkg. split; [|done].
      by apply last_in_slot_snoc_other.
    + destruct (decide (path = path0 ∧ name = Name q)) as [[-> ->]|Hother].
      * exists (mkPWI q (length inv)). simpl. split; [|lia].
        unfold last_in_slot. simpl. split_and!.
        -- by apply list_lookup_middle.
        -- by apply Hslot.
        -- intros j r Hj Hr. apply lookup_lt_Some in Hr.
           rewrite length_app in Hr. simpl in Hr. lia.
      * exists indexPkg. split; [|done].
        apply last_in_slot_snoc_other; [|done].
        intros Hin. by apply Hslot in Hin.
  - exists (mkPWI p (length inv)). simpl. split; [|done].
    unfold last_in_slot. simpl. split_and!; [|done|].
    + by apply list_lookup_middle.
    + intros j r Hj Hr. apply lookup_lt_Some in Hr.
      rewrite length_app in Hr. simpl in Hr. lia.
Qed.

End GroupMore.

Lemma slices_Contains_elem_of l x : slices_Contains l x = true ↔ x ∈ l.
Proof.
  induction l as [|y l IH]; simpl.
  - split; [done|]. intros H. by apply elem_of_nil in H.
  - rewrite orb_true_iff, bool_decide_eq_true, IH, elem_of_cons.
    split; intros [?|?]; auto.
Qed.

(** X11: the grouping loop of Enrich, last write wins.  The group of a path
    holds a package with an index under a name exactly when the inventory
    entry at that index is that package, the entry is tagged by an accepted
    extractor, has the path as its first location and has that name, and
    no later entry of the inventory is tagged, located and named so. *)
Theorem groups_last_write_wins (inv : list Package) (path name : string)
    (indexPkg : packageWithIndex) :
  (default ∅ (PyPI.groupLoop 0 inv ∅ !! path) !! name = Some indexPkg
   ↔ last_in_slot pypiEligible inv path name indexPkg)
  ∧ (default ∅ (Maven.groupLoop 0 inv ∅ !! path) !! name = Some indexPkg
     ↔ last_in_slot mavenEligible inv path name indexPkg).
Proof.
  split; enrich_to_engine; apply groups_char.
Qed.

Lemma groups_last_write_wins_witness :
  let twice := [Sample.requirement "flask" "1.0";
                Sample.requirement "flask" "2.0"] in
  default ∅ (PyPI.groupLoop 0 twice ∅ !! "requirements.txt") !! "flask"
  = Some (mkPWI (Sample.requirement "flask" "2.0") 1)
  ∧ last_in_slot pypiEligible twice "requirements.txt" "flask"
      (mkPWI (Sample.requirement "flask" "2.0") 1).
Proof.
  intros twice.
  assert (default ∅ (PyPI.groupLoop 0 twice ∅ !! "requirements.txt")
            !! "flask" = Some (mkPWI (Sample.requirement "flask" "2.0") 1))
    as Hrec by (vm_compute; reflexivity).
  split; [exact Hrec|].
  exact (proj1 (proj1 (groups_last_write_wins twice "requirements.txt"
                         "flask" _)) Hrec).
Defined.

(** X12: a group exists for a path exactly when some entry tagged by an
    accepted extractor has the path as its first location, and no group is
    empty.  So on the groups that Enrich builds, resolveGroup never
    returns an empty list without error: a group for which nothing is
    emitted is always reported as failed. *)
Theorem groups_are_nonempty (T : Transport) (inv : list Package)
    (path : string) :
  ((is_Some (PyPI.groupLoop 0 inv ∅ !! path)
    ↔ ∃ i p, inv !! i = Some p ∧ pypiEligible p = true
             ∧ head (Locations p) = Some path)
   ∧ ∀ pkgMap,
       PyPI.groupLoop 0 inv ∅ !! path = Some pkgMap →
       pkgMap ≠ ∅
       ∧ ∀ order c c',
           PyPI.resolveGroup T path pkgMap order c ≠ (inr [], c'))
  ∧ ((is_Some (Maven.groupLoop 0 inv ∅ !! path)
      ↔ ∃ i p, inv !! i = Some p ∧ mavenEligible p = true
               ∧ head (Locations p) = Some path)
     ∧ ∀ pkgMap,
         Maven.groupLoop 0 inv ∅ !! path = Some pkgMap →
         pkgMap ≠ ∅
         ∧ ∀ order c c',
             Maven.resolveGroup T path pkgMap order c ≠ (inr [], c')).
Proof.
  assert (∀ eligible,
            is_Some (Engine.groupLoop eligible 0 inv ∅ !! path)
            ↔ ∃ i p, inv !! i = Some p ∧ eligible p = true
                     ∧ head (Locations p) = Some path) as Hexists.
  { intros eligible. split.
    - intros [pkgMap Hg].
      pose proof (groups_nonempty eligible inv path pkgMap Hg) as Hne.
      apply map_choose in Hne as (name & indexPkg & Hm).
      assert (default ∅ (Engine.groupLoop eligible 0 inv ∅ !! path) !! name
              = Some indexPkg) as Hrec by (by rewrite Hg).
      apply groups_char in Hrec as (Hat & (Hel & Hhead & _) & _).
      by exists (index indexPkg), (pkg indexPkg).
    - intros (i & p & Hi & Hel & Hhead).
      destruct (slot_filled eligible inv i p path (Name p) Hi)
        as (indexPkg & Hlast & _); [done|].
      apply groups_char in Hlast.
      destruct (Engine.groupLoop eligible 0 inv ∅ !! path); [done|].
      simpl in Hlast. by rewrite lookup_empty in Hlast. }
  split; (split; [enrich_to_engine; apply Hexists|]);
    intros pkgMap Hg; enrich_to_engine;
    pose proof (groups_nonempty _ inv path pkgMap Hg) as Hne;
    (split; [done|]); intros order c c' Hres; to_engine;
    apply Hne; eapply resolveGroup_empty_success; by exists c'.
Qed.

Lemma groups_are_nonempty_witness :
  ∃ pkgMap,
    PyPI.groupLoop 0 Sample.requestsOnly ∅ !! "requirements.txt"
    = Some pkgMap
    ∧ pkgMap ≠ ∅
    ∧ PyPI.resolveGroup Sample.offline "requirements.txt" pkgMap
        ["requests"] Sample.pypiClient ≠ (inr [], Sample.pypiClient).
Proof.
  eassert (PyPI.groupLoop 0 Sample.requestsOnly ∅ !! "requirements.txt"
           = Some _) as Hg by (vm_compute; reflexivity).
  eexists. split; [exact Hg|].
  destruct (proj2 (proj1 (groups_are_nonempty Sample.offline
                            Sample.requestsOnly "requirements.txt"))
              _ Hg) as [Hne Hres].
  split; [exact Hne|apply Hres].
Defined.

(** X13: the plugins that an enricher requires are accepted by its own
    grouping loop, and its own name is not.  An inventory entry tagged by
    a required plugin and having a location is represented in the groups:
    the group of its first location holds, under the entry's name, that
    entry or a later one with the same slot.  A package tagged by the
    enricher alone is never grouped. *)
Theorem required_plugins_are_grouped (inv : list Package) (i : nat)
    (p : Package) (path : string) (locs : list string) :
  inv !! i = Some p → Locations p = path :: locs →
  ((∃ r, r ∈ PyPI.RequiredPlugins ∧ r ∈ Plugins p) →
   ∃ indexPkg,
     default ∅ (PyPI.groupLoop 0 inv ∅ !! path) !! Name p = Some indexPkg
     ∧ i ≤ index indexPkg
     ∧ inv !! index indexPkg = Some (pkg indexPkg)
     ∧ Name (pkg indexPkg) = Name p)
  ∧ ((∃ r, r ∈ Maven.RequiredPlugins ∧ r ∈ Plugins p) →
     ∃ indexPkg,
       default ∅ (Maven.groupLoop 0 inv ∅ !! path) !! Name p = Some indexPkg
       ∧ i ≤ index indexPkg
       ∧ inv !! index indexPkg = Some (pkg indexPkg)
       ∧ Name (pkg indexPkg) = Name p)
  ∧ (∀ q, Plugins q = [PyPI.Name] → pypiEligible q = false)
  ∧ (∀ q, Plugins q = [Maven.Name] → mavenEligible q = false).
Proof.
  intros Hi Hloc.
  assert (∀ eligible, eligible p = true →
            ∃ indexPkg,
              default ∅ (Engine.groupLoop eligible 0 inv ∅ !! path) !! Name p
              = Some indexPkg
              ∧ i ≤ index indexPkg
              ∧ inv !! index indexPkg = Some (pkg indexPkg)
              ∧ Name (pkg indexPkg) = Name p) as Hgrouped.
  { intros eligible Hel.
    destruct (slot_filled eligible inv i p path (Name p) Hi)
      as (indexPkg & Hlast & Hle).
    { unfold in_slot. by rewrite Hloc. }
    exists indexPkg. split; [by apply groups_char|].
    destruct Hlast as (Hat & (_ & _ & Hname) & _). done. }
  split_and!.
  - intros (r & Hr & Hin). enrich_to_engine. apply Hgrouped.
    apply list_elem_of_singleton in Hr as ->.
    by apply slices_Contains_elem_of.
  - intros (r & Hr & Hin). enrich_to_engine. apply Hgrouped.
    apply list_elem_of_singleton in Hr as ->.
    unfold mavenEligible. apply existsb_exists.
    exists pomxmlEnhanceableName. split; [by apply list_elem_of_In|done].
  - intros q Hq. unfold pypiEligible. rewrite Hq. vm_compute. reflexivity.
  - intros q Hq. unfold mavenEligible. rewrite Hq. vm_compute. reflexivity.
Qed.

Lemma required_plugins_are_grouped_witness :
  ∃ indexPkg,
    default ∅ (PyPI.groupLoop 0 Sample.withUrllib3 ∅ !! "requirements.txt")
      !! "urllib3" = Some indexPkg
    ∧ 1 ≤ index indexPkg.
Proof.
  destruct (proj1 (required_plugins_are_grouped Sample.withUrllib3 1
                     (Sample.requirement "urllib3" "1.26.0")
                     "requirements.txt" [] eq_refl eq_refl))
    as (indexPkg & Hrec & Hle & _).
  { exists requirements_Name. split; in_list. }
  by exists indexPkg.
Defined.

(** ** The merge loop, entry by entry *)
Section MergeMore.
Context {St : Type}.
Context (get : string → string → St → GraphResult * St).
Context (normName : string → string).
Context (build : string → string → DepsDevNode → Package).
Context (noDeps : Error).
Context (eligible : Package → bool).
Context (tagPlugins : list string → list string).

(** What the merge of the resolved packages makes of the entry recorded
    under [name]. *)
Let step (name : string) (e q : Package) : Package :=
  if bool_decide (Name q = name)
  then setPlugins (setVersion e (Version q)) (tagPlugins (Plugins e))
  else e.

Lemma mergeLoop_length pkgMap cur pkgs cur' :
  Engine.mergeLoop tagPlugins pkgMap cur pkgs = Some cur' →
  length cur ≤ length cur'.
Proof.
  revert cur. induction pkgs as [|q pkgs IH]; intros cur Hrun;
    simpl in Hrun; [by simplify_eq|].
  unfold Engine.mergeStep in Hrun.
  destruct (pkgMap !! Name q) as [indexPkg|].
  - destruct (cur !! index indexPkg) as [entry|]; [|done].
    apply IH in Hrun. by rewrite length_insert in Hrun.
  - apply IH in Hrun. rewrite length_app in Hrun. lia.
Qed.

Lemma mergeLoop_keeps_unrecorded pkgMap cur pkgs cur' i :
  (∀ name indexPkg, pkgMap !! name = Some indexPkg → index indexPkg ≠ i) →
  i < length cur →
  Engine.mergeLoop tagPlugins pkgMap cur pkgs = Some cur' →
  cur' !! i = cur !! i.
Proof.
  intros Hfree. revert cur. induction pkgs as [|q pkgs IH];
    intros cur Hlt Hrun; simpl in Hrun; [by simplify_eq|].
  unfold Engine.mergeStep in Hrun.
  destruct (pkgMap !! Name q) as [indexPkg|] eqn:Hm.
  - destruct (cur !! index indexPkg) as [entry|]; [|done].
    rewrite (IH (<[index indexPkg := _]> cur)
               ltac:(by rewrite length_insert) Hrun).
    apply list_lookup_insert_ne. by eapply Hfree.
  - rewrite (IH (cur ++ [q]) ltac:(rewrite length_app; lia) Hrun).
    by apply lookup_app_l.
Qed.

Lemma enrichLoop_keeps_unrecorded pkgGroups sched cur c cur' c' i :
  (∀ path pkgMap name indexPkg,
     pkgGroups !! path = Some pkgMap → pkgMap !! name = Some indexPkg →
     index indexPkg ≠ i) →
  i < length cur →
  Engine.enrichLoop get normName build noDeps tagPlugins pkgGroups sched
    cur c = Some (cur', c') →
  cur' !! i = cur !! i.
Proof.
  intros Hfree. revert cur c.
  induction sched as [|[path order] sched IH]; intros cur c Hlt Hrun;
    simpl in Hrun; [by simplify_eq|].
  destruct (Engine.resolveGroup _ _ _ _ _ _ _ _) as [[err|pkgs] c1];
    [by eapply IH|].
  destruct (Engine.mergeLoop _ _ _ _) as [cur1|] eqn:Hmerge; [|done].
  pose proof (mergeLoop_length _ _ _ _ Hmerge) as Hlen.
  rewrite (IH cur1 c1 ltac:(lia) Hrun).
  eapply mergeLoop_keeps_unrecorded; [|done..].
  intros name indexPkg Hm.
  destruct (pkgGroups !! path) as [pkgMap|] eqn:Hg; simpl in Hm;
    [by eapply Hfree|by rewrite lookup_empty in Hm].
Qed.

Lemma mergeLoop_entry pkgMap cur pkgs cur' name indexPkg e :
  (∀ name' indexPkg',
     pkgMap !! name' = Some indexPkg' →
     index indexPkg' = index indexPkg → name' = name) →
  pkgMap !! name = Some indexPkg →
  cur !! index indexPkg = Some e →
  Engine.mergeLoop tagPlugins pkgMap cur pkgs = Some cur' →
  cur' !! index indexPkg = Some (foldl (step name) e pkgs).
Proof.
  intros Hinj Hm. revert cur e.
  induction pkgs as [|q pkgs IH]; intros cur e He Hrun; simpl in Hrun.
  { by simplify_eq. }
  unfold Engine.mergeStep in Hrun. simpl. unfold step at 2.
  destruct (pkgMap !! Name q) as [indexPkg'|] eqn:Hq.
  - destruct (cur !! index indexPkg') as [entry|] eqn:Hentry; [|done].
    case_bool_decide as Hname.
    + rewrite Hname, Hm in Hq. simplify_eq.
      eapply IH; [|done].
      apply list_lookup_insert_eq. by eapply lookup_lt_Some.
    + eapply IH; [|done].
      rewrite list_lookup_insert_ne; [done|].
      intros Heq. apply Hname. by eapply Hinj.
  - rewrite bool_decide_eq_false_2 by (intros Heq; congruence).
    eapply IH; [|done]. by apply lookup_app_l_Some.
Qed.

Lemma step_Version name e pkgs :
  Version (foldl (step name) e pkgs)
  = default (Version e) (last (Version <$> filter (λ q, Name q = name) pkgs)).
Proof.
  revert e. induction pkgs as [|q pkgs IH]; intros e; [done|].
  simpl. rewrite IH, filter_cons. unfold step.
  case_bool_decide as Hname.
  - rewrite decide_True by done. rewrite fmap_cons, last_cons. simpl.
    by destruct (last _).
  - by rewrite decide_False by done.
Qed.

End MergeMore.

Lemma pypi_step_Plugins name e pkgs :
  Plugins (foldl (λ e q, if bool_decide (Name q = name)
                         then setPlugins (setVersion e (Version q))
                                (pypiTag (Plugins e))
                         else e) e pkgs)
  = Plugins e ++ replicate (length (filter (λ q, Name q = name) pkgs))
                   PyPIDepsDevEnricherName.
Proof.
  revert e. induction pkgs as [|q pkgs IH]; intros e.
  { simpl. by rewrite app_nil_r. }
  simpl. rewrite filter_cons.
  destruct (decide (Name q = name)) as [Hname|Hname].
  - rewrite (bool_decide_eq_true_2 (Name q = name)) by done.
    rewrite ?decide_True by done.
    rewrite IH. simpl. unfold pypiTag. by rewrite <- app_assoc.
  - rewrite (bool_decide_eq_false_2 (Name q = name)) by done.
    rewrite ?decide_False by done. apply IH.
Qed.

Lemma mavenTag_idem plugins : mavenTag (mavenTag plugins) = mavenTag plugins.
Proof.
  unfold mavenTag. destruct (slices_Contains plugins _) eqn:Hc.
  - by rewrite Hc.
  - rewrite slices_Contains_app, Hc.
    replace (slices_Contains [MavenDepsDevEnricherName]
               MavenDepsDevEnricherName) with true
      by (vm_compute; reflexivity).
    done.
Qed.

Lemma maven_step_Plugins name e pkgs :
  Plugins (foldl (λ e q, if bool_decide (Name q = name)
                         then setPlugins (setVersion e (Version q))
                                (mavenTag (Plugins e))
                         else e) e pkgs)
  = if bool_decide (filter (λ q, Name q = name) pkgs = [])
    then Plugins e else mavenTag (Plugins e).
Proof.
  revert e. induction pkgs as [|q pkgs IH]; intros e; [done|].
  simpl. rewrite filter_cons.
  destruct (decide (Name q = name)) as [Hname|Hname].
  - rewrite (bool_decide_eq_true_2 (Name q = name)) by done.
    rewrite ?decide_True by done. rewrite IH. simpl.
    rewrite mavenTag_idem. by case_bool_decide.
  - rewrite (bool_decide_eq_false_2 (Name q = name)) by done.
    rewrite ?decide_False by done. apply IH.
Qed.

(** What the merge loops can make of the plugin list of an entry. *)
Lemma updated_frame normName tagPlugins p0 p :
  Engine.updated normName tagPlugins p0 p →
  Name p = Name p0 ∧ PURLType p = PURLType p0
  ∧ Locations p = Locations p0 ∧ PkgMetadata p = PkgMetadata p0.
Proof. induction 1 as [p|p0 p version _ IH _]; [done|]. by simpl. Qed.

Lemma updated_pypi_Plugins normName p0 p :
  Engine.updated normName pypiTag p0 p →
  ∃ k, Plugins p = Plugins p0 ++ replicate k PyPIDepsDevEnricherName
       ∧ (k = 0 → p = p0).
Proof.
  induction 1 as [p|p0 p version _ (k & IH & _) _].
  - exists 0. simpl. by rewrite app_nil_r.
  - exists (S k). split; [|done].
    by rewrite replicate_S_end, app_assoc, <- IH.
Qed.

Lemma updated_maven_Plugins normName p0 p :
  Engine.updated normName mavenTag p0 p →
  Plugins p = Plugins p0 ∨ Plugins p = mavenTag (Plugins p0).
Proof.
  induction 1 as [p|p0 p version _ IH _]; [by left|].
  simpl. right. destruct IH as [-> | ->]; [done|apply mavenTag_idem].
Qed.

Lemma Enrich_keeps_unrecorded {St : Type}
    (get : string → string → St → GraphResult * St) normName build noDeps
    eligible tagPlugins sched inv c inv' c' err i p :
  inv !! i = Some p →
  (∀ indexPkg path name,
     last_in_slot eligible inv path name indexPkg → index indexPkg ≠ i) →
  Engine.Enrich get normName build noDeps eligible tagPlugins sched inv c
  = Some (inv', c', err) →
  inv' !! i = Some p.
Proof.
  intros Hi Hfree Hrun. unfold Engine.Enrich in Hrun.
  destruct (Engine.enrichLoop _ _ _ _ _ _ _ _ _) as [[inv1 c1]|] eqn:Hloop;
    [|done].
  simplify_eq. rewrite <- Hi.
  eapply enrichLoop_keeps_unrecorded; [|by eapply lookup_lt_Some|done].
  intros path pkgMap name indexPkg Hg Hm.
  apply (Hfree indexPkg path name), groups_char. by rewrite Hg.
Qed.

Lemma ungrouped_not_recorded eligible inv i p indexPkg path name :
  inv !! i = Some p →
  eligible p = false ∨ Locations p = []
  ∨ (∃ j q, i < j ∧ inv !! j = Some q ∧ eligible q = true
            ∧ head (Locations q) = head (Locations p) ∧ Name q = Name p) →
  last_in_slot eligible inv path name indexPkg → index indexPkg ≠ i.
Proof.
  intros Hi Hwhy (Hat & (Hel & Hhead & Hname) & Hlast) Heq.
  rewrite Heq, Hi in Hat. injection Hat as Hp. rewrite <- Hp in *.
  destruct Hwhy as [Hno|[Hloc|(j & q & Hj & Hq & Helq & Hheadq & Hnameq)]].
  - congruence.
  - by rewrite Hloc in Hhead.
  - apply (Hlast j q); [lia|done|].
    unfold in_slot. split_and!; [done|congruence|congruence].
Qed.

(** X14: a pass leaves alone every entry that the grouping loop does not
    record: an entry that is not tagged by an accepted extractor, an entry
    without a location, and an entry that is followed in the inventory by
    an accepted entry with the same first location and the same name, are
    after the pass exactly what they were. *)
Theorem Enrich_leaves_ungrouped_entries (T : Transport) (sched : Schedule)
    (inv : list Package) (i : nat) (p : Package) :
  inv !! i = Some p →
  ((pypiEligible p = false ∨ Locations p = []
    ∨ (∃ j q, i < j ∧ inv !! j = Some q ∧ pypiEligible q = true
              ∧ head (Locations q) = head (Locations p)
              ∧ Name q = Name p)) →
   ∀ c inv' c' err,
     PyPI.Enrich T sched inv c = Some (inv', c', err) → inv' !! i = Some p)
  ∧ ((mavenEligible p = false ∨ Locations p = []
      ∨ (∃ j q, i < j ∧ inv !! j = Some q ∧ mavenEligible q = true
                ∧ head (Locations q) = head (Locations p)
                ∧ Name q = Name p)) →
     ∀ c inv' c' err,
       Maven.Enrich T sched inv c = Some (inv', c', err) →
       inv' !! i = Some p).
Proof.
  intros Hi. split; intros Hwhy c inv' c' err Hrun; enrich_to_engine;
    (eapply Enrich_keeps_unrecorded; [exact Hi| |exact Hrun]);
    intros indexPkg path name; by eapply ungrouped_not_recorded.
Qed.

Lemma Enrich_leaves_ungrouped_entries_witness :
  ∃ inv' c',
    PyPI.Enrich Sample.net [("requirements.txt", ["requests"])]
      Sample.noLocation Sample.pypiClient = Some (inv', c', None)
    ∧ inv' !! 1
      = Some (mkPackage "urllib3" "1.26.0" purl_TypePyPi []
                [requirements_Name] None)
    ∧ length inv' = 4.
Proof.
  eassert (PyPI.Enrich Sample.net [("requirements.txt", ["requests"])]
             Sample.noLocation Sample.pypiClient = Some (_, _, None))
    as Hrun by (vm_compute; reflexivity).
  eexists _, _. split; [exact Hrun|]. split; [|vm_compute; reflexivity].
  exact (proj1 (Enrich_leaves_ungrouped_entries Sample.net _
                  Sample.noLocation 1 _ eq_refl)
           (or_intror (or_introl eq_refl)) _ _ _ _ Hrun).
Defined.

Lemma Package_eta p :
  p = mkPackage (Name p) (Version p) (PURLType p) (Locations p) (Plugins p)
        (PkgMetadata p).
Proof. by destruct p. Qed.

Lemma step_frame tagPlugins name e pkgs :
  let e' := foldl (λ e q, if bool_decide (Name q = name)
                          then setPlugins (setVersion e (Version q))
                                 (tagPlugins (Plugins e))
                          else e) e pkgs in
  Name e' = Name e ∧ PURLType e' = PURLType e
  ∧ Locations e' = Locations e ∧ PkgMetadata e' = PkgMetadata e.
Proof.
  revert e. induction pkgs as [|q pkgs IH]; intros e; [done|].
  simpl. destruct (IH (if bool_decide (Name q = name)
                       then setPlugins (setVersion e (Version q))
                              (tagPlugins (Plugins e))
                       else e)) as (HN & HP & HL & HM).
  rewrite HN, HP, HL, HM. by case_bool_decide.
Qed.

Lemma groups_index_inj eligible inv path pkgMap name indexPkg :
  Engine.groupLoop eligible 0 inv ∅ !! path = Some pkgMap →
  pkgMap !! name = Some indexPkg →
  ∀ name' indexPkg',
    pkgMap !! name' = Some indexPkg' →
    index indexPkg' = index indexPkg → name' = name.
Proof.
  intros Hg Hm name' indexPkg' Hm' Heq.
  destruct (groups_ok eligible inv _ _ _ _ Hg Hm) as (Hat & Hname & _).
  destruct (groups_ok eligible inv _ _ _ _ Hg Hm') as (Hat' & Hname' & _).
  rewrite Heq, Hat in Hat'. congruence.
Qed.

(** X15: the merge loop, seen from one manifest entry.  Let the group
    record an entry under a name.  After the merge of a list of resolved
    packages, the entry keeps its name, purl type, locations and metadata;
    its version is that of the last resolved package with the entry's name
    (its own when there is none).  The PyPI enricher has appended its tag
    once for every resolved package with that name; the Maven enricher has
    appended its tag at most once, and only if some resolved package has
    the name and the tag was not yet there. *)
Theorem merge_of_an_entry (inv : list Package) (path name : string)
    (pkgMap : gmap string packageWithIndex) (indexPkg : packageWithIndex)
    (cur pkgs cur' : list Package) (e : Package) :
  pkgMap !! name = Some indexPkg →
  cur !! index indexPkg = Some e →
  let matching := filter (λ q, Name q = name) pkgs in
  let version := default (Version e) (last (Version <$> matching)) in
  (PyPI.groupLoop 0 inv ∅ !! path = Some pkgMap →
   PyPI.mergeLoop pkgMap cur pkgs = Some cur' →
   cur' !! index indexPkg
   = Some (mkPackage (Name e) version (PURLType e) (Locations e)
             (Plugins e ++ replicate (length matching)
                             PyPIDepsDevEnricherName)
             (PkgMetadata e)))
  ∧ (Maven.groupLoop 0 inv ∅ !! path = Some pkgMap →
     Maven.mergeLoop pkgMap cur pkgs = Some cur' →
     cur' !! index indexPkg
     = Some (mkPackage (Name e) version (PURLType e) (Locations e)
               (if bool_decide (matching = []) then Plugins e
                else if slices_Contains (Plugins e) MavenDepsDevEnricherName
                     then Plugins e
                     else Plugins e ++ [MavenDepsDevEnricherName])
               (PkgMetadata e))).
Proof.
  intros Hm He matching version. split; intros Hg Hrun.
  - rewrite PyPI_groupLoop_engine in Hg. rewrite PyPI_mergeLoop_engine in Hrun.
    rewrite (mergeLoop_entry pypiTag pkgMap cur pkgs cur' name indexPkg e
               (groups_index_inj _ _ _ _ _ _ Hg Hm) Hm He Hrun).
    f_equal. rewrite (Package_eta (foldl _ e pkgs)).
    destruct (step_frame pypiTag name e pkgs) as (-> & -> & -> & ->).
    by rewrite step_Version, pypi_step_Plugins.
  - rewrite Maven_groupLoop_engine in Hg.
    rewrite Maven_mergeLoop_engine in Hrun.
    rewrite (mergeLoop_entry mavenTag pkgMap cur pkgs cur' name indexPkg e
               (groups_index_inj _ _ _ _ _ _ Hg Hm) Hm He Hrun).
    f_equal. rewrite (Package_eta (foldl _ e pkgs)).
    destruct (step_frame mavenTag name e pkgs) as (-> & -> & -> & ->).
    by rewrite step_Version, maven_step_Plugins.
Qed.

Lemma merge_of_an_entry_witness :
  let resolved := [pypiPackage "requirements.txt" "urllib3"
                     (Sample.node "urllib3" "2.0.0" "DIRECT");
                   pypiPackage "requirements.txt" "certifi"
                     (Sample.node "certifi" "2023.7.22" "INDIRECT");
                   pypiPackage "requirements.txt" "urllib3"
                     (Sample.node "urllib3" "2.1.0" "INDIRECT")] in
  let pkgMap : gmap string packageWithIndex :=
    default ∅ (PyPI.groupLoop 0 Sample.withUrllib3 ∅ !! "requirements.txt") in
  let cur' := default [] (PyPI.mergeLoop pkgMap Sample.withUrllib3 resolved) in
  PyPI.groupLoop 0 Sample.withUrllib3 ∅ !! "requirements.txt" = Some pkgMap
  ∧ PyPI.mergeLoop pkgMap Sample.withUrllib3 resolved = Some cur'
  ∧ cur' !! 1
    = Some (mkPackage "urllib3" "2.1.0" purl_TypePyPi ["requirements.txt"]
              [requirements_Name; PyPIDepsDevEnricherName;
               PyPIDepsDevEnricherName] None).
Proof.
  intros resolved pkgMap cur'.
  assert (PyPI.groupLoop 0 Sample.withUrllib3 ∅ !! "requirements.txt"
          = Some pkgMap) as Hg by (vm_compute; reflexivity).
  assert (PyPI.mergeLoop pkgMap Sample.withUrllib3 resolved = Some cur')
    as Hrun by (vm_compute; reflexivity).
  assert (pkgMap !! "urllib3"
          = Some (mkPWI (Sample.requirement "urllib3" "1.26.0") 1)) as Hm
    by (vm_compute; reflexivity).
  split; [exact Hg|]. split; [exact Hrun|].
  pose proof (merge_of_an_entry Sample.withUrllib3 "requirements.txt"
                "urllib3" pkgMap
                (mkPWI (Sample.requirement "urllib3" "1.26.0") 1)
                Sample.withUrllib3 resolved cur'
                (Sample.requirement "urllib3" "1.26.0") Hm eq_refl)
    as Hentry.
  cbv zeta in Hentry. destruct Hentry as [Hentry _].
  etrans; [exact (Hentry Hg Hrun)|]. vm_compute. reflexivity.
Defined.

(** X16: what a pass can change in an entry that was in the inventory.
    The entry is still at its index, with its name, purl type, locations
    and metadata; only the version and the plugin list can differ.  After
    a PyPI pass the plugin list is the old one followed by copies of the
    enricher's tag, and an entry that got no copy is unchanged.  After a
    Maven pass the plugin list is the old one, or the old one followed by
    the tag once, the latter only when the tag was not in the list. *)
Theorem Enrich_frame (T : Transport) (sched : Schedule)
    (inv : list Package) :
  (∀ c inv' c' err,
     PyPI.Enrich T sched inv c = Some (inv', c', err) →
     ∀ i p, inv !! i = Some p →
       ∃ p' k,
         inv' !! i = Some p'
         ∧ Name p' = Name p ∧ PURLType p' = PURLType p
         ∧ Locations p' = Locations p ∧ PkgMetadata p' = PkgMetadata p
         ∧ Plugins p' = Plugins p ++ replicate k PyPIDepsDevEnricherName
         ∧ (k = 0 → p' = p))
  ∧ (∀ c inv' c' err,
       Maven.Enrich T sched inv c = Some (inv', c', err) →
       ∀ i p, inv !! i = Some p →
         ∃ p',
           inv' !! i = Some p'
           ∧ Name p' = Name p ∧ PURLType p' = PURLType p
           ∧ Locations p' = Locations p ∧ PkgMetadata p' = PkgMetadata p
           ∧ (Plugins p' = Plugins p
              ∨ (slices_Contains (Plugins p) MavenDepsDevEnricherName = false
                 ∧ Plugins p' = Plugins p ++ [MavenDepsDevEnricherName]))).
Proof.
  split; intros c inv' c' err Hrun i p Hi; enrich_to_engine.
  - destruct (Enrich_pass (PyPIClient.GetDependencies T) (ToLower T) pypiPackage
                ErrNoDependencies pypiEligible pypiTag pypiPackage_Name
                pypi_eligible_tag sched inv c inv' c' err
                pypi_build_ineligible Hrun) as (_ & Hupd & _).
    destruct (Forall2_lookup_l _ _ _ _ _ Hupd Hi) as (p' & Hi' & Hrel).
    apply lookup_take_Some in Hi' as [Hi' _].
    destruct (updated_frame _ _ _ _ Hrel) as (HN & HP & HL & HM).
    destruct (updated_pypi_Plugins _ _ _ Hrel) as (k & Hk & Hsame).
    by exists p', k.
  - destruct (Enrich_pass (RESTClient.GetDependencies T) (λ name, name)
                mavenPackage ErrNoMavenDependencies mavenEligible mavenTag
                mavenPackage_Name maven_eligible_tag sched inv c inv' c' err
                maven_build_ineligible Hrun) as (_ & Hupd & _).
    destruct (Forall2_lookup_l _ _ _ _ _ Hupd Hi) as (p' & Hi' & Hrel).
    apply lookup_take_Some in Hi' as [Hi' _].
    destruct (updated_frame _ _ _ _ Hrel) as (HN & HP & HL & HM).
    exists p'. split_and!; [done..|].
    destruct (updated_maven_Plugins _ _ _ Hrel) as [Hpl|Hpl]; [by left|].
    unfold mavenTag in Hpl.
    destruct (slices_Contains (Plugins p) _); [by left|by right].
Qed.

Lemma Enrich_frame_witness :
  ∃ inv' c' p' k,
    PyPI.Enrich Sample.net [("requirements.txt", ["requests"; "urllib3"])]
      Sample.withUrllib3 Sample.pypiClient = Some (inv', c', None)
    ∧ inv' !! 1 = Some p'
    ∧ Name p' = "urllib3"
    ∧ Plugins p' = [requirements_Name] ++ replicate k PyPIDepsDevEnricherName.
Proof.
  eassert (PyPI.Enrich Sample.net
             [("requirements.txt", ["requests"; "urllib3"])]
             Sample.withUrllib3 Sample.pypiClient = Some (_, _, None))
    as Hrun by (vm_compute; reflexivity).
  destruct (proj1 (Enrich_frame Sample.net _ Sample.withUrllib3)
              _ _ _ _ Hrun 1 (Sample.requirement "urllib3" "1.26.0")
              eq_refl) as (p' & k & Hi & HN & _ & _ & _ & Hpl & _).
  eexists _, _, p', k. split; [exact Hrun|]. split; [exact Hi|].
  split; [exact HN|exact Hpl].
Defined.

(** ** The visiting order *)
Section OrderFacts.
Context {St : Type}.
Context (get : string → string → St → GraphResult * St).
Context (normName : string → string).
Context (build : string → string → DepsDevNode → Package).
Context (noDeps : Error).
Hypothesis build_Name : ∀ path name node, Name (build path name node) = name.
Hypothesis build_Version : ∀ path name node,
  Version (build path name node) = vkVersion (VersionKey node).
Context (pkgMap : gmap string packageWithIndex).
Context (I : St → Prop).
Context (answer : string → string → option DepsDevDependencyGraph).
Hypothesis get_stable : ∀ name indexPkg s,
  pkgMap !! name = Some indexPkg → Version (pkg indexPkg) ≠ "" → I s →
  I (get (Name (pkg indexPkg)) (Version (pkg indexPkg)) s).2
  ∧ match (get (Name (pkg indexPkg)) (Version (pkg indexPkg)) s).1 with
    | inr graph =>
        answer (Name (pkg indexPkg)) (Version (pkg indexPkg)) = Some graph
    | inl _ => answer (Name (pkg indexPkg)) (Version (pkg indexPkg)) = None
    end.

Let key := Engine.nodeKey normName.
Let resolve := Engine.resolveGroup get normName build noDeps.
Let fetched := Engine.fetchedNodes get.

Let nodesFor (name : string) : list DepsDevNode :=
  match pkgMap !! name with
  | Some indexPkg =>
      if bool_decide (Version (pkg indexPkg) = "") then []
      else match answer (Name (pkg indexPkg)) (Version (pkg indexPkg)) with
           | Some graph => Nodes graph
           | None => []
           end
  | None => []
  end.

Lemma fetched_stable order c :
  I c → fetched pkgMap order c = order ≫= nodesFor.
Proof.
  revert c. induction order as [|name order IH]; intros c Hc; [done|].
  simpl. unfold nodesFor at 1.
  destruct (pkgMap !! name) as [indexPkg|] eqn:Hm; [|by apply IH].
  case_bool_decide as Hv; [by apply IH|].
  destruct (get_stable name indexPkg c Hm Hv Hc) as [Hc1 Hans].
  destruct (get _ _ c) as [[err|graph] c1]; simpl in *; rewrite Hans.
  - by apply IH.
  - f_equal. by apply IH.
Qed.

Lemma fetched_order order1 order2 c node :
  order1 ≡ₚ order2 → I c →
  node ∈ fetched pkgMap order1 c ↔ node ∈ fetched pkgMap order2 c.
Proof.
  intros Hperm Hc. rewrite !fetched_stable by done. by rewrite Hperm.
Qed.

Lemma resolved_keys path order c pkgs c' k :
  resolve path pkgMap order c = (inr pkgs, c') →
  k ∈ dedupKey <$> pkgs
  ↔ ∃ node, node ∈ fetched pkgMap order c ∧ Relation node ≠ "SELF"
            ∧ key node = k.
Proof.
  intros Hres. split.
  - intros (p & -> & Hp)%list_elem_of_fmap.
    destruct (resolveGroup_origin get normName build noDeps path pkgMap
                order c pkgs c' p Hres Hp) as (node & Hin & Hrel & ->).
    exists node. split_and!; [done..|].
    unfold key, Engine.nodeKey, dedupKey.
    by rewrite build_Name, build_Version.
  - intros (node & Hin & Hrel & <-).
    apply resolveGroup_result in Hres as ->.
    by apply (visit_fold_covers normName build build_Name build_Version);
      [apply seen_inv_empty|..].
Qed.

Lemma resolveGroup_order path order1 order2 c :
  order1 ≡ₚ order2 → I c →
  ((∃ c', resolve path pkgMap order1 c = (inl noDeps, c'))
   ↔ (∃ c', resolve path pkgMap order2 c = (inl noDeps, c')))
  ∧ ∀ pkgs1 c1 pkgs2 c2,
      resolve path pkgMap order1 c = (inr pkgs1, c1) →
      resolve path pkgMap order2 c = (inr pkgs2, c2) →
      dedupKey <$> pkgs1 ≡ₚ dedupKey <$> pkgs2.
Proof.
  intros Hperm Hc. split.
  - unfold resolve.
    rewrite !(resolveGroup_fails_when get normName build noDeps
                build_Name build_Version).
    split; intros [Hne Hall]; (split; [done|]); intros node Hin;
      apply Hall; by eapply fetched_order.
  - intros pkgs1 c1 pkgs2 c2 Hres1 Hres2.
    apply NoDup_Permutation.
    + by eapply (resolveGroup_NoDup get normName build noDeps).
    + by eapply (resolveGroup_NoDup get normName build noDeps).
    + intros k. rewrite (resolved_keys _ _ _ _ _ _ Hres1).
      rewrite (resolved_keys _ _ _ _ _ _ Hres2).
      split; intros (node & Hin & Hrest); exists node; (split; [|done]);
        by eapply fetched_order.
Qed.

End OrderFacts.

Lemma PyPI_get_stable T (pkgMap : gmap string packageWithIndex) c0 w0 :
  (∀ url w1 w2,
     graph_of T (exchange T url w1).1 = graph_of T (exchange T url w2).1) →
  (∀ n1 ip1 n2 ip2,
     pkgMap !! n1 = Some ip1 → pkgMap !! n2 = Some ip2 →
     Name (pkg ip1) +:+ "@" +:+ Version (pkg ip1)
     = Name (pkg ip2) +:+ "@" +:+ Version (pkg ip2) →
     Name (pkg ip1) = Name (pkg ip2) ∧ Version (pkg ip1) = Version (pkg ip2)) →
  let answer name version :=
    graph_of T (exchange T (PyPIClient.baseURL c0
                            +:+ "/v3/systems/pypi/packages/"
                            +:+ PathEscape T name +:+ "/versions/"
                            +:+ PathEscape T version +:+ ":dependencies")
                  w0).1 in
  let I (s : PyPI.ClientState T) :=
    PyPIClient.baseURL s.1 = PyPIClient.baseURL c0
    ∧ ∀ name indexPkg graph,
        pkgMap !! name = Some indexPkg →
        PyPIClient.cache s.1
          !! (Name (pkg indexPkg) +:+ "@" +:+ Version (pkg indexPkg))
        = Some graph →
        answer (Name (pkg indexPkg)) (Version (pkg indexPkg)) = Some graph in
  ∀ name indexPkg s,
    pkgMap !! name = Some indexPkg → Version (pkg indexPkg) ≠ "" → I s →
    I (PyPIClient.GetDependencies T (Name (pkg indexPkg))
         (Version (pkg indexPkg)) s).2
    ∧ match (PyPIClient.GetDependencies T (Name (pkg indexPkg))
               (Version (pkg indexPkg)) s).1 with
      | inr graph =>
          answer (Name (pkg indexPkg)) (Version (pkg indexPkg)) = Some graph
      | inl _ => answer (Name (pkg indexPkg)) (Version (pkg indexPkg)) = None
      end.
Proof.
  intros Hstable Hkeys answer I name indexPkg [c1 w1] Hm Hv [Hb Hcache].
  simpl in Hb, Hcache. unfold PyPIClient.GetDependencies.
  destruct (PyPIClient.cache c1 !! _) as [cached|] eqn:Hhit.
  { simpl. split; [by split|]. by eapply Hcache. }
  rewrite Hb.
  assert (answer (Name (pkg indexPkg)) (Version (pkg indexPkg))
          = graph_of T (exchange T (PyPIClient.baseURL c0
                          +:+ "/v3/systems/pypi/packages/"
                          +:+ PathEscape T (Name (pkg indexPkg))
                          +:+ "/versions/"
                          +:+ PathEscape T (Version (pkg indexPkg))
                          +:+ ":dependencies") w1).1) as Hans
    by apply Hstable.
  destruct (exchange T _ w1) as [[| |code body] w2]; simpl in *;
    [by repeat split..|].
  destruct (decide (code = http_StatusOK)) as [Hcode|Hcode].
  2: { rewrite (bool_decide_eq_true_2 (code ≠ http_StatusOK)) by done.
       rewrite (bool_decide_eq_false_2 (code = http_StatusOK)) in Hans by done.
       by repeat split. }
  - rewrite (bool_decide_eq_false_2 (code ≠ http_StatusOK)) by (by intros []).
    rewrite (bool_decide_eq_true_2 (code = http_StatusOK)) in Hans by done.
    destruct (Decode T body) as [graph|]; simpl; [|by repeat split].
    split; [|done]. split; [done|].
    intros name2 ip2 graph2 Hm2 Hlook. simpl in Hlook.
    apply lookup_insert_Some in Hlook as [[Hkey <-]|[Hne Hold]].
    + destruct (Hkeys _ _ _ _ Hm Hm2 Hkey) as [<- <-]. done.
    + by eapply Hcache.
Qed.

Lemma RESTClient_get_stable T (pkgMap : gmap string packageWithIndex) c0 w0 :
  (∀ url w1 w2,
     graph_of T (exchange T url w1).1 = graph_of T (exchange T url w2).1) →
  (∀ n1 ip1 n2 ip2,
     pkgMap !! n1 = Some ip1 → pkgMap !! n2 = Some ip2 →
     Name (pkg ip1) +:+ "@" +:+ Version (pkg ip1)
     = Name (pkg ip2) +:+ "@" +:+ Version (pkg ip2) →
     Name (pkg ip1) = Name (pkg ip2) ∧ Version (pkg ip1) = Version (pkg ip2)) →
  let answer name version :=
    graph_of T (exchange T (RESTClient.baseURL c0 +:+ "/v3/systems/"
                            +:+ RESTClient.system c0 +:+ "/packages/"
                            +:+ PathEscape T name +:+ "/versions/"
                            +:+ PathEscape T version +:+ ":dependencies")
                  w0).1 in
  let I (s : Maven.ClientState T) :=
    RESTClient.baseURL s.1 = RESTClient.baseURL c0
    ∧ RESTClient.system s.1 = RESTClient.system c0
    ∧ ∀ name indexPkg graph,
        pkgMap !! name = Some indexPkg →
        RESTClient.cache s.1
          !! (RESTClient.system c0 +:+ "/" +:+ Name (pkg indexPkg) +:+ "@"
              +:+ Version (pkg indexPkg))
        = Some graph →
        answer (Name (pkg indexPkg)) (Version (pkg indexPkg)) = Some graph in
  ∀ name indexPkg s,
    pkgMap !! name = Some indexPkg → Version (pkg indexPkg) ≠ "" → I s →
    I (RESTClient.GetDependencies T (Name (pkg indexPkg))
         (Version (pkg indexPkg)) s).2
    ∧ match (RESTClient.GetDependencies T (Name (pkg indexPkg))
               (Version (pkg indexPkg)) s).1 with
      | inr graph =>
          answer (Name (pkg indexPkg)) (Version (pkg indexPkg)) = Some graph
      | inl _ => answer (Name (pkg indexPkg)) (Version (pkg indexPkg)) = None
      end.
Proof.
  intros Hstable Hkeys answer I name indexPkg [c1 w1] Hm Hv (Hb & Hs & Hcache).
  simpl in Hb, Hs, Hcache. unfold RESTClient.GetDependencies.
  rewrite Hs, Hb.
  destruct (RESTClient.cache c1 !! _) as [cached|] eqn:Hhit.
  { simpl. split; [by split_and!|]. by eapply Hcache. }
  assert (answer (Name (pkg indexPkg)) (Version (pkg indexPkg))
          = graph_of T (exchange T (RESTClient.baseURL c0 +:+ "/v3/systems/"
                          +:+ RESTClient.system c0 +:+ "/packages/"
                          +:+ PathEscape T (Name (pkg indexPkg))
                          +:+ "/versions/"
                          +:+ PathEscape T (Version (pkg indexPkg))
                          +:+ ":dependencies") w1).1) as Hans
    by apply Hstable.
  destruct (exchange T _ w1) as [[| |code body] w2]; simpl in *;
    [by repeat split..|].
  destruct (decide (code = http_StatusOK)) as [Hcode|Hcode].
  2: { rewrite (bool_decide_eq_true_2 (code ≠ http_StatusOK)) by done.
       rewrite (bool_decide_eq_false_2 (code = http_StatusOK)) in Hans by done.
       by repeat split. }
  - rewrite (bool_decide_eq_false_2 (code ≠ http_StatusOK)) by (by intros []).
    rewrite (bool_decide_eq_true_2 (code = http_StatusOK)) in Hans by done.
    destruct (Decode T body) as [graph|]; simpl; [|by repeat split].
    split; [|done]. split_and!; [done..|].
    intros name2 ip2 graph2 Hm2 Hlook. simpl in Hlook.
    apply lookup_insert_Some in Hlook as [[Hkey <-]|[Hne Hold]].
    + assert (Name (pkg indexPkg) +:+ "@" +:+ Version (pkg indexPkg)
              = Name (pkg ip2) +:+ "@" +:+ Version (pkg ip2)) as Hkey'.
      { revert Hkey. generalize (RESTClient.system c0).
        intros sys. induction sys as [|ch sys IH]; simpl.
        - rewrite !append_Empty, !append_String, !append_Empty.
          by intros [= ->].
        - rewrite !append_String. intros [= Heq]. by apply IH. }
      destruct (Hkeys _ _ _ _ Hm Hm2 Hkey') as [<- <-]. done.
    + by eapply Hcache.
Qed.

(** X17: the visiting order does not change what is resolved.  Let the
    network answer every URL in one way (the graph that an exchange
    delivers does not depend on the world), let no two packages of the
    group share a cache key, and let the cache agree with the network on
    the packages of the group.  Then for two visiting orders that are
    permutations of one another, resolveGroup fails for both or for
    neither, and when it succeeds the dedup keys of the emitted packages
    are the same, up to their order. *)
Theorem resolveGroup_order_independent (T : Transport) (path : string)
    (pkgMap : gmap string packageWithIndex) (order1 order2 : list string) :
  order1 ≡ₚ order2 →
  (∀ url w1 w2,
     graph_of T (exchange T url w1).1 = graph_of T (exchange T url w2).1) →
  (∀ n1 ip1 n2 ip2,
     pkgMap !! n1 = Some ip1 → pkgMap !! n2 = Some ip2 →
     Name (pkg ip1) +:+ "@" +:+ Version (pkg ip1)
     = Name (pkg ip2) +:+ "@" +:+ Version (pkg ip2) →
     Name (pkg ip1) = Name (pkg ip2) ∧ Version (pkg ip1) = Version (pkg ip2)) →
  (∀ c w,
     (∀ name indexPkg graph,
        pkgMap !! name = Some indexPkg →
        PyPIClient.cache c
          !! (Name (pkg indexPkg) +:+ "@" +:+ Version (pkg indexPkg))
        = Some graph →
        graph_of T (exchange T (PyPIClient.baseURL c
                                +:+ "/v3/systems/pypi/packages/"
                                +:+ PathEscape T (Name (pkg indexPkg))
                                +:+ "/versions/"
                                +:+ PathEscape T (Version (pkg indexPkg))
                                +:+ ":dependencies") w).1 = Some graph) →
     ((∃ c', PyPI.resolveGroup T path pkgMap order1 (c, w)
             = (inl ErrNoDependencies, c'))
      ↔ (∃ c', PyPI.resolveGroup T path pkgMap order2 (c, w)
               = (inl ErrNoDependencies, c')))
     ∧ ∀ pkgs1 c1 pkgs2 c2,
         PyPI.resolveGroup T path pkgMap order1 (c, w) = (inr pkgs1, c1) →
         PyPI.resolveGroup T path pkgMap order2 (c, w) = (inr pkgs2, c2) →
         dedupKey <$> pkgs1 ≡ₚ dedupKey <$> pkgs2)
  ∧ (∀ c w,
       (∀ name indexPkg graph,
          pkgMap !! name = Some indexPkg →
          RESTClient.cache c
            !! (RESTClient.system c +:+ "/" +:+ Name (pkg indexPkg) +:+ "@"
                +:+ Version (pkg indexPkg))
          = Some graph →
          graph_of T (exchange T (RESTClient.baseURL c +:+ "/v3/systems/"
                                  +:+ RESTClient.system c +:+ "/packages/"
                                  +:+ PathEscape T (Name (pkg indexPkg))
                                  +:+ "/versions/"
                                  +:+ PathEscape T (Version (pkg indexPkg))
                                  +:+ ":dependencies") w).1 = Some graph) →
       ((∃ c', Maven.resolveGroup T path pkgMap order1 (c, w)
               = (inl ErrNoMavenDependencies, c'))
        ↔ (∃ c', Maven.resolveGroup T path pkgMap order2 (c, w)
                 = (inl ErrNoMavenDependencies, c')))
       ∧ ∀ pkgs1 c1 pkgs2 c2,
           Maven.resolveGroup T path pkgMap order1 (c, w) = (inr pkgs1, c1) →
           Maven.resolveGroup T path pkgMap order2 (c, w) = (inr pkgs2, c2) →
           dedupKey <$> pkgs1 ≡ₚ dedupKey <$> pkgs2).
Proof.
  intros Hperm Hstable Hkeys. split; intros c w Hcache.
  - pose proof (resolveGroup_order (PyPIClient.GetDependencies T) (ToLower T)
                  pypiPackage ErrNoDependencies pypiPackage_Name
                  pypiPackage_Version pkgMap _ _
                  (PyPI_get_stable T pkgMap c w Hstable Hkeys)
                  path order1 order2 (c, w) Hperm (conj eq_refl Hcache))
      as [Hfail Hsame].
    split; [exact Hfail|]. intros pkgs1 c1 pkgs2 c2 H1 H2.
    by eapply Hsame.
  - pose proof (resolveGroup_order (RESTClient.GetDependencies T)
                  (λ name, name) mavenPackage ErrNoMavenDependencies
                  mavenPackage_Name mavenPackage_Version pkgMap _ _
                  (RESTClient_get_stable T pkgMap c w Hstable Hkeys)
                  path order1 order2 (c, w) Hperm
                  (conj eq_refl (conj eq_refl Hcache)))
      as [Hfail Hsame].
    rewrite !Maven_resolveGroup_engine.
    split; [exact Hfail|exact Hsame].
Qed.

Lemma resolveGroup_order_independent_witness :
  ["left"; "right"] ≡ₚ ["right"; "left"]
  ∧ ∃ pkgs1 c1 pkgs2 c2,
      PyPI.resolveGroup Sample.net "requirements.txt" Sample.twoDirect
        ["left"; "right"] Sample.pypiClient = (inr pkgs1, c1)
      ∧ PyPI.resolveGroup Sample.net "requirements.txt" Sample.twoDirect
          ["right"; "left"] Sample.pypiClient = (inr pkgs2, c2)
      ∧ Name <$> pkgs1 = ["shared"; "mid"]
      ∧ Name <$> pkgs2 = ["mid"; "shared"]
      ∧ dedupKey <$> pkgs1 ≡ₚ dedupKey <$> pkgs2.
Proof.
  assert (["left"; "right"] ≡ₚ ["right"; "left"]) as Hperm
    by apply Permutation_swap.
  split; [exact Hperm|].
  eassert (PyPI.resolveGroup Sample.net "requirements.txt" Sample.twoDirect
             ["left"; "right"] Sample.pypiClient = (inr _, _)) as Hrun1
    by (vm_compute; reflexivity).
  eassert (PyPI.resolveGroup Sample.net "requirements.txt" Sample.twoDirect
             ["right"; "left"] Sample.pypiClient = (inr _, _)) as Hrun2
    by (vm_compute; reflexivity).
  eexists _, _, _, _. split; [exact Hrun1|]. split; [exact Hrun2|].
  split; [vm_compute; reflexivity|]. split; [vm_compute; reflexivity|].
  refine (proj2 (proj1 (resolveGroup_order_independent Sample.net
                          "requirements.txt" Sample.twoDirect
                          ["left"; "right"] ["right"; "left"] Hperm _ _)
                   (PyPIClient.NewPyPIDepsDevClient Sample.base) tt _)
            _ _ _ _ Hrun1 Hrun2).
  - intros url [] []. reflexivity.
  - intros n1 ip1 n2 ip2 H1 H2. unfold Sample.twoDirect in H1, H2.
    apply lookup_insert_Some in H1 as [[<- <-]|[_ H1]];
      [|apply lookup_insert_Some in H1 as [[<- <-]|[_ H1]];
        [|by rewrite lookup_empty in H1]];
      (apply lookup_insert_Some in H2 as [[<- <-]|[_ H2]];
       [|apply lookup_insert_Some in H2 as [[<- <-]|[_ H2]];
         [|by rewrite lookup_empty in H2]]);
      simpl; first [by intros _|discriminate].
  - intros name indexPkg graph _ Hhit. simpl in Hhit.
    by rewrite lookup_empty in Hhit.
Defined.

(** ** The pass, group by group *)
Section GroupByGroup.
Context {St : Type}.
Context (get : string → string → St → GraphResult * St).
Context (normName : string → string).
Context (build : string → string → DepsDevNode → Package).
Context (noDeps : Error).
Context (eligible : Package → bool).
Context (tagPlugins : list string → list string).
Hypothesis build_Name : ∀ path name node, Name (build path name node) = name.

Let loop := Engine.enrichLoop get normName build noDeps tagPlugins.
Let resolve := Engine.resolveGroup get normName build noDeps.
Let resolved := Engine.resolutions get normName build noDeps.

(** The loop over a schedule is the loop over its first part followed by
    the loop over the rest. *)
Lemma enrichLoop_app pkgGroups s1 s2 cur c :
  loop pkgGroups (s1 ++ s2) cur c
  = match loop pkgGroups s1 cur c with
    | Some (cur1, c1) => loop pkgGroups s2 cur1 c1
    | None => None
    end.
Proof.
  revert cur c. induction s1 as [|[path order] s1 IH]; intros cur c;
    simpl; [done|].
  destruct (Engine.resolveGroup _ _ _ _ _ _ _ _) as [[err|pkgs] c1];
    [apply IH|].
  destruct (Engine.mergeLoop _ _ _ _) as [cur1|]; [apply IH|done].
Qed.

Lemma enrichLoop_length pkgGroups sched cur c cur' c' :
  loop pkgGroups sched cur c = Some (cur', c') → length cur ≤ length cur'.
Proof.
  revert cur c. induction sched as [|[path order] sched IH]; intros cur c Hrun;
    simpl in Hrun; [by simplify_eq|].
  destruct (Engine.resolveGroup _ _ _ _ _ _ _ _) as [[err|pkgs] c1];
    [by eapply IH|].
  destruct (Engine.mergeLoop _ _ _ _) as [cur1|] eqn:Hmerge; [|done].
  apply mergeLoop_length in Hmerge. apply IH in Hrun. lia.
Qed.

(** On the groups of an inventory the loop reaches the end of every
    schedule. *)
Lemma enrichLoop_reaches inv0 pkgGroups sched c :
  group_ok eligible inv0 pkgGroups →
  ∃ cur c1, loop pkgGroups sched inv0 c = Some (cur, c1).
Proof.
  intros Hok.
  destruct (enrichLoop_effect get normName build noDeps eligible tagPlugins
              build_Name inv0 pkgGroups sched inv0 [] c Hok
              (Forall2_updated_same normName tagPlugins inv0))
    as (upd & c1 & Hrun & _).
  rewrite app_nil_r in Hrun. by eexists _, _.
Qed.

(** A group whose resolution fails is left behind: the loop goes on with
    the groups after it, on the inventory as it was. *)
Lemma enrichLoop_skips pkgGroups before path order after cur0 c cur c1
    err c2 :
  loop pkgGroups before cur0 c = Some (cur, c1) →
  resolve path (default ∅ (pkgGroups !! path)) order c1 = (inl err, c2) →
  loop pkgGroups (before ++ (path, order) :: after) cur0 c
  = loop pkgGroups after cur c2.
Proof.
  intros Hbefore Hres. rewrite enrichLoop_app, Hbefore. simpl.
  unfold resolve in Hres. by rewrite Hres.
Qed.

Lemma enrichLoop_merges pkgGroups before path order after cur0 c cur c1
    pkgs c2 :
  loop pkgGroups before cur0 c = Some (cur, c1) →
  resolve path (default ∅ (pkgGroups !! path)) order c1 = (inr pkgs, c2) →
  loop pkgGroups (before ++ (path, order) :: after) cur0 c
  = match Engine.mergeLoop tagPlugins (default ∅ (pkgGroups !! path)) cur
            pkgs with
    | Some cur' => loop pkgGroups after cur' c2
    | None => None
    end.
Proof.
  intros Hbefore Hres. rewrite enrichLoop_app, Hbefore. simpl.
  unfold resolve in Hres. by rewrite Hres.
Qed.

(** A group that is resolved has its packages merged, whatever became of
    the groups before it: those that are not named in the group are in the
    inventory at the end of the loop. *)
Lemma enrichLoop_appends inv0 pkgGroups before path order after c cur c1
    pkgs c2 inv' c' p :
  group_ok eligible inv0 pkgGroups →
  loop pkgGroups before inv0 c = Some (cur, c1) →
  resolve path (default ∅ (pkgGroups !! path)) order c1 = (inr pkgs, c2) →
  loop pkgGroups (before ++ (path, order) :: after) inv0 c
  = Some (inv', c') →
  p ∈ pkgs → default ∅ (pkgGroups !! path) !! Name p = None →
  p ∈ inv'.
Proof.
  intros Hok Hbefore Hres Hrun Hp Hnone.
  destruct (enrichLoop_effect get normName build noDeps eligible tagPlugins
              build_Name inv0 pkgGroups before inv0 [] c Hok
              (Forall2_updated_same normName tagPlugins inv0))
    as (upd1 & c1' & Hrun1 & Hupd1).
  rewrite app_nil_r in Hrun1. fold loop in Hrun1.
  rewrite Hbefore in Hrun1. simplify_eq.
  rewrite enrichLoop_app, Hbefore in Hrun.
  destruct (enrichLoop_effect get normName build noDeps eligible tagPlugins
              build_Name inv0 pkgGroups ((path, order) :: after) upd1
              ([] ++ Engine.appended pkgGroups
                       (Engine.resolutions get normName build noDeps
                          pkgGroups before c))
              c1' Hok Hupd1)
    as (upd2 & c2' & Hrun2 & _).
  fold loop in Hrun2. rewrite Hrun in Hrun2. simplify_eq.
  simpl. unfold resolve in Hres. rewrite Hres.
  rewrite !elem_of_app. right. right.
  apply (elem_of_appended pkgGroups). exists path, pkgs.
  split; [apply elem_of_cons; by left|done].
Qed.

(** Where a resolved group sits in the schedule. *)
Lemma resolutions_split pkgGroups sched c path pkgs :
  (path, pkgs) ∈ resolved pkgGroups sched c →
  ∃ before order after c1 c2,
    sched = before ++ (path, order) :: after
    ∧ resolve path (default ∅ (pkgGroups !! path)) order c1 = (inr pkgs, c2)
    ∧ ∀ cur cur1 c1',
        loop pkgGroups before cur c = Some (cur1, c1') → c1' = c1.
Proof.
  revert c. induction sched as [|[path0 order0] sched IH]; intros c Hin.
  { by apply elem_of_nil in Hin. }
  unfold resolved in Hin. simpl in Hin.
  destruct (Engine.resolveGroup get normName build noDeps path0
              (default ∅ (pkgGroups !! path0)) order0 c)
    as [[err|pkgs0] c0] eqn:Hres.
  - destruct (IH c0 Hin) as (before & order & after & c1 & c2 & -> & Hr & Hc).
    exists ((path0, order0) :: before), order, after, c1, c2.
    split_and!; [done..|].
    intros cur cur1 c1' Hrun. unfold loop in Hrun. simpl in Hrun.
    rewrite Hres in Hrun. by eapply Hc.
  - apply elem_of_cons in Hin as [Heq|Hin].
    + simplify_eq. exists [], order0, sched, c, c0.
      split_and!; [done..|].
      intros cur cur1 c1' Hrun. unfold loop in Hrun. simpl in Hrun.
      by simplify_eq.
    + destruct (IH c0 Hin)
        as (before & order & after & c1 & c2 & -> & Hr & Hc).
      exists ((path0, order0) :: before), order, after, c1, c2.
      split_and!; [done..|].
      intros cur cur1 c1' Hrun. unfold loop in Hrun. simpl in Hrun.
      rewrite Hres in Hrun.
      destruct (Engine.mergeLoop _ _ _ _) as [cur0|]; [|done].
      by eapply Hc.
Qed.

(** The groups that the schedule does not visit keep their entries. *)
Lemma enrichLoop_keeps_group inv0 pkgGroups sched cur c cur' c'
    path pkgMap name indexPkg :
  group_ok eligible inv0 pkgGroups → length inv0 ≤ length cur →
  path ∉ sched.*1 →
  pkgGroups !! path = Some pkgMap → pkgMap !! name = Some indexPkg →
  loop pkgGroups sched cur c = Some (cur', c') →
  cur' !! index indexPkg = cur !! index indexPkg.
Proof.
  intros Hok Hlen Hnot Hg Hm. revert cur c Hlen.
  induction sched as [|[path0 order0] sched IH]; intros cur c Hlen Hrun;
    unfold loop in Hrun; simpl in Hrun; [by simplify_eq|].
  rewrite fmap_cons in Hnot. apply not_elem_of_cons in Hnot as [Hne Hnot].
  simpl in Hne.
  destruct (Engine.resolveGroup _ _ _ _ _ _ _ _) as [[err|pkgs] c1];
    [by eapply IH|].
  destruct (Engine.mergeLoop _ _ _ _) as [cur1|] eqn:Hmerge; [|done].
  pose proof (mergeLoop_length _ _ _ _ _ Hmerge) as Hlen1.
  rewrite (IH Hnot cur1 c1 ltac:(lia) Hrun).
  by eapply (mergeLoop_keeps_other_groups eligible tagPlugins inv0 pkgGroups
               path0).
Qed.

(** The entry of a group after the loop, when the schedule visits no path
    twice: what the merge of the group's resolved packages made of it. *)
Lemma enrichLoop_entry inv0 pkgGroups sched c inv' c' path pkgs name
    indexPkg e :
  group_ok eligible inv0 pkgGroups → NoDup sched.*1 →
  loop pkgGroups sched inv0 c = Some (inv', c') →
  (path, pkgs) ∈ resolved pkgGroups sched c →
  default ∅ (pkgGroups !! path) !! name = Some indexPkg →
  inv0 !! index indexPkg = Some e →
  inv' !! index indexPkg
  = Some (foldl (λ e q, if bool_decide (Name q = name)
                        then setPlugins (setVersion e (Version q))
                               (tagPlugins (Plugins e))
                        else e) e pkgs).
Proof.
  intros Hok Hnodup Hrun Hin Hm He.
  destruct (pkgGroups !! path) as [pkgMap|] eqn:Hg; simpl in Hm;
    [|by rewrite lookup_empty in Hm].
  destruct (resolutions_split _ _ _ _ _ Hin)
    as (before & order & after & c1 & c2 & -> & Hres & Hc).
  rewrite fmap_app, fmap_cons in Hnodup. simpl in Hnodup.
  apply NoDup_app in Hnodup as (_ & Hbefore & Hafter).
  apply NoDup_cons in Hafter as [Hafter _].
  assert (path ∉ before.*1) as Hnotbefore.
  { intros Hb. apply (Hbefore _ Hb). apply elem_of_cons. by left. }
  destruct (enrichLoop_reaches inv0 pkgGroups before c Hok)
    as (cur & c1' & Hrun1).
  pose proof (Hc _ _ _ Hrun1) as ->.
  rewrite (enrichLoop_merges _ _ _ _ _ _ _ _ _ _ _ Hrun1 Hres) in Hrun.
  rewrite Hg in Hrun. simpl in Hrun.
  destruct (Engine.mergeLoop tagPlugins pkgMap cur pkgs) as [cur2|]
    eqn:Hmerge; [|done].
  pose proof (enrichLoop_length _ _ _ _ _ _ Hrun1) as Hlen1.
  pose proof (mergeLoop_length _ _ _ _ _ Hmerge) as Hlen2.
  rewrite (enrichLoop_keeps_group inv0 pkgGroups after cur2 c2 inv' c'
             path pkgMap name indexPkg Hok ltac:(lia) Hafter Hg Hm Hrun).
  eapply mergeLoop_entry; [|done| |done].
  - intros name' indexPkg' Hm' Heq.
    destruct (Hok _ _ _ _ Hg Hm) as (Hat & Hname & _).
    destruct (Hok _ _ _ _ Hg Hm') as (Hat' & Hname' & _).
    rewrite Heq, Hat in Hat'. congruence.
  - rewrite (enrichLoop_keeps_group inv0 pkgGroups before inv0 c cur c1
               path pkgMap name indexPkg Hok ltac:(lia) Hnotbefore Hg Hm
               Hrun1).
    done.
Qed.

End GroupByGroup.

(** C8: for every inventory, every visiting order, every client and every
    behaviour of the network, Enrich runs to its end without a panic and
    returns the nil error, and the inventory it leaves is at least as long
    as the one it was given.  No group stops the pass: the loop reaches
    every group of the schedule; when the resolution of a group fails, the
    loop goes on with the groups after it, on the inventory as it was; and
    when the resolution of a group succeeds, whatever became of the groups
    before it, its packages that are not named in the group are in the
    inventory that Enrich leaves. *)
Theorem Enrich_returns_nil (T : Transport) (sched : Schedule)
    (inv : list Package) :
  (∀ c,
     (∃ inv' c',
        PyPI.Enrich T sched inv c = Some (inv', c', None)
        ∧ length inv ≤ length inv')
     ∧ (∀ before after,
          sched = before ++ after →
          ∃ cur c1,
            PyPI.enrichLoop T (PyPI.groupLoop 0 inv ∅) before inv c
            = Some (cur, c1))
     ∧ ∀ before path order after cur c1,
         sched = before ++ (path, order) :: after →
         PyPI.enrichLoop T (PyPI.groupLoop 0 inv ∅) before inv c
         = Some (cur, c1) →
         (∀ err c2,
            PyPI.resolveGroup T path
              (default ∅ (PyPI.groupLoop 0 inv ∅ !! path)) order c1
            = (inl err, c2) →
            PyPI.enrichLoop T (PyPI.groupLoop 0 inv ∅) sched inv c
            = PyPI.enrichLoop T (PyPI.groupLoop 0 inv ∅) after cur c2)
         ∧ (∀ pkgs c2 inv' c' err p,
              PyPI.resolveGroup T path
                (default ∅ (PyPI.groupLoop 0 inv ∅ !! path)) order c1
              = (inr pkgs, c2) →
              PyPI.Enrich T sched inv c = Some (inv', c', err) →
              p ∈ pkgs →
              default ∅ (PyPI.groupLoop 0 inv ∅ !! path) !! Name p = None →
              p ∈ inv'))
  ∧ (∀ c,
       (∃ inv' c',
          Maven.Enrich T sched inv c = Some (inv', c', None)
          ∧ length inv ≤ length inv')
       ∧ (∀ before after,
            sched = before ++ after →
            ∃ cur c1,
              Maven.enrichLoop T (Maven.groupLoop 0 inv ∅) before inv c
              = Some (cur, c1))
       ∧ ∀ before path order after cur c1,
           sched = before ++ (path, order) :: after →
           Maven.enrichLoop T (Maven.groupLoop 0 inv ∅) before inv c
           = Some (cur, c1) →
           (∀ err c2,
              Maven.resolveGroup T path
                (default ∅ (Maven.groupLoop 0 inv ∅ !! path)) order c1
              = (inl err, c2) →
              Maven.enrichLoop T (Maven.groupLoop 0 inv ∅) sched inv c
              = Maven.enrichLoop T (Maven.groupLoop 0 inv ∅) after cur c2)
           ∧ (∀ pkgs c2 inv' c' err p,
                Maven.resolveGroup T path
                  (default ∅ (Maven.groupLoop 0 inv ∅ !! path)) order c1
                = (inr pkgs, c2) →
                Maven.Enrich T sched inv c = Some (inv', c', err) →
                p ∈ pkgs →
                default ∅ (Maven.groupLoop 0 inv ∅ !! path) !! Name p = None →
                p ∈ inv')).
Proof.
  split; intros c; split_and!.
  - enrich_to_engine.
    destruct (Enrich_effect (PyPIClient.GetDependencies T) (ToLower T)
                pypiPackage ErrNoDependencies pypiEligible pypiTag
                pypiPackage_Name sched inv c) as (upd & c' & -> & Hupd).
    eexists _, _. split; [done|].
    rewrite length_app, (Forall2_length _ _ _ Hupd). lia.
  - intros before after _.
    apply (enrichLoop_reaches (PyPIClient.GetDependencies T) (ToLower T)
             pypiPackage ErrNoDependencies pypiEligible pypiTag
             pypiPackage_Name inv).
    apply (groups_ok pypiEligible).
  - intros before path order after cur c1 -> Hbefore. split.
    + intros err c2 Hres.
      exact (enrichLoop_skips (PyPIClient.GetDependencies T) (ToLower T)
               pypiPackage ErrNoDependencies pypiTag _ _ _ _ _ _ _ _ _ _ _
               Hbefore Hres).
    + intros pkgs c2 inv' c' err p Hres Hrun Hp Hnone.
      unfold PyPI.Enrich in Hrun.
      destruct (PyPI.enrichLoop T _ (before ++ _) inv c)
        as [[inv1 c1']|] eqn:Hloop;
        [|done].
      simplify_eq.
      exact (enrichLoop_appends (PyPIClient.GetDependencies T)
               (ToLower T) pypiPackage ErrNoDependencies pypiEligible
               pypiTag pypiPackage_Name inv _ before path order after
               _ _ _ _ _ _ _ _ (groups_ok pypiEligible inv) Hbefore Hres
               Hloop Hp Hnone).
  - enrich_to_engine.
    destruct (Enrich_effect (RESTClient.GetDependencies T) (λ name, name)
                mavenPackage ErrNoMavenDependencies mavenEligible mavenTag
                mavenPackage_Name sched inv c) as (upd & c' & -> & Hupd).
    eexists _, _. split; [done|].
    rewrite length_app, (Forall2_length _ _ _ Hupd). lia.
  - intros before after _. rewrite Maven_enrichLoop_engine.
    apply (enrichLoop_reaches (RESTClient.GetDependencies T) (λ name, name)
             mavenPackage ErrNoMavenDependencies mavenEligible mavenTag
             mavenPackage_Name inv).
    apply (groups_ok mavenEligible).
  - intros before path order after cur c1 -> Hbefore.
    rewrite Maven_enrichLoop_engine in Hbefore. split.
    + intros err c2 Hres. rewrite Maven_resolveGroup_engine in Hres.
      rewrite !Maven_enrichLoop_engine.
      exact (enrichLoop_skips (RESTClient.GetDependencies T)
               (λ name, name) mavenPackage ErrNoMavenDependencies mavenTag
               _ _ _ _ _ _ _ _ _ _ _ Hbefore Hres).
    + intros pkgs c2 inv' c' err p Hres Hrun Hp Hnone.
      rewrite Maven_resolveGroup_engine in Hres.
      unfold Maven.Enrich in Hrun.
      destruct (Maven.enrichLoop T _ (before ++ _) inv c)
        as [[inv1 c1']|] eqn:Hloop;
        [|done].
      simplify_eq. rewrite Maven_enrichLoop_engine in Hloop.
      exact (enrichLoop_appends (RESTClient.GetDependencies T)
               (λ name, name) mavenPackage ErrNoMavenDependencies
               mavenEligible mavenTag mavenPackage_Name inv _ before
               path order after _ _ _ _ _ _ _ _
               (groups_ok mavenEligible inv) Hbefore Hres Hloop Hp Hnone).
Qed.

Lemma Enrich_returns_nil_witness :
  let sched := [("broken/requirements.txt", ["broken"]);
                ("requirements.txt", ["requests"])] in
  let pkgGroups := PyPI.groupLoop 0 Sample.brokenThenRequests ∅ in
  ∃ c1 inv' c',
    range_schedule pkgGroups sched
    ∧ PyPI.resolveGroup Sample.net "broken/requirements.txt"
        (default ∅ (pkgGroups !! "broken/requirements.txt")) ["broken"]
        Sample.pypiClient
      = (inl ErrNoDependencies, c1)
    ∧ PyPI.Enrich Sample.net sched Sample.brokenThenRequests Sample.pypiClient
      = Some (inv', c', None)
    ∧ length inv' = 4
    ∧ pypiPackage "requirements.txt" "urllib3"
        (Sample.node "urllib3" "2.0.0" "DIRECT") ∈ inv'.
Proof.
  intros sched pkgGroups.
  eassert (PyPI.resolveGroup Sample.net "broken/requirements.txt"
             (default ∅ (pkgGroups !! "broken/requirements.txt")) ["broken"]
             Sample.pypiClient = (inl ErrNoDependencies, _)) as Hfail
    by (vm_compute; reflexivity).
  eassert (PyPI.Enrich Sample.net sched Sample.brokenThenRequests
             Sample.pypiClient = Some (_, _, None)) as Hrun
    by (vm_compute; reflexivity).
  assert (PyPI.enrichLoop Sample.net pkgGroups
            [("broken/requirements.txt", ["broken"])]
            Sample.brokenThenRequests Sample.pypiClient
          = Some (Sample.brokenThenRequests, Sample.pypiClient))
    as Hbefore by (vm_compute; reflexivity).
  eassert (PyPI.resolveGroup Sample.net "requirements.txt"
             (default ∅ (pkgGroups !! "requirements.txt")) ["requests"]
             Sample.pypiClient
           = (inr _, _)) as Hres
    by (vm_compute; reflexivity).
  eexists _, _, _.
  split; [range_ok|].
  split; [exact Hfail|]. split; [exact Hrun|].
  split; [vm_compute; reflexivity|].
  refine (proj2 (proj2 (proj2 (proj1 (Enrich_returns_nil Sample.net sched
                                        Sample.brokenThenRequests)
                                 Sample.pypiClient))
                   [("broken/requirements.txt", ["broken"])]
                   "requirements.txt" ["requests"] [] _ _ eq_refl Hbefore)
            _ _ _ _ _ _ Hres Hrun _ _).
  - in_list.
  - vm_compute. reflexivity.
Defined.

Lemma updated_image normName tagPlugins p0 p :
  Engine.updated normName tagPlugins p0 p →
  (∀ s, Name p0 ≠ normName s) → p = p0.
Proof.
  induction 1 as [p|p0 p version _ _ [nodeName Hname]]; [done|].
  intros Hno. by destruct (Hno nodeName).
Qed.

(** C10, as amended: the PyPI merge looks the lower-cased name of a resolved
    package up among the stored names of the group, by string equality.
    An inventory entry whose stored name is not the lower-case form of any
    string is never updated by a pass; when strings.ToLower leaves no
    upper-case ASCII letter, as Go's does, that is every entry whose name
    holds such a letter.  A resolved package, whose name is a lower-case
    form, is appended to the inventory as a new entry when no entry of its
    group is stored under exactly that name.  Otherwise it is not appended
    but merged into the entry that is: when the pass visits no path twice,
    that entry has after the pass the version of the last resolved package
    of that name and, after its plugins, the enricher's tag once for each
    resolved package of that name; nothing else of it has changed. *)
Theorem pypi_merge_exact_name (T : Transport) (sched : Schedule)
    (inv inv' : list Package) (c c' : PyPI.ClientState T)
    (err : option Error) :
  PyPI.Enrich T sched inv c = Some (inv', c', err) →
  (∀ i p, inv !! i = Some p → (∀ s, Name p ≠ ToLower T s) →
          inv' !! i = Some p)
  ∧ (leaves_no_upper T →
     ∀ i p, inv !! i = Some p → has_upper (Name p) = true →
            inv' !! i = Some p)
  ∧ (∀ path pkgs p,
       (path, pkgs) ∈ Engine.resolutions (PyPIClient.GetDependencies T)
                        (ToLower T) pypiPackage ErrNoDependencies
                        (PyPI.groupLoop 0 inv ∅) sched c →
       p ∈ pkgs →
       (∃ s, Name p = ToLower T s)
       ∧ (default ∅ (PyPI.groupLoop 0 inv ∅ !! path) !! Name p = None →
          p ∈ drop (length inv) inv')
       ∧ (∀ indexPkg,
            default ∅ (PyPI.groupLoop 0 inv ∅ !! path) !! Name p
            = Some indexPkg →
            (p ∉ drop (length inv) inv')
            ∧ inv !! index indexPkg = Some (pkg indexPkg)
            ∧ Name (pkg indexPkg) = Name p
            ∧ filter (λ q, Name q = Name p) pkgs ≠ []
            ∧ (NoDup sched.*1 →
               inv' !! index indexPkg
               = Some (mkPackage (Name p)
                         (default (Version (pkg indexPkg))
                            (last (Version <$>
                                     filter (λ q, Name q = Name p) pkgs)))
                         (PURLType (pkg indexPkg))
                         (Locations (pkg indexPkg))
                         (Plugins (pkg indexPkg)
                          ++ replicate
                               (length (filter (λ q, Name q = Name p) pkgs))
                               PyPIDepsDevEnricherName)
                         (PkgMetadata (pkg indexPkg)))))).
Proof.
  intros Hrun. enrich_to_engine.
  destruct (Enrich_pass (PyPIClient.GetDependencies T) (ToLower T)
              pypiPackage ErrNoDependencies pypiEligible pypiTag
              pypiPackage_Name pypi_eligible_tag sched inv c inv' c' err
              pypi_build_ineligible Hrun) as (_ & Hupd & Hdrop & _).
  assert (∀ i p, inv !! i = Some p → (∀ s, Name p ≠ ToLower T s) →
                 inv' !! i = Some p) as Hkeep.
  { intros i p Hi Hno.
    destruct (Forall2_lookup_l _ _ _ _ _ Hupd Hi) as (p' & Hi' & Hrel).
    apply updated_image in Hrel as ->; [|done].
    apply lookup_take_Some in Hi' as [Hi' _]. done. }
  split; [exact Hkeep|]. split.
  - intros Hlower i p Hi Hup. apply Hkeep; [done|].
    intros s Hs. rewrite Hs, Hlower in Hup. discriminate.
  - intros path pkgs p Hr Hp.
    assert (∃ node, p = pypiPackage path
                          (ToLower T (vkName (VersionKey node))) node)
      as [node Hbuilt].
    { pose proof Hr as Hr'.
      apply resolutions_resolved in Hr' as (order & c0 & c1 & Hres).
      destruct (resolveGroup_origin _ _ _ _ _ _ _ _ _ _ _ Hres Hp)
        as (node & _ & _ & ->).
      by exists node. }
    split_and!.
    + exists (vkName (VersionKey node)). by rewrite Hbuilt.
    + intros Hnone. rewrite Hdrop. apply elem_of_appended.
      by exists path, pkgs.
    + intros indexPkg Hsome.
      destruct (group_ok_default pypiEligible inv _ path _ _
                  (groups_ok pypiEligible inv) Hsome) as (Hat & Hname & _).
      assert (p ∈ filter (λ q, Name q = Name p) pkgs) as Hmatch
        by (by apply list_elem_of_filter).
      split_and!; [|done|done| |].
      * rewrite Hdrop. intros Happ.
        apply elem_of_appended in Happ as (path' & pkgs' & Hr' & Hp' & Hnone).
        apply resolutions_resolved in Hr' as (order' & c0' & c1' & Hres').
        destruct (resolveGroup_origin _ _ _ _ _ _ _ _ _ _ _ Hres' Hp')
          as (node' & _ & _ & Hbuilt').
        assert (path' = path) as ->.
        { rewrite Hbuilt in Hbuilt'.
          apply (f_equal Locations) in Hbuilt'. simpl in Hbuilt'.
          congruence. }
        congruence.
      * intros Hnil. rewrite Hnil in Hmatch. by apply elem_of_nil in Hmatch.
      * intros Hnodup. unfold Engine.Enrich in Hrun.
        destruct (Engine.enrichLoop _ _ _ _ _ _ _ _ _) as [[inv1 c1]|]
          eqn:Hloop; [|done].
        simplify_eq.
        rewrite (enrichLoop_entry (PyPIClient.GetDependencies T) (ToLower T)
                   pypiPackage ErrNoDependencies pypiEligible pypiTag
                   pypiPackage_Name inv _ sched c inv' c' path pkgs
                   (Name (pypiPackage path
                            (ToLower T (vkName (VersionKey node))) node))
                   indexPkg
                   (pkg indexPkg) (groups_ok pypiEligible inv) Hnodup Hloop
                   Hr Hsome Hat).
        f_equal. rewrite (Package_eta (foldl _ (pkg indexPkg) pkgs)).
        destruct (step_frame pypiTag
                    (Name (pypiPackage path
                             (ToLower T (vkName (VersionKey node))) node))
                    (pkg indexPkg) pkgs) as (-> & -> & -> & ->).
        rewrite step_Version, pypi_step_Plugins. by rewrite Hname.
Qed.

Lemma pypi_merge_exact_name_witness :
  leaves_no_upper Sample.net
  ∧ NoDup [("requirements.txt", ["Flask"; "flask"; "foo"])].*1
  ∧ ∃ inv' c',
      PyPI.Enrich Sample.net [("requirements.txt", ["Flask"; "flask"; "foo"])]
        Sample.mixedCase Sample.pypiClient = Some (inv', c', None)
      ∧ has_upper (Name (Sample.requirement "Flask" "1.0")) = true
      ∧ inv' !! 0 = Some (Sample.requirement "Flask" "1.0")
      ∧ inv' !! 1
        = Some (mkPackage "flask" "2.0" purl_TypePyPi ["requirements.txt"]
                  [requirements_Name; PyPIDepsDevEnricherName] None)
      ∧ length inv' = 3.
Proof.
  assert (leaves_no_upper Sample.net) as Hlower.
  { intros s. apply has_upper_ToLowerASCII. }
  assert (NoDup [("requirements.txt", ["Flask"; "flask"; "foo"])].*1)
    as Hnodup.
  { simpl. apply NoDup_singleton. }
  split; [exact Hlower|]. split; [exact Hnodup|].
  eassert (PyPI.Enrich Sample.net
             [("requirements.txt", ["Flask"; "flask"; "foo"])]
             Sample.mixedCase Sample.pypiClient = Some (_, _, None))
    as Hrun by (vm_compute; reflexivity).
  pose proof (pypi_merge_exact_name Sample.net _ _ _ _ _ _ Hrun)
    as (_ & Hupper & Hmerge).
  eexists _, _. split; [exact Hrun|]. split; [reflexivity|].
  split; [exact (Hupper Hlower 0 (Sample.requirement "Flask" "1.0")
                   eq_refl eq_refl)|].
  split; [|vm_compute; reflexivity].
  destruct (Hmerge "requirements.txt"
              [pypiPackage "requirements.txt" "flask"
                 (Sample.node "flask" "2.0" "DIRECT")]
              (pypiPackage "requirements.txt" "flask"
                 (Sample.node "flask" "2.0" "DIRECT")))
    as (_ & _ & Hentry).
  - vm_compute. apply elem_of_cons. by left.
  - apply elem_of_cons. by left.
  - destruct (Hentry (mkPWI (Sample.requirement "flask" "1.0") 1))
      as (_ & _ & _ & _ & Hat); [vm_compute; reflexivity|].
    etrans; [exact (Hat Hnodup)|]. vm_compute. reflexivity.
Defined.
